(** * session-sync: the storage core of the Smart Session Manager extension

    A shallow embedding of the chunking, reassembly, retry, verification and
    garbage-collection code of [src/utils.js] and [src/background.js], and the
    properties of the storage specification checked against it.

    Conventions of the embedding:
    - a JavaScript string is a Rocq [string]; [String.length] is its
      [.length], [String.substring] gives [slice];
    - a JSON value is a [value]; numbers are the integers the program stores
      (counts, epoch milliseconds);
    - [chrome.storage.sync] and [chrome.storage.local] are finite maps from
      keys to values; every call on them may fail or the process may stop,
      as dictated by a schedule of faults carried by the [world];
    - an [async] function is a computation in the monad [M] over the world;
      [await] is sequencing, [throw] and [try]/[catch] are explicit. *)

From Stdlib Require Import ZArith Lia Ascii String.
From stdpp Require Import base tactics option list gmap strings pretty.

Set Warnings "-register-all,-abstract-large-number".

(** ** JavaScript strings and arrays of strings *)

Module JsString.

(** [s.slice(b, e)] for non-negative [b] and [e]. *)
Definition slice (s : string) (b e : nat) : string :=
  String.substring b (e - b) s.

(** [parts.join(sep)] on an array of strings. *)
Definition join (sep : string) (parts : list string) : string :=
  String.concat sep parts.

(** [s.split(c)] for a one-character separator; [cur] holds the current
    part, last character first. The result is never the empty array. *)
Fixpoint split_go (c : ascii) (s : string) (cur : string) : list string :=
  match s with
  | EmptyString => [String.rev cur]
  | String a s' =>
      if Ascii.eqb a c then String.rev cur :: split_go c s' EmptyString
      else split_go c s' (String a cur)
  end.

Definition split (c : ascii) (s : string) : list string :=
  split_go c s EmptyString.

(** [arr.slice(-n)]: the last [n] elements, the whole array when shorter. *)
Definition slice_last {A} (n : nat) (l : list A) : list A :=
  drop (length l - n) l.

(** [arr.includes(x)] on an array of strings. *)
Definition includes (x : string) (l : list string) : bool :=
  existsb (String.eqb x) l.

(** [s.startsWith(p)]. *)
Definition startsWith (p s : string) : bool := String.prefix p s.

(** [s.includes(t)] on strings. *)
Definition str_includes (t s : string) : bool :=
  match String.index 0 t s with Some _ => true | None => false end.

(** The template literal [`${n}`] for a loop index. *)
Definition of_nat (n : nat) : string := pretty n.

End JsString.

(** ** Chunk codec

    [saveWithChunks] (utils.js, lines 140-143) and [saveWithChunking]
    (background.js, lines 747-749) cut the text to store with the same loop:
    [for (let i = 0; i < s.length; i += chunkSize)
       chunks.push(s.slice(i, i + chunkSize))]. *)

Module ChunkCodec.

(** The loop, one iteration per unit of [fuel]; [None] when [fuel]
    iterations did not reach the end of the text (with [chunkSize = 0] the
    loop of the source never ends). *)
Fixpoint split_loop (fuel : nat) (s : string) (chunkSize i : nat)
  : option (list string) :=
  if i <? String.length s then
    match fuel with
    | O => None
    | S fuel' =>
        match split_loop fuel' s chunkSize (i + chunkSize) with
        | Some chunks => Some (JsString.slice s i (i + chunkSize) :: chunks)
        | None => None
        end
    end
  else Some [].

(** One iteration consumes at least one character when [chunkSize > 0], so
    [s.length] iterations always suffice. *)
Definition split (s : string) (chunkSize : nat) : option (list string) :=
  split_loop (String.length s) s chunkSize 0.

(** [chunks.join('')]. *)
Definition join (chunks : list string) : string := JsString.join "" chunks.

(** Every fragment but the last has exactly [n] characters. *)
Definition full_but_last (n : nat) (chunks : list string) : Prop :=
  forall j c, S j < length chunks -> chunks !! j = Some c -> String.length c = n.

End ChunkCodec.

(** ** JSON values

    What [chrome.storage] holds and what the functions pass around. Numbers
    are integers: the program stores counts and [Date.now()] readings. *)

Module Json.

Inductive value : Type :=
| VUndefined
| VNull
| VBool (b : bool)
| VNum (n : Z)
| VStr (s : string)
| VArr (items : list value)
| VObj (fields : list (string * value)).

(** The failures of the backing store (section 4.3 of the specification). *)
Inductive storage_error := QuotaExceeded | RateLimited | TransientError.

(** What a [throw] carries. *)
Inductive error :=
| StorageError (e : storage_error)
| TypeError
| SyntaxError
| Error (message : string).

(** How a JavaScript operation ends. [Halt] is the process being stopped in
    the middle of an [await]; [Unmodelled] marks the operations of
    JavaScript's dynamic typing that the embedding leaves out (a number read
    from a non-numeric string, a JSON text with a fraction). *)
Inductive outcome (A : Type) : Type :=
| Return (a : A)
| Throw (e : error)
| Halt
| Unmodelled.
Arguments Return {A} a.
Arguments Throw {A} e.
Arguments Halt {A}.
Arguments Unmodelled {A}.

Definition obind {A B} (m : outcome A) (k : A -> outcome B) : outcome B :=
  match m with
  | Return a => k a
  | Throw e => Throw e
  | Halt => Halt
  | Unmodelled => Unmodelled
  end.

(** Truthiness, as [if], [!], [&&] and [||] test it. *)
Definition truthy (v : value) : bool :=
  match v with
  | VUndefined | VNull => false
  | VBool b => b
  | VNum n => negb (n =? 0)%Z
  | VStr s => negb (String.eqb s "")
  | VArr _ | VObj _ => true
  end.

Fixpoint assoc (name : string) (fields : list (string * value)) : value :=
  match fields with
  | [] => VUndefined
  | (k, v) :: rest => if String.eqb k name then v else assoc name rest
  end.

(** [v.name] for the property names the program reads, none of which a
    string, a number, a boolean or an array has of its own; reading a
    property of [null] or [undefined] throws. *)
Definition member (v : value) (name : string) : outcome value :=
  match v with
  | VUndefined | VNull => Throw TypeError
  | VObj fields => Return (assoc name fields)
  | _ => Return VUndefined
  end.

(** [v?.name]. *)
Definition opt_member (v : value) (name : string) : outcome value :=
  match v with
  | VUndefined | VNull => Return VUndefined
  | _ => member v name
  end.

(** [a || b] on values. *)
Definition or_else (a b : value) : value := if truthy a then a else b.

(** [v.length]. *)
Definition length_of (v : value) : outcome value :=
  match v with
  | VUndefined | VNull => Throw TypeError
  | VArr items => Return (VNum (Z.of_nat (length items)))
  | VStr s => Return (VNum (Z.of_nat (String.length s)))
  | VObj fields => Return (assoc "length" fields)
  | _ => Return VUndefined
  end.

(** Strict equality [a === b] on primitives; two arrays or two objects
    read from storage are never the same object. *)
Definition strict_eq (a b : value) : bool :=
  match a, b with
  | VUndefined, VUndefined | VNull, VNull => true
  | VBool x, VBool y => Bool.eqb x y
  | VNum x, VNum y => (x =? y)%Z
  | VStr x, VStr y => String.eqb x y
  | _, _ => false
  end.

(** [ToNumber] where it needs no parsing. *)
Definition to_number (v : value) : outcome (option Z) :=
  match v with
  | VUndefined => Return None
  | VNull => Return (Some 0%Z)
  | VBool b => Return (Some (if b then 1 else 0)%Z)
  | VNum n => Return (Some n)
  | VStr s => if String.eqb s "" then Return (Some 0%Z) else Unmodelled
  | VArr [] => Return (Some 0%Z)
  | VArr _ => Unmodelled
  | VObj _ => Return None
  end.

(** [ToString], as [Array.prototype.join] and template literals apply it;
    inside [join] an [undefined] or [null] element gives the empty string. *)
Fixpoint to_string (v : value) : string :=
  match v with
  | VUndefined => "undefined"
  | VNull => "null"
  | VBool true => "true"
  | VBool false => "false"
  | VNum n => pretty n
  | VStr s => s
  | VArr items =>
      String.concat ","
        (map (fun x => match x with
                       | VUndefined | VNull => ""
                       | _ => to_string x
                       end) items)
  | VObj _ => "[object Object]"
  end.

Definition join_item (v : value) : string :=
  match v with
  | VUndefined | VNull => ""
  | _ => to_string v
  end.

(** [items.join(sep)]. *)
Definition join (sep : string) (items : list value) : string :=
  String.concat sep (map join_item items).

(** [arr.includes(x)] for a string [x] (SameValueZero on elements),
    [str.includes(x)] on a string; other values have no [includes]. *)
Definition includes (v : value) (x : string) : outcome bool :=
  match v with
  | VArr items => Return (existsb (strict_eq (VStr x)) items)
  | VStr s => Return (JsString.str_includes x s)
  | _ => Throw TypeError
  end.

(** The spread [...v] in an argument list. *)
Fixpoint chars (s : string) : list value :=
  match s with
  | EmptyString => []
  | String a s' => VStr (String a EmptyString) :: chars s'
  end.

Definition spread (v : value) : outcome (list value) :=
  match v with
  | VArr items => Return items
  | VStr s => Return (chars s)
  | _ => Throw TypeError
  end.

End Json.

(** ** The backing store and asynchronous computations *)

Module Storage.
Import Json.

(** The two storage areas the code uses. *)
Inductive area := Sync | Local.

(** What happens to one storage call: it succeeds, it is rejected with an
    error the caller can catch, or the process stops during the call. *)
Inductive fault :=
| NoFault
| Fails (e : storage_error)
| Crash.

(** What the program did, in order. *)
Inductive event :=
| EvSet (a : area) (key : string) (v : value) (f : fault)
| EvGet (a : area) (key : string) (f : fault)
| EvGetAll (a : area) (f : fault)
| EvRemove (a : area) (keys : list string) (f : fault)
| EvSleep (ms : Z).

Record world := World {
  sync : gmap string value;
  local : gmap string value;
  faults : list fault;        (* the fate of the storage calls to come *)
  clock : Z;                  (* what [Date.now()] returns *)
  trace : list event          (* oldest first *)
}.

Definition store_of (a : area) (w : world) : gmap string value :=
  match a with Sync => sync w | Local => local w end.

Definition with_store (a : area) (m : gmap string value) (w : world) : world :=
  match a with
  | Sync => World m (local w) (faults w) (clock w) (trace w)
  | Local => World (sync w) m (faults w) (clock w) (trace w)
  end.

Definition log (e : event) (w : world) : world :=
  World (sync w) (local w) (faults w) (clock w) (trace w ++ [e]).

(** The fate of the next storage call; calls beyond the schedule succeed. *)
Definition next_fault (w : world) : fault * world :=
  match faults w with
  | [] => (NoFault, w)
  | f :: rest => (f, World (sync w) (local w) rest (clock w) (trace w))
  end.

(** An [async] function body. *)
Definition M (A : Type) : Type := world -> outcome A * world.

Definition ret {A} (a : A) : M A := fun w => (Return a, w).

Definition bind {A B} (m : M A) (k : A -> M B) : M B := fun w =>
  match m w with
  | (Return a, w') => k a w'
  | (Throw e, w') => (Throw e, w')
  | (Halt, w') => (Halt, w')
  | (Unmodelled, w') => (Unmodelled, w')
  end.

Definition throw {A} (e : error) : M A := fun w => (Throw e, w).

(** [try { m } catch (error) { handler(error) }]: a stopped process runs no
    handler. *)
Definition try_catch {A} (m : M A) (handler : error -> M A) : M A := fun w =>
  match m w with
  | (Throw e, w') => handler e w'
  | r => r
  end.

(** A computation on values, run inside an [async] function. *)
Definition lift {A} (o : outcome A) : M A := fun w => (o, w).

(** [Date.now()]. *)
Definition Date_now : M Z := fun w => (Return (clock w), w).

(** [await new Promise(resolve => setTimeout(resolve, ms))]. *)
Definition sleep (ms : Z) : M unit := fun w =>
  (Return tt,
   World (sync w) (local w) (faults w) (clock w + ms)%Z (trace w ++ [EvSleep ms])).

(** [await storage.set({ [key]: v })]. *)
Definition storage_set (a : area) (key : string) (v : value) : M unit := fun w =>
  let '(f, w1) := next_fault w in
  let w2 := log (EvSet a key v f) w1 in
  match f with
  | NoFault => (Return tt, with_store a (<[key := v]> (store_of a w2)) w2)
  | Fails e => (Throw (StorageError e), w2)
  | Crash => (Halt, w2)
  end.

(** [(await storage.get(key))[key]]: the stored value, or [undefined]. *)
Definition storage_get (a : area) (key : string) : M value := fun w =>
  let '(f, w1) := next_fault w in
  let w2 := log (EvGet a key f) w1 in
  match f with
  | NoFault => (Return (default VUndefined (store_of a w2 !! key)), w2)
  | Fails e => (Throw (StorageError e), w2)
  | Crash => (Halt, w2)
  end.

(** [await storage.get(null)]: the whole area, as one object. *)
Definition storage_get_all (a : area) : M (gmap string value) := fun w =>
  let '(f, w1) := next_fault w in
  let w2 := log (EvGetAll a f) w1 in
  match f with
  | NoFault => (Return (store_of a w2), w2)
  | Fails e => (Throw (StorageError e), w2)
  | Crash => (Halt, w2)
  end.

Definition remove_keys (keys : list string) (m : gmap string value)
  : gmap string value :=
  foldr delete m keys.

(** [await storage.remove(keys)]. *)
Definition storage_remove (a : area) (keys : list string) : M unit := fun w =>
  let '(f, w1) := next_fault w in
  let w2 := log (EvRemove a keys f) w1 in
  match f with
  | NoFault => (Return tt, with_store a (remove_keys keys (store_of a w2)) w2)
  | Fails e => (Throw (StorageError e), w2)
  | Crash => (Halt, w2)
  end.

End Storage.

(** ** The built-ins [JSON.stringify] and [JSON.parse]

    Restricted to the values above. A character of a Rocq string stands for
    the code unit of the same number. *)

Module JSON.
Import Json.

Definition dquote : ascii := ascii_of_nat 34.
Definition backslash : ascii := ascii_of_nat 92.

Definition hex_digit (n : nat) : ascii :=
  if n <? 10 then ascii_of_nat (48 + n) else ascii_of_nat (87 + n).

(** One character of a string inside its quotes. *)
Definition quote_char (c : ascii) : string :=
  let n := nat_of_ascii c in
  if n =? 34 then String backslash (String dquote "")
  else if n =? 92 then String backslash (String backslash "")
  else if n =? 8 then String backslash "b"
  else if n =? 9 then String backslash "t"
  else if n =? 10 then String backslash "n"
  else if n =? 12 then String backslash "f"
  else if n =? 13 then String backslash "r"
  else if n <? 32 then
    String backslash
      (String "u" (String "0" (String "0"
        (String (hex_digit (n / 16)) (String (hex_digit (n mod 16)) "")))))
  else String c "".

Fixpoint quote_chars (s : string) : string :=
  match s with
  | EmptyString => ""
  | String c s' => quote_char c +:+ quote_chars s'
  end.

Definition quote (s : string) : string :=
  String dquote (quote_chars s +:+ String dquote "").

(** [JSON.stringify(v)]; [None] is the result [undefined]. *)
Fixpoint stringify (v : value) : option string :=
  match v with
  | VUndefined => None
  | VNull => Some "null"
  | VBool true => Some "true"
  | VBool false => Some "false"
  | VNum n => Some (pretty n)
  | VStr s => Some (quote s)
  | VArr items =>
      Some ("[" +:+
            String.concat ","
              (map (fun x => default "null" (stringify x)) items)
            +:+ "]")
  | VObj fields =>
      Some ("{" +:+
            String.concat ","
              (omap (fun kv => match stringify (snd kv) with
                               | Some s => Some (quote (fst kv) +:+ ":" +:+ s)
                               | None => None
                               end) fields)
            +:+ "}")
  end.

Inductive parsed (A : Type) : Type :=
| POk (a : A) (rest : string)
| PSyntax
| PUnmodelled.
Arguments POk {A} a rest.
Arguments PSyntax {A}.
Arguments PUnmodelled {A}.

Definition is_ws (c : ascii) : bool :=
  let n := nat_of_ascii c in
  (n =? 32) || (n =? 9) || (n =? 10) || (n =? 13).

Fixpoint skip_ws (s : string) : string :=
  match s with
  | String c s' => if is_ws c then skip_ws s' else s
  | EmptyString => s
  end.

Definition is_digit (c : ascii) : bool :=
  let n := nat_of_ascii c in (48 <=? n) && (n <=? 57).

(** The digits at the head of [s], as a number, and what follows. *)
Fixpoint digits (s : string) (acc : Z) : Z * string :=
  match s with
  | String c s' =>
      if is_digit c
      then digits s' (10 * acc + Z.of_nat (nat_of_ascii c - 48))%Z
      else (acc, s)
  | EmptyString => (acc, s)
  end.

(** An integer literal without its sign; a fraction or an exponent is left
    out of the embedding. *)
Definition parse_nat (s : string) : parsed Z :=
  match s with
  | String c s' =>
      if is_digit c then
        let '(n, rest) :=
          if nat_of_ascii c =? 48 then (0%Z, s') else digits s 0%Z in
        match rest with
        | String d _ =>
            let k := nat_of_ascii d in
            if (k =? 46) || (k =? 101) || (k =? 69) then PUnmodelled
            else POk n rest
        | EmptyString => POk n rest
        end
      else PSyntax
  | EmptyString => PSyntax
  end.

(** The value of a hexadecimal digit. *)
Definition hex_value (c : ascii) : option nat :=
  let n := nat_of_ascii c in
  if (48 <=? n) && (n <=? 57) then Some (n - 48)
  else if (97 <=? n) && (n <=? 102) then Some (n - 87)
  else if (65 <=? n) && (n <=? 70) then Some (n - 55)
  else None.

(** The four digits of an escape [\uXXXX] and what follows them; a code
    unit above 255 is left out of the embedding. *)
Definition parse_unicode (s : string) : parsed ascii :=
  match s with
  | String a (String b (String c (String d rest))) =>
      match hex_value a, hex_value b, hex_value c, hex_value d with
      | Some x, Some y, Some z, Some t =>
          if (x =? 0) && (y =? 0) then POk (ascii_of_nat (16 * z + t)) rest
          else PUnmodelled
      | _, _, _, _ => PSyntax
      end
  | _ => PSyntax
  end.

(** The characters of a string literal after its opening quote; [fuel]
    bounds their number. *)
Fixpoint parse_chars_go (fuel : nat) (s : string) (acc : string) : parsed string :=
  match fuel with
  | O => PUnmodelled
  | S fuel' =>
      match s with
      | EmptyString => PSyntax
      | String c s' =>
          let n := nat_of_ascii c in
          if n =? 34 then POk (String.rev acc) s'
          else if n <? 32 then PSyntax
          else if n =? 92 then
            match s' with
            | String e s'' =>
                let k := nat_of_ascii e in
                if (k =? 34) || (k =? 92) || (k =? 47)
                then parse_chars_go fuel' s'' (String e acc)
                else if k =? 98 then parse_chars_go fuel' s'' (String (ascii_of_nat 8) acc)
                else if k =? 102 then parse_chars_go fuel' s'' (String (ascii_of_nat 12) acc)
                else if k =? 110 then parse_chars_go fuel' s'' (String (ascii_of_nat 10) acc)
                else if k =? 114 then parse_chars_go fuel' s'' (String (ascii_of_nat 13) acc)
                else if k =? 116 then parse_chars_go fuel' s'' (String (ascii_of_nat 9) acc)
                else if k =? 117 then
                  match parse_unicode s'' with
                  | POk u rest => parse_chars_go fuel' rest (String u acc)
                  | PSyntax => PSyntax
                  | PUnmodelled => PUnmodelled
                  end
                else PSyntax
            | EmptyString => PSyntax
            end
          else parse_chars_go fuel' s' (String c acc)
      end
  end.

Definition parse_chars (s : string) (acc : string) : parsed string :=
  parse_chars_go (S (String.length s)) s acc.

(** [word] at the head of [s]. *)
Definition keyword (word : string) (v : value) (s : string) : parsed value :=
  if String.prefix word s
  then POk v (String.substring (String.length word) (String.length s) s)
  else PSyntax.

(** A property set twice keeps its first place and its last value. *)
Fixpoint set_field (k : string) (v : value) (fields : list (string * value))
  : list (string * value) :=
  match fields with
  | [] => [(k, v)]
  | (k', v') :: rest =>
      if String.eqb k' k then (k', v) :: rest else (k', v') :: set_field k v rest
  end.

(** One JSON value at the head of [s]. [fuel] bounds the nesting depth; the
    inner loops read the elements of an array after its bracket and the
    members of an object after its brace. *)
Fixpoint parse_value (fuel : nat) (s : string) : parsed value :=
  match fuel with
  | O => PUnmodelled
  | S fuel' =>
      let fix items (n : nat) (s : string) (acc : list value) : parsed value :=
        match n with
        | O => PUnmodelled
        | S n' =>
            match parse_value fuel' s with
            | POk v r =>
                match skip_ws r with
                | String c r' =>
                    if nat_of_ascii c =? 44 then items n' r' (acc ++ [v])
                    else if nat_of_ascii c =? 93 then POk (VArr (acc ++ [v])) r'
                    else PSyntax
                | EmptyString => PSyntax
                end
            | PSyntax => PSyntax
            | PUnmodelled => PUnmodelled
            end
        end in
      let fix members (n : nat) (s : string) (acc : list (string * value))
        : parsed value :=
        match n with
        | O => PUnmodelled
        | S n' =>
            match skip_ws s with
            | String q r =>
                if nat_of_ascii q =? 34 then
                  match parse_chars r "" with
                  | POk k r1 =>
                      match skip_ws r1 with
                      | String c r2 =>
                          if nat_of_ascii c =? 58 then
                            match parse_value fuel' r2 with
                            | POk v r3 =>
                                match skip_ws r3 with
                                | String d r4 =>
                                    if nat_of_ascii d =? 44
                                    then members n' r4 (set_field k v acc)
                                    else if nat_of_ascii d =? 125
                                    then POk (VObj (set_field k v acc)) r4
                                    else PSyntax
                                | EmptyString => PSyntax
                                end
                            | PSyntax => PSyntax
                            | PUnmodelled => PUnmodelled
                            end
                          else PSyntax
                      | EmptyString => PSyntax
                      end
                  | PSyntax => PSyntax
                  | PUnmodelled => PUnmodelled
                  end
                else PSyntax
            | EmptyString => PSyntax
            end
        end in
      match skip_ws s with
      | EmptyString => PSyntax
      | String c r =>
          let n := nat_of_ascii c in
          if n =? 34 then
            match parse_chars r "" with
            | POk str r' => POk (VStr str) r'
            | PSyntax => PSyntax
            | PUnmodelled => PUnmodelled
            end
          else if n =? 91 then
            match skip_ws r with
            | String c' r' =>
                if nat_of_ascii c' =? 93 then POk (VArr []) r'
                else items (S (String.length r)) r []
            | EmptyString => PSyntax
            end
          else if n =? 123 then
            match skip_ws r with
            | String c' r' =>
                if nat_of_ascii c' =? 125 then POk (VObj []) r'
                else members (S (String.length r)) r []
            | EmptyString => PSyntax
            end
          else if n =? 45 then
            match parse_nat r with
            | POk z r' => POk (VNum (- z)) r'
            | PSyntax => PSyntax
            | PUnmodelled => PUnmodelled
            end
          else if is_digit c then
            match parse_nat (String c r) with
            | POk z r' => POk (VNum z) r'
            | PSyntax => PSyntax
            | PUnmodelled => PUnmodelled
            end
          else if n =? 110 then keyword "null" VNull (String c r)
          else if n =? 116 then keyword "true" (VBool true) (String c r)
          else if n =? 102 then keyword "false" (VBool false) (String c r)
          else PSyntax
      end
  end.

(** [JSON.parse(text)]: a value, or a [SyntaxError]. *)
Definition parse (text : string) : outcome value :=
  match parse_value (S (String.length text)) text with
  | POk v rest =>
      match skip_ws rest with
      | EmptyString => Return v
      | String _ _ => Throw SyntaxError
      end
  | PSyntax => Throw SyntaxError
  | PUnmodelled => Unmodelled
  end.

End JSON.

Declare Scope js_scope.
Delimit Scope js_scope with js.
Notation "'let!' x ':=' m 'in' k" :=
  (Storage.bind m (fun x => k))
  (at level 10, x pattern, m at level 100, k at level 200,
   format "'[v' 'let!'  x  ':='  m  'in' '/' k ']'") : js_scope.
Notation "m ';;' k" :=
  (Storage.bind m (fun _ => k))
  (at level 100, k at level 200, right associativity) : js_scope.
Notation "'try!' x ':=' m 'in' k" :=
  (Json.obind m (fun x => k))
  (at level 10, x pattern, m at level 100, k at level 200,
   format "'[v' 'try!'  x  ':='  m  'in' '/' k ']'") : js_scope.

Local Open Scope js_scope.

(** ** The built-ins [TextEncoder], [TextDecoder], [btoa] and [atob]

    A byte array is a list of numbers. A character of a Rocq string stands
    for the code unit of the same number, below 256: [btoa] accepts every
    such string, and a text whose decoding would need a higher code unit is
    left out of the embedding. *)

Module Web.
Import Json.

(** [new TextEncoder().encode(s)]: the UTF-8 bytes of [s]. *)
Fixpoint TextEncoder_encode (s : string) : list Z :=
  match s with
  | EmptyString => []
  | String c s' =>
      let n := Z.of_nat (nat_of_ascii c) in
      if (n <? 128)%Z then n :: TextEncoder_encode s'
      else (192 + n / 64)%Z :: (128 + n mod 64)%Z :: TextEncoder_encode s'
  end.

Definition char_of (n : Z) : ascii := ascii_of_nat (Z.to_nat n).

(** [new TextDecoder().decode(bytes)] for the UTF-8 texts whose code
    points are below 256. A malformed sequence gives U+FFFD, which, like
    every code point from 256 on, has no character here. *)
Fixpoint TextDecoder_decode (bytes : list Z) : outcome string :=
  match bytes with
  | [] => Return EmptyString
  | b :: rest =>
      if ((0 <=? b) && (b <? 128))%Z then
        try! s := TextDecoder_decode rest in Return (String (char_of b) s)
      else if ((b =? 194) || (b =? 195))%Z then
        match rest with
        | b2 :: rest' =>
            if ((128 <=? b2) && (b2 <? 192))%Z then
              try! s := TextDecoder_decode rest' in
              Return (String (char_of ((b - 192) * 64 + (b2 - 128))) s)
            else Unmodelled
        | [] => Unmodelled
        end
      else Unmodelled
  end.

Definition base64_alphabet : list ascii :=
  list_ascii_of_string
    "ABCDEFGHIJKLMNOPQRSTUVWXYZabcdefghijklmnopqrstuvwxyz0123456789+/".

Definition base64_char (n : nat) : ascii := nth n base64_alphabet "A"%char.

Definition pad : ascii := "="%char.

(** The six-bit groups of a list of bytes; the last group is filled up
    with zero bits. *)
Fixpoint base64_sextets (bytes : list nat) : list nat :=
  match bytes with
  | a :: b :: c :: rest =>
      a / 4 :: a mod 4 * 16 + b / 16 :: b mod 16 * 4 + c / 64 :: c mod 64
      :: base64_sextets rest
  | [a; b] => [a / 4; a mod 4 * 16 + b / 16; b mod 16 * 4]
  | [a] => [a / 4; a mod 4 * 16]
  | [] => []
  end.

(** The padding after the groups of [n] bytes. *)
Definition base64_padding (n : nat) : list ascii :=
  match n mod 3 with
  | 1 => [pad; pad]
  | 2 => [pad]
  | _ => []
  end.

(** The base64 text of a list of bytes. *)
Definition base64_encode (bytes : list nat) : list ascii :=
  map base64_char (base64_sextets bytes) ++ base64_padding (length bytes).

(** [String.fromCharCode(x)] makes the code unit [x mod 65536]. *)
Definition code_unit (x : Z) : Z := (x mod 65536)%Z.

(** [btoa(String.fromCharCode.apply(null, result))] (utils.js, line 47):
    [btoa] throws when a code unit of its argument is above 255. *)
Definition btoa_fromCharCode (result : list Z) : outcome string :=
  if forallb (fun x => (code_unit x <? 256)%Z) result then
    Return (string_of_list_ascii
              (base64_encode (map (fun x => Z.to_nat (code_unit x)) result)))
  else Throw (Error "InvalidCharacterError").

(** The value of a character of the base64 alphabet. *)
Definition base64_value (c : ascii) : option nat :=
  let n := nat_of_ascii c in
  if (65 <=? n) && (n <=? 90) then Some (n - 65)
  else if (97 <=? n) && (n <=? 122) then Some (n - 71)
  else if (48 <=? n) && (n <=? 57) then Some (n + 4)
  else if n =? 43 then Some 62
  else if n =? 47 then Some 63
  else None.

Definition is_ascii_whitespace (c : ascii) : bool :=
  let n := nat_of_ascii c in
  (n =? 9) || (n =? 10) || (n =? 12) || (n =? 13) || (n =? 32).

(** The padding that a text whose length is a multiple of four may end
    with is dropped. *)
Definition strip_padding (l : list ascii) : list ascii :=
  if length l mod 4 =? 0 then
    match rev l with
    | p :: q :: r =>
        if Ascii.eqb p pad then
          if Ascii.eqb q pad then rev r else rev (q :: r)
        else l
    | [p] => if Ascii.eqb p pad then [] else l
    | [] => l
    end
  else l.

Fixpoint base64_values (l : list ascii) : option (list nat) :=
  match l with
  | [] => Some []
  | c :: rest =>
      match base64_value c, base64_values rest with
      | Some v, Some vs => Some (v :: vs)
      | _, _ => None
      end
  end.

(** Four characters make three bytes; the bits left over at the end are
    dropped. *)
Fixpoint base64_octets (values : list nat) : list nat :=
  match values with
  | a :: b :: c :: d :: rest =>
      (a * 4 + b / 16) :: (b mod 16 * 16 + c / 4) :: (c mod 4 * 64 + d)
      :: base64_octets rest
  | [a; b; c] => [a * 4 + b / 16; b mod 16 * 16 + c / 4]
  | [a; b] => [a * 4 + b / 16]
  | _ => []
  end.

(** [new Uint8Array(atob(s).split('').map(c => c.charCodeAt(0)))]
    (utils.js, line 67). *)
Definition atob_charCodes (s : string) : outcome (list Z) :=
  let l := filter (fun c => is_ascii_whitespace c = false) (list_ascii_of_string s) in
  let l := strip_padding l in
  if length l mod 4 =? 1 then Throw (Error "InvalidCharacterError")
  else
    match base64_values l with
    | Some values => Return (map Z.of_nat (base64_octets values))
    | None => Throw (Error "InvalidCharacterError")
    end.

End Web.


(** ** src/utils.js *)

Module Utils.
Import Json Storage.

Section storage_utilities.

(** Modelled from the spec: the LZMA codec [LZMA.compress(data, level, ..)]
    and [LZMA.decompress(data, ..)] of [lib/lzma_worker.min.js], which the
    worker of lines 4-28 loads and which is not among the sources. Section
    4.1 of the specification gives its contract: [compress(bytes) ->
    compressedBytes], [decompress(compressedBytes) -> bytes], a failure
    being an error. The exchange of messages with the worker is the call of
    the function; the time limit of 30 s is not represented. *)
Variable LZMA_compress : list Z -> Z -> outcome (list Z).
Variable LZMA_decompress : list Z -> outcome (list Z).

(** [compressData(data)], lines 31-63. [encode(undefined)] is the empty
    array. *)
Definition compressData (data : value) : outcome string :=
  let jsonString := JSON.stringify data in
  let uint8Array :=
    match jsonString with
    | Some s => Web.TextEncoder_encode s
    | None => []
    end in
  try! result := LZMA_compress uint8Array 9 in
  Web.btoa_fromCharCode result.

(** [decompressData(compressedData)], lines 65-94. [atob] takes its
    argument as a string. *)
Definition decompressData (compressedData : value) : outcome value :=
  try! compressed := Web.atob_charCodes (to_string compressedData) in
  try! result := LZMA_decompress compressed in
  try! jsonString := Web.TextDecoder_decode result in
  JSON.parse jsonString.

(** [const storage = useLocal ? chrome.storage.local : chrome.storage.sync]. *)
Definition storage_area (useLocal : bool) : area :=
  if useLocal then Local else Sync.

(** [`${key}_chunk_${i}`] and [`${key}_meta`]. *)
Definition chunk_key (key : string) (i : nat) : string :=
  key +:+ "_chunk_" +:+ JsString.of_nat i.

Definition meta_key (key : string) : string := key +:+ "_meta".

Definition chunkSize : nat := 8000.
Definition maxRetries : nat := 3.

(** Lines 148-160, the loop that writes one fragment:
    [while (retries < maxRetries) { try { await storage.set(..); break; }
       catch (error) { retries++; if (retries === maxRetries) throw error;
                       await new Promise(r => setTimeout(r, 100 * retries)); } }].
    Each unit of [fuel] is one iteration. *)
Fixpoint set_with_retries (fuel : nat) (storage : area) (k : string) (v : value)
  (retries : nat) : M unit :=
  if retries <? maxRetries then
    match fuel with
    | O => lift Unmodelled
    | S fuel' =>
        try_catch (storage_set storage k v)
          (fun error =>
             let retries := S retries in
             if retries =? maxRetries then throw error
             else sleep (100 * Z.of_nat retries) ;;
                  set_with_retries fuel' storage k v retries)
    end
  else ret tt.

(** Lines 147-161: [for (let i = 0; i < chunks.length; i++)], from index [i]
    on. *)
Fixpoint save_chunks (storage : area) (key : string) (chunks : list string)
  (i : nat) : M unit :=
  match chunks with
  | [] => ret tt
  | chunk :: rest =>
      set_with_retries maxRetries storage (chunk_key key i) (VStr chunk) 0 ;;
      save_chunks storage key rest (S i)
  end.

(** [saveWithChunks(key, data, useLocal)], lines 134-170. *)
Definition saveWithChunks (key : string) (data : value) (useLocal : bool)
  : M unit :=
  let storage := storage_area useLocal in
  let! compressed := lift (compressData data) in
  match ChunkCodec.split compressed chunkSize with
  | None => lift Unmodelled
  | Some chunks =>
      save_chunks storage key chunks 0 ;;
      let! now := Date_now in
      storage_set storage (meta_key key)
        (VObj [("chunks", VNum (Z.of_nat (length chunks)));
               ("timestamp", VNum now)])
  end.

(** Lines 186-196, the loop that reads one fragment. *)
Fixpoint get_with_retries (fuel : nat) (storage : area) (k : string)
  (retries : nat) : M value :=
  if retries <? maxRetries then
    match fuel with
    | O => lift Unmodelled
    | S fuel' =>
        try_catch (storage_get storage k)
          (fun error =>
             let retries := S retries in
             if retries =? maxRetries then throw error
             else sleep (100 * Z.of_nat retries) ;;
                  get_with_retries fuel' storage k retries)
    end
  else ret VUndefined.

(** Lines 184-197: [for (let i = 0; i < meta[..].chunks; i++)], [n] more
    fragments from index [i] on; [chunks.push(chunk[..])] keeps an absent
    fragment as [undefined]. *)
Fixpoint load_chunks (storage : area) (key : string) (n i : nat)
  : M (list value) :=
  match n with
  | O => ret []
  | S n' =>
      let! chunk := get_with_retries maxRetries storage (chunk_key key i) 0 in
      let! chunks := load_chunks storage key n' (S i) in
      ret (chunk :: chunks)
  end.

(** [loadFromChunks(key, useLocal)], lines 172-206. The [catch] of the
    source logs and rethrows. *)
Definition loadFromChunks (key : string) (useLocal : bool) : M value :=
  let storage := storage_area useLocal in
  let! meta := storage_get storage (meta_key key) in
  if negb (truthy meta) then ret VNull
  else
    let! count := lift (member meta "chunks") in
    let! bound := lift (to_number count) in
    let n := match bound with Some z => Z.to_nat z | None => O end in
    let! chunks := load_chunks storage key n 0 in
    let compressed := Json.join "" chunks in
    lift (decompressData (VStr compressed)).

(** [storageSet(key, value, useLocal)], lines 97-112. *)
Definition storageSet (key : string) (v : value) (useLocal : bool) : M unit :=
  let! compressed := lift (compressData v) in
  let storage := storage_area useLocal in
  if 8000 <? String.length compressed then saveWithChunks key v useLocal
  else storage_set storage key (VStr compressed).

(** [storageGet(key, useLocal)], lines 114-131. *)
Definition storageGet (key : string) (useLocal : bool) : M value :=
  let storage := storage_area useLocal in
  let! chunkedData := loadFromChunks key useLocal in
  if truthy chunkedData then ret chunkedData
  else
    let! result := storage_get storage key in
    if negb (truthy result) then ret VNull
    else lift (decompressData result).

End storage_utilities.

(** [getMainDomain(domain)], lines 209-221. *)
Definition getMainDomain (domain : string) : string :=
  let parts := JsString.split "." domain in
  if length parts <=? 2 then domain
  else
    let specialTlds := ["co.uk"; "com.au"; "co.jp"; "co.nz"; "co.in"] in
    let lastTwo := JsString.join "." (JsString.slice_last 2 parts) in
    if JsString.includes lastTwo specialTlds
    then JsString.join "." (JsString.slice_last 3 parts)
    else JsString.join "." (JsString.slice_last 2 parts).

End Utils.

(** ** src/background.js *)

Module Background.
Import Json Storage.

(** [getMainDomain(domain)], lines 672-685. *)
Definition getMainDomain (domain : string) : string :=
  let parts := JsString.split "." domain in
  if length parts <=? 2 then domain
  else
    let specialTlds := ["co.uk"; "com.au"; "co.jp"; "co.nz"] in
    let lastTwo := JsString.join "." (JsString.slice_last 2 parts) in
    if JsString.includes lastTwo specialTlds
    then JsString.join "." (JsString.slice_last 3 parts)
    else JsString.join "." (JsString.slice_last 2 parts).

Definition CHROME_SYNC_QUOTA_BYTES_PER_ITEM : nat := 8192.
Definition CHUNK_SIZE : nat := 7000.
Definition CHUNK_PREFIX : string := "chunk_".

(** [`${CHUNK_PREFIX}${key}_${i}`]. *)
Definition chunk_key (key : string) (i : nat) : string :=
  CHUNK_PREFIX +:+ key +:+ "_" +:+ JsString.of_nat i.

(** Lines 754-759: the loop that writes the fragments, from index [i] on,
    [chunkKeys] being the keys pushed so far. *)
Fixpoint save_chunks (key : string) (chunks : list string) (i : nat)
  (chunkKeys : list string) : M (list string) :=
  match chunks with
  | [] => ret chunkKeys
  | chunk :: rest =>
      let chunkKey := chunk_key key i in
      let chunkKeys := chunkKeys ++ [chunkKey] in
      storage_set Sync chunkKey (VStr chunk) ;;
      save_chunks key rest (S i) chunkKeys
  end.

(** The Metadata entry of lines 763-768. *)
Definition metadata (chunkCount : nat) (chunkKeys : list string) (now : Z)
  : value :=
  VObj [("isChunked", VBool true);
        ("chunkCount", VNum (Z.of_nat chunkCount));
        ("chunkKeys", VArr (map VStr chunkKeys));
        ("timestamp", VNum now)].

(** [saveWithChunking(key, data)], lines 743-772. [stringified.length] of
    [undefined] throws. *)
Definition saveWithChunking (key : string) (data : value) : M value :=
  match JSON.stringify data with
  | None => throw TypeError
  | Some stringified =>
      match ChunkCodec.split stringified CHUNK_SIZE with
      | None => lift Unmodelled
      | Some chunks =>
          let! chunkKeys := save_chunks key chunks 0 [] in
          let! now := Date_now in
          storage_set Sync key (metadata (length chunks) chunkKeys now) ;;
          ret (VBool true)
      end
  end.

(** Lines 780-785. The reads are started together and awaited with
    [Promise.all]; they write nothing, so they are taken in the order of
    [chunkKeys]. [result[chunkKey]] of an absent fragment is [undefined];
    [chrome.storage.sync.get] refuses a key that is not a string. *)
Fixpoint read_chunks (chunkKeys : list value) : M (list value) :=
  match chunkKeys with
  | [] => ret []
  | VStr chunkKey :: rest =>
      let! chunk := storage_get Sync chunkKey in
      let! chunks := read_chunks rest in
      ret (chunk :: chunks)
  | _ :: _ => throw TypeError
  end.

(** [getChunkedData(key, metadata)], lines 775-789. *)
Definition getChunkedData (key : string) (metadata : value) : M value :=
  let! isChunked := lift (member metadata "isChunked") in
  if negb (truthy isChunked) then ret metadata
  else
    let! chunkKeys := lift (member metadata "chunkKeys") in
    match chunkKeys with
    | VArr keys =>
        let! chunks := read_chunks keys in
        let fullData := Json.join "" chunks in
        lift (JSON.parse fullData)
    | _ => throw TypeError
    end.



(** Line 797: thirty days in milliseconds. *)
Definition maxAge : Z := 30 * 24 * 60 * 60 * 1000.

(** Line 808: [value.lastAccessed && (now - value.lastAccessed > maxAge)],
    as the [if] tests it. A comparison with [NaN] is false. *)
Definition is_old (now : Z) (v : value) : outcome bool :=
  try! lastAccessed := member v "lastAccessed" in
  if truthy lastAccessed then
    try! t := to_number lastAccessed in
    Return (match t with
            | Some t => (maxAge <? now - t)%Z
            | None => false
            end)
  else Return false.

(** [profileKeys.add(key)]. *)
Definition set_add (key : string) (keys : list string) : list string :=
  if JsString.includes key keys then keys else keys ++ [key].

(** Lines 805-815: the body of the first loop, on one entry. *)
Definition first_pass_step (now : Z) (st : list value * list string)
  (entry : string * value) : outcome (list value * list string) :=
  let '(toRemove, profileKeys) := st in
  let '(key, v) := entry in
  if JsString.startsWith "profile_" key then
    let profileKeys := set_add key profileKeys in
    try! old := is_old now v in
    if old then
      let toRemove := toRemove ++ [VStr key] in
      try! isChunked := member v "isChunked" in
      try! chunkKeys := member v "chunkKeys" in
      if truthy isChunked && truthy chunkKeys then
        try! items := spread chunkKeys in
        Return (toRemove ++ items, profileKeys)
      else Return (toRemove, profileKeys)
    else Return (toRemove, profileKeys)
  else Return (toRemove, profileKeys).

(** Lines 804-816: [for (const [key, value] of Object.entries(storage))]. *)
Fixpoint first_pass (now : Z) (entries : list (string * value))
  (st : list value * list string) : outcome (list value * list string) :=
  match entries with
  | [] => Return st
  | entry :: rest =>
      try! st' := first_pass_step now st entry in
      first_pass now rest st'
  end.

(** Line 823: [storage[profileKey]?.chunkKeys?.includes(key)], as [some]
    tests it. *)
Definition references (v : value) (key : string) : outcome bool :=
  try! chunkKeys := opt_member v "chunkKeys" in
  match chunkKeys with
  | VUndefined | VNull => Return false
  | _ => includes chunkKeys key
  end.

(** Lines 822-824: [Array.from(profileKeys).some(profileKey => ..)], which
    stops at the first profile that lists the key. *)
Fixpoint belongsToProfile (storage : gmap string value)
  (profileKeys : list string) (key : string) : outcome bool :=
  match profileKeys with
  | [] => Return false
  | profileKey :: rest =>
      try! found := references (default VUndefined (storage !! profileKey)) key in
      if found then Return true else belongsToProfile storage rest key
  end.

(** Lines 819-830: the second loop. *)
Fixpoint second_pass (storage : gmap string value) (profileKeys : list string)
  (entries : list (string * value)) (toRemove : list value)
  : outcome (list value) :=
  match entries with
  | [] => Return toRemove
  | (key, _) :: rest =>
      if JsString.startsWith CHUNK_PREFIX key then
        try! belongs := belongsToProfile storage profileKeys key in
        if negb belongs
        then second_pass storage profileKeys rest (toRemove ++ [VStr key])
        else second_pass storage profileKeys rest toRemove
      else second_pass storage profileKeys rest toRemove
  end.

(** The list of keys [toRemove] computed by lines 800-830. *)
Definition keys_to_remove (storage : gmap string value) (now : Z)
  : outcome (list value) :=
  let entries := map_to_list storage in
  try! st := first_pass now entries ([], []) in
  second_pass storage (snd st) entries (fst st).

(** [chrome.storage.sync.remove] takes strings only. *)
Fixpoint as_keys (items : list value) : option (list string) :=
  match items with
  | [] => Some []
  | VStr k :: rest =>
      match as_keys rest with
      | Some ks => Some (k :: ks)
      | None => None
      end
  | _ :: _ => None
  end.

(** [cleanupStorage()], lines 792-839. Whatever is thrown is logged and
    dropped. *)
Definition cleanupStorage : M unit :=
  try_catch
    (let! storage := storage_get_all Sync in
     let! now := Date_now in
     let! toRemove := lift (keys_to_remove storage now) in
     if 0 <? length toRemove then
       match as_keys toRemove with
       | Some keys => storage_remove Sync keys
       | None => throw TypeError
       end
     else ret tt)
    (fun error => ret tt).

(** [`profile_${profileName}_${mainDomain}`]. *)
Definition profile_key (profileName mainDomain : string) : string :=
  "profile_" +:+ profileName +:+ "_" +:+ mainDomain.

(** [verifySaveSuccess(profileName, domain, originalData)], lines 976-1009. *)
Definition verifySaveSuccess (profileName domain : string)
  (originalData : value) : M bool :=
  try_catch
    (let profileKey := profile_key profileName (getMainDomain domain) in
     let! saved := storage_get Sync profileKey in
     if negb (truthy saved) then ret false
     else
       let! cookies := lift (member saved "cookies") in
       let savedCookies := or_else cookies (VArr []) in
       let! cookies' := lift (member originalData "cookies") in
       let originalCookies := or_else cookies' (VArr []) in
       let! savedLength := lift (length_of savedCookies) in
       let! originalLength := lift (length_of originalCookies) in
       if negb (strict_eq savedLength originalLength) then ret false
       else
         let! storage := lift (member originalData "storage") in
         let! page := lift (opt_member storage "page") in
         if truthy page then
           let! storage' := lift (member saved "storage") in
           let! page' := lift (opt_member storage' "page") in
           if negb (truthy page') then ret false else ret true
         else ret true)
    (fun error => ret false).

(** [error.message]. *)
Definition message (e : error) : string :=
  match e with
  | StorageError QuotaExceeded => "QUOTA_BYTES quota exceeded"
  | StorageError RateLimited => "MAX_WRITE_OPERATIONS quota exceeded"
  | StorageError TransientError => "storage operation failed"
  | TypeError => "TypeError"
  | SyntaxError => "SyntaxError"
  | Error m => m
  end.

(** [s.toLowerCase()] on the code units below 256. *)
Definition lower_char (c : ascii) : ascii :=
  let n := nat_of_ascii c in
  if ((65 <=? n) && (n <=? 90)) || ((192 <=? n) && (n <=? 222) && negb (n =? 215))
  then ascii_of_nat (n + 32) else c.

Fixpoint toLowerCase (s : string) : string :=
  match s with
  | EmptyString => EmptyString
  | String c s' => String (lower_char c) (toLowerCase s')
  end.

(** Lines 704-706 and 726-728: [x.toLowerCase().includes('auth') || ..
    includes('token') || .. includes('session')]; only a string has
    [toLowerCase]. *)
Definition is_auth_name (x : value) : outcome bool :=
  match x with
  | VStr s =>
      let l := toLowerCase s in
      Return (JsString.str_includes "auth" l || JsString.str_includes "token" l
              || JsString.str_includes "session" l)
  | _ => Throw TypeError
  end.

(** Lines 703-716: [.filter(..).map(..)] on the cookies. *)
Fixpoint reduce_cookies (cookies : list value) : outcome (list value) :=
  match cookies with
  | [] => Return []
  | cookie :: rest =>
      try! name := member cookie "name" in
      try! keep := is_auth_name name in
      try! rest' := reduce_cookies rest in
      if keep then
        try! v := member cookie "value" in
        try! d := member cookie "domain" in
        try! p := member cookie "path" in
        try! s := member cookie "secure" in
        try! h := member cookie "httpOnly" in
        Return (VObj [("name", name); ("value", v); ("domain", d);
                      ("path", p); ("secure", s); ("httpOnly", h)] :: rest')
      else Return rest'
  end.

(** Lines 723-730: the entries of the page's [localStorage] that are kept. *)
Fixpoint reduce_entries (entries : list (string * value))
  : outcome (list (string * value)) :=
  match entries with
  | [] => Return []
  | (k, v) :: rest =>
      try! keep := is_auth_name (VStr k) in
      try! rest' := reduce_entries rest in
      Return (if keep then (k, v) :: rest' else rest')
  end.

(** [reduceDataSize(data)], lines 692-736. Only an array has [filter]. *)
Definition reduceDataSize (data : value) : outcome value :=
  match JSON.stringify data with
  | None => Throw TypeError
  | Some stringified =>
      if String.length stringified <=? CHROME_SYNC_QUOTA_BYTES_PER_ITEM
      then Return data
      else
        match data with
        | VObj fields =>
            match assoc "cookies" fields with
            | VArr cookies =>
                try! kept := reduce_cookies cookies in
                let reduced := JSON.set_field "cookies" (VArr kept) fields in
                match JSON.stringify (VObj reduced) with
                | None => Throw TypeError
                | Some stringified' =>
                    if CHROME_SYNC_QUOTA_BYTES_PER_ITEM <? String.length stringified'
                    then
                      try! page := opt_member (assoc "storage" fields) "page" in
                      try! ls := opt_member page "localStorage" in
                      match or_else ls (VObj []) with
                      | VObj entries =>
                          try! kept' := reduce_entries entries in
                          Return (VObj (JSON.set_field "storage"
                            (VObj [("page", VObj [("localStorage", VObj kept')])])
                            reduced))
                      | VNum _ | VBool _ =>
                          Return (VObj (JSON.set_field "storage"
                            (VObj [("page", VObj [("localStorage", VObj [])])])
                            reduced))
                      | _ => Unmodelled
                      end
                    else Return (VObj reduced)
                end
            | _ => Throw TypeError
            end
        | _ => Throw TypeError
        end
  end.

(** [`domain_profiles_${mainDomain}`]. *)
Definition domain_profiles_key (mainDomain : string) : string :=
  "domain_profiles_" +:+ mainDomain.

(** [trySaveProfile(profileName, domain, data)], lines 842-894. *)
Definition trySaveProfile (profileName domain : string) (data : value)
  : M value :=
  let mainDomain := getMainDomain domain in
  let profileKey := profile_key profileName mainDomain in
  try_catch
    (cleanupStorage ;;
     storage_set Local profileKey data ;;
     try_catch
       (match JSON.stringify data with
        | None => throw TypeError
        | Some stringified =>
            if CHROME_SYNC_QUOTA_BYTES_PER_ITEM <? String.length stringified
            then saveWithChunking profileKey data ;; ret tt
            else storage_set Sync profileKey data
        end)
       (fun error =>
          let! reducedData := lift (reduceDataSize data) in
          storage_set Sync profileKey reducedData) ;;
     let domainProfilesKey := domain_profiles_key mainDomain in
     let! existingData := storage_get Sync domainProfilesKey in
     let domainProfiles := or_else existingData (VArr []) in
     let! listed := lift (includes domainProfiles profileName) in
     (if negb listed then
        match domainProfiles with
        | VArr names =>
            let! now := Date_now in
            storage_set Sync domainProfilesKey
              (VObj [("profiles", VArr (names ++ [VStr profileName]));
                     ("lastUpdated", VNum now)])
        | _ => throw TypeError
        end
      else ret tt) ;;
     ret (VBool true))
    (fun error =>
       ret (VObj [("success", VBool true);
                  ("warning", VStr "Saved to local storage only")])).

Section profile_saving.

(** [collectProfileData(domain)] (lines 897-973) reads the cookies and the
    page storage of the browser. *)
Variable collectProfileData : string -> M value.

(** Modelled from the spec: the LZMA codec of [lib/lzma_worker.min.js], as
    in utils.js, whose [compressData], [saveWithChunks], [storageGet] and
    [storageSet] line 1191 imports. *)
Variable LZMA_compress : list Z -> Z -> outcome (list Z).
Variable LZMA_decompress : list Z -> outcome (list Z).

Definition success : value := VObj [("success", VBool true)].

Definition failure (e : error) : value :=
  VObj [("success", VBool false); ("error", VStr (message e))].

(** The first [saveProfileState(profileName, domain)], lines 551-584. *)
Definition saveProfileState_551 (profileName domain : string) : M value :=
  try_catch
    (if String.eqb profileName "" || String.eqb domain "" then
       throw (Error "Profile name and domain are required")
     else
       let! originalData := collectProfileData domain in
       let! saved := trySaveProfile profileName domain originalData in
       if negb (truthy saved) then throw (Error "Failed to save profile data")
       else
         let! verified := verifySaveSuccess profileName domain originalData in
         if negb verified then throw (Error "Profile save verification failed")
         else ret success)
    (fun error => ret (failure error)).

(** Line 1059: [existingProfiles.some(p => p.name === profileName)]. *)
Fixpoint some_named (profiles : list value) (profileName : string)
  : outcome bool :=
  match profiles with
  | [] => Return false
  | p :: rest =>
      try! name := member p "name" in
      if strict_eq name (VStr profileName) then Return true
      else some_named rest profileName
  end.

(** The second [saveProfileState(profileName, domain)], lines 1026-1079:
    the declaration in force once the script is loaded. The inner [catch]
    logs and rethrows. *)
Definition saveProfileState (profileName domain : string) : M value :=
  try_catch
    (if String.eqb profileName "" || String.eqb domain "" then
       throw (Error "Profile name and domain are required")
     else
       let! originalData := collectProfileData domain in
       let mainDomain := getMainDomain domain in
       let profileKey := profile_key profileName mainDomain in
       let! compressed := lift (Utils.compressData LZMA_compress originalData) in
       (if CHROME_SYNC_QUOTA_BYTES_PER_ITEM <? String.length compressed
        then Utils.saveWithChunks LZMA_compress profileKey originalData false
        else storage_set Local profileKey (VStr compressed)) ;;
       let domainKey := domain_profiles_key mainDomain in
       let! stored := Utils.storageGet LZMA_decompress domainKey false in
       match or_else stored (VArr []) with
       | VArr existingProfiles =>
           let! found := lift (some_named existingProfiles profileName) in
           (if negb found then
              let! now := Date_now in
              Utils.storageSet LZMA_compress domainKey
                (VArr (existingProfiles ++
                       [VObj [("name", VStr profileName); ("timestamp", VNum now)]]))
                false
            else ret tt) ;;
           ret success
       | _ => throw TypeError
       end)
    (fun error => ret (failure error)).

End profile_saving.

End Background.

(** ** What a run leaves in the trace *)

Module Observations.
Import Json Storage.

(** The calls of one fragment, each followed, except the last, by the wait
    of 100 ms times the number of attempts made so far. *)
Fixpoint with_backoff (attempt : nat) (calls : list event) : list event :=
  match calls with
  | [] => []
  | [c] => [c]
  | c :: rest =>
      c :: EvSleep (100 * Z.of_nat attempt) :: with_backoff (S attempt) rest
  end.

(** Every attempt before the last one failed, with an error of any class. *)
Definition all_failed (fs : list fault) : Prop :=
  forall f, f ∈ fs -> exists e, f = Fails e.

Definition area_eqb (a b : area) : bool :=
  match a, b with
  | Sync, Sync | Local, Local => true
  | _, _ => false
  end.


(** The removals from an area that went through. *)
Fixpoint removals (a : area) (evs : list event) : list string :=
  match evs with
  | [] => []
  | EvRemove a' ks NoFault :: rest =>
      if area_eqb a a' then ks ++ removals a rest else removals a rest
  | _ :: rest => removals a rest
  end.

(** A store after a sequence of writes. *)
Definition apply_writes (ws : list (string * value)) (m : gmap string value)
  : gmap string value :=
  foldl (fun m kv => <[kv.1 := kv.2]> m) m ws.

(** The fragments of a record, paired with their keys, from index [i] on. *)
Fixpoint fragment_writes (key_of : nat -> string) (chunks : list string)
  (i : nat) : list (string * value) :=
  match chunks with
  | [] => []
  | chunk :: rest => (key_of i, VStr chunk) :: fragment_writes key_of rest (S i)
  end.

(** What lines 809-813 push on [toRemove] for a record that is too old: its
    key, and, when the entry is chunked, what its [chunkKeys] spreads to. *)
Definition evicted_with (key : string) (v : value) : outcome (list value) :=
  try! isChunked := member v "isChunked" in
  try! chunkKeys := member v "chunkKeys" in
  if truthy isChunked && truthy chunkKeys then
    try! items := spread chunkKeys in
    Return (VStr key :: items)
  else Return [VStr key].

(** The keys of the profiles in a list of entries. *)
Definition profile_keys_of (entries : list (string * value)) : list string :=
  filter (fun k => JsString.startsWith "profile_" k = true) entries.*1.


(** *** The sweep, in the words of the specification

    What the two passes of section 4.5 delete, read on the entries as they
    are stored: a record is an entry under a [profile_] key, its
    [lastAccessed] and [chunkKeys] are the properties of that entry. *)

Definition as_string (x : value) : option string :=
  match x with VStr s => Some s | _ => None end.

Definition is_string (x : value) : bool :=
  match x with VStr _ => true | _ => false end.

(** [lastAccessed] is set and more than thirty days before [now]. *)
Definition too_old (now : Z) (v : value) : bool :=
  match v with
  | VObj fields =>
      match assoc "lastAccessed" fields with
      | VNum t => negb (t =? 0)%Z && (Background.maxAge <? now - t)%Z
      | _ => false
      end
  | _ => false
  end.

Definition is_chunked (v : value) : bool :=
  match v with
  | VObj fields => truthy (assoc "isChunked" fields)
  | _ => false
  end.

Definition chunkKeys_of (v : value) : list string :=
  match v with
  | VObj fields =>
      match assoc "chunkKeys" fields with
      | VArr items => omap as_string items
      | _ => []
      end
  | _ => []
  end.

(** Pass 1: the record under [k] is too old. *)
Definition evicted (storage : gmap string value) (now : Z) (k : string) : bool :=
  JsString.startsWith "profile_" k &&
  match storage !! k with
  | Some v => too_old now v
  | None => false
  end.

(** Pass 1, continued: [k] is a fragment key of a chunked record that is
    too old. *)
Definition evicted_fragment (storage : gmap string value) (now : Z)
  (k : string) : bool :=
  existsb
    (fun pv =>
       JsString.startsWith "profile_" pv.1 && too_old now pv.2 &&
       is_chunked pv.2 && JsString.includes k (chunkKeys_of pv.2))
    (map_to_list storage).

(** Pass 2: [k] is a fragment-shaped key of the store that no record of the
    store, as it was when the sweep began, lists. *)
Definition orphan (storage : gmap string value) (k : string) : bool :=
  JsString.startsWith Background.CHUNK_PREFIX k &&
  bool_decide (is_Some (storage !! k)) &&
  forallb
    (fun pv =>
       negb (JsString.startsWith "profile_" pv.1 &&
             JsString.includes k (chunkKeys_of pv.2)))
    (map_to_list storage).

Definition swept (storage : gmap string value) (now : Z) (k : string) : bool :=
  evicted storage now k || evicted_fragment storage now k || orphan storage k.

(** The entries the sweep reads as the program writes them: under a
    [profile_] key, a value that is not [null], whose [lastAccessed], when
    there is one, is a number, and whose [chunkKeys], when there is one, is
    an array of strings. *)
Definition readable_entry (v : value) : bool :=
  match v with
  | VUndefined | VNull => false
  | VObj fields =>
      match assoc "lastAccessed" fields with
      | VUndefined | VNum _ => true
      | _ => false
      end &&
      match assoc "chunkKeys" fields with
      | VUndefined => true
      | VArr items => forallb is_string items
      | _ => false
      end
  | _ => true
  end.

Definition readable (storage : gmap string value) : bool :=
  forallb
    (fun kv =>
       if JsString.startsWith "profile_" kv.1 then readable_entry kv.2 else true)
    (map_to_list storage).



(** [decompressData(await compressData(data))]. *)
Definition compress_then_decompress
  (compress : list Z -> Z -> outcome (list Z))
  (decompress : list Z -> outcome (list Z)) (data : value) : outcome value :=
  try! compressed := Utils.compressData compress data in
  Utils.decompressData decompress (VStr compressed).

End Observations.

(** ** Worlds used in examples *)

Module Scenarios.
Import Json Storage.

(** A codec that stores the bytes as they are: the simplest lossless one. *)
Definition stored_compress (data : list Z) (level : Z) : outcome (list Z) :=
  Return data.

Definition stored_decompress (data : list Z) : outcome (list Z) := Return data.

(** Three bytes that are no UTF-8 text: 0xFF, 0x00, 0x80. *)
Definition raw_bytes : string :=
  String (ascii_of_nat 255) (String (ascii_of_nat 0) (String (ascii_of_nat 128) EmptyString)).

(** An empty store, no fault to come, at some time of day. *)
Definition empty_world : world := World ∅ ∅ [] 1700000000000 [].

(** The same stores, with another fate for the calls to come: the worker
    was stopped and started again, or the network went away. *)
Definition with_faults (fs : list fault) (w : world) : world :=
  World (sync w) (local w) fs (clock w) (trace w).

Fixpoint repeat_char (c : ascii) (n : nat) : string :=
  match n with
  | O => EmptyString
  | S n' => String c (repeat_char c n')
  end.

(** Two versions of a profile, each too long for one item of the sync area. *)
Definition record_a : value :=
  VObj [("domain", VStr "example.com"); ("note", VStr (repeat_char "a" 9000))].


(** A sync area in which a Metadata entry of background.js lists two
    fragments and only the first is there, and likewise a [_meta] entry of
    utils.js. *)
Definition half_record_world : world :=
  World
    (<["profile_work_example.com" :=
         Background.metadata 2
           ["chunk_profile_work_example.com_0";
            "chunk_profile_work_example.com_1"] 1700000000000]>
       (<["chunk_profile_work_example.com_0" := VStr "12"]>
          (<["profile_work_example.com_meta" :=
               VObj [("chunks", VNum 2); ("timestamp", VNum 1700000000000)]]>
             (<["profile_work_example.com_chunk_0" := VStr "MTI="]> ∅))))
    ∅ [] 1700000000000 [].







(** What [collectProfileData] gathered for a site: one cookie, no page
    storage. *)
Definition collected : value :=
  VObj [("cookies",
         VArr [VObj [("name", VStr "session_id"); ("value", VStr "abc");
                     ("domain", VStr "example.com"); ("path", VStr "/");
                     ("secure", VBool true); ("httpOnly", VBool true)]]);
        ("storage", VObj [("page", VNull)]);
        ("timestamp", VNum 1700000000000);
        ("domain", VStr "example.com");
        ("lastAccessed", VNum 1700000000000)].


(** No event of the trace is a read of [key] in the sync area. *)
Definition never_read (key : string) (evs : list event) : bool :=
  forallb
    (fun ev =>
       match ev with
       | EvGet Sync k _ => negb (String.eqb k key)
       | EvGetAll Sync _ => false
       | _ => true
       end) evs.

(** A store whose first write is refused for lack of quota. *)
Definition quota_world : world :=
  World ∅ ∅ [Fails QuotaExceeded] 0 [].

End Scenarios.


(* ===================================================================== *)
(** * More of the code: definitions *)
(* ===================================================================== *)

From stdpp Require Import sorting.

Local Open Scope js_scope.

(** ** Labels *)

Module Labels.

(** The character [c] occurs in [s]. *)
Fixpoint has_char (c : ascii) (s : string) : bool :=
  match s with
  | EmptyString => false
  | String a s' => Ascii.eqb a c || has_char c s'
  end.

(** [s] ends with [t]. *)
Definition ends_with (s t : string) : Prop := exists pre, s = pre +:+ t.

End Labels.

(** ** Worlds after calls that met no fault *)

Module Runs.
Import Json Storage Observations.

(** The world after the writes [ws] to the area [a], each of which
    succeeded. *)
Definition after_writes (a : area) (ws : list (string * value)) (w : world)
  : world :=
  World (match a with Sync => apply_writes ws (sync w) | Local => sync w end)
        (match a with Sync => local w | Local => apply_writes ws (local w) end)
        (faults w) (clock w)
        (trace w ++ map (fun kv => EvSet a kv.1 kv.2 NoFault) ws).

(** The world after the reads of [keys] in the area [a], each of which
    succeeded. *)
Definition after_reads (a : area) (keys : list string) (w : world) : world :=
  World (sync w) (local w) (faults w) (clock w)
        (trace w ++ map (fun k => EvGet a k NoFault) keys).

(** The Metadata entry of utils.js, lines 164-169. *)
Definition utils_meta (chunks : nat) (now : Z) : value :=
  VObj [("chunks", VNum (Z.of_nat chunks)); ("timestamp", VNum now)].

End Runs.

(** ** More worlds for examples *)

Module Cases.
Import Json Storage.

(** A profile with one cookie whose JSON text does not fit in one item. *)
Definition session_cookie : value :=
  VObj [("name", VStr "session_id"); ("value", VStr "abc");
        ("domain", VStr "example.com"); ("path", VStr "/");
        ("secure", VBool true); ("httpOnly", VBool true)].

Definition large_profile_fields : list (string * value) :=
  [("cookies", VArr [session_cookie]);
   ("storage", VObj [("page", VNull)]);
   ("note", VStr (Scenarios.repeat_char "a" 9000));
   ("lastAccessed", VNum 1700000000000)].

Definition large_profile : value := VObj large_profile_fields.

(** Every storage call of the schedule is refused for want of quota. *)
Definition refusing_world : world :=
  Scenarios.with_faults
    [Fails QuotaExceeded; Fails QuotaExceeded] Scenarios.empty_world.

End Cases.

Module Cases2.
Import Json Storage.


End Cases2.

(** ** src/background.js: sessions *)

Module Sessions.
Import Json Storage.

Definition MAX_SESSIONS : nat := 50.

(** [x.timestamp] of a stored session, when it is a number. *)
Definition timestamp (v : value) : option Z :=
  match v with
  | VObj fields =>
      match assoc "timestamp" fields with
      | VNum t => Some t
      | _ => None
      end
  | _ => None
  end.

Definition timestamp_or_zero (v : value) : Z := default 0%Z (timestamp v).

(** [Object.entries(storage).filter(([key]) => key.startsWith('session_'))]. *)
Definition session_entries (storage : gmap string value)
  : list (string * value) :=
  List.filter (fun kv => JsString.startsWith "session_" kv.1)
    (map_to_list storage).

(** [.sort(([, a], [, b]) => b.timestamp - a.timestamp)] on entries whose
    timestamps are numbers: the comparator is a total preorder, so the
    sorted array is the one stable arrangement, newest first, entries of
    the same timestamp in their order of arrival. [insert] puts an entry
    after the entries that are not older. *)
Fixpoint insert (x : string * value) (sorted : list (string * value))
  : list (string * value) :=
  match sorted with
  | [] => [x]
  | y :: rest =>
      if (timestamp_or_zero y.2 <? timestamp_or_zero x.2)%Z
      then x :: y :: rest
      else y :: insert x rest
  end.

Definition sort_newest_first (entries : list (string * value))
  : list (string * value) :=
  foldl (fun sorted x => insert x sorted) [] entries.

(** [cleanupOldSessions()], lines 121-132. An array of at most one element
    is sorted without a call of the comparator; with two elements or more
    every element is compared, and a timestamp that is not a number is left
    out of the embedding. *)
Definition cleanupOldSessions : M unit :=
  let! storage := storage_get_all Sync in
  let entries := session_entries storage in
  if length entries <=? 1 then ret tt
  else if forallb (fun kv => bool_decide (is_Some (timestamp kv.2))) entries then
    let sessions := sort_newest_first entries in
    if MAX_SESSIONS <? length sessions then
      let toRemove := map fst (drop MAX_SESSIONS sessions) in
      storage_remove Sync toRemove
    else ret tt
  else lift Unmodelled.

End Sessions.

Module Cases3.
Import Json Storage.

(** Fifty-two sessions, saved one millisecond apart, and a profile. *)
Definition crowded_world : world :=
  World
    (<["profile_work_example.com" := Scenarios.collected]>
       (list_to_map
          (map (fun i => ("session_" +:+ pretty (1700000000000 + Z.of_nat i)%Z,
                          VObj [("name", VStr "s");
                                ("timestamp", VNum (1700000000000 + Z.of_nat i))]))
             (seq 0 52))))
    ∅ [] 1700000001000 [].

End Cases3.

(** ** src/background.js: sharing a session *)

Module Sharing.
Import Json Storage.

(** [atob(s)] as a string: one character per byte. *)
Definition atob (s : string) : outcome string :=
  try! codes := Web.atob_charCodes s in
  Return (string_of_list_ascii (map Web.char_of codes)).

(** [reader.readAsDataURL(blob)] for [new Blob([text], {type})]: the blob
    holds the UTF-8 bytes of the text, and the result is a [data:] URL with
    their base64 form. *)
Definition readAsDataURL (type text : string) : string :=
  "data:" +:+ type +:+ ";base64," +:+
  string_of_list_ascii
    (Web.base64_encode (map Z.to_nat (Web.TextEncoder_encode text))).

(** The object of lines 323-327. *)
Definition exportData (now : Z) (session : value) : value :=
  VObj [("version", VStr "1.0"); ("timestamp", VNum now); ("session", session)].

(** [exportSession(sessionKey)], lines 317-338; [reader.result.split(',')[1]]
    is [undefined] when the URL has no comma. *)
Definition exportSession (sessionKey : string) : M value :=
  let! session := storage_get Sync sessionKey in
  if truthy session then
    let! now := Date_now in
    match JSON.stringify (exportData now session) with
    | Some text =>
        let result := readAsDataURL "application/json" text in
        ret (default VUndefined (VStr <$> (JsString.split "," result !! 1)))
    | None => throw TypeError
    end
  else ret VNull.

(** [importSession(encodedData)], lines 341-355. The function returns
    [undefined] when the test of line 346 fails. *)
Definition importSession (encodedData : value) : M value :=
  try_catch
    (let! jsonStr := lift (atob (to_string encodedData)) in
     let! importData := lift (JSON.parse jsonStr) in
     let! version := lift (member importData "version") in
     let! session := lift (member importData "session") in
     if strict_eq version (VStr "1.0") && truthy session then
       let! now := Date_now in
       let key := "session_" +:+ pretty now in
       storage_set Sync key session ;;
       ret (VStr key)
     else ret VUndefined)
    (fun error => ret VNull).

(** Every character of the text is below 128. *)
Fixpoint is_ascii_text (s : string) : bool :=
  match s with
  | EmptyString => true
  | String c s' => (nat_of_ascii c <? 128) && is_ascii_text s'
  end.

End Sharing.

Module Cases4.
Import Json Storage.

(** A saved session of one window with one tab. *)
Definition session_with_title (title : string) : value :=
  VObj [("name", VStr "work"); ("timestamp", VNum 1700000000000);
        ("windows",
         VArr [VObj [("tabs",
                      VArr [VObj [("url", VStr "https://example.com/");
                                  ("title", VStr title)]]);
                     ("groups", VArr [])]])].

(** [Caf] followed by U+00E9. *)
Definition cafe : string := "Caf" +:+ String (ascii_of_nat 233) EmptyString.

(** A sync area with two sessions, the title of the second of which is not
    ASCII. *)
Definition shared_world : world :=
  World (<["session_1" := session_with_title "Example"]>
           (<["session_2" := session_with_title cafe]> ∅))
        ∅ [] 1700000005000 [].

End Cases4.

(** ** What a computation leaves as it was *)

Module Frame.
Import Json Storage.

(** The run of [m] keeps the property [P] of the world. *)
Definition preserves {A} (P : world -> Prop) (m : M A) : Prop :=
  forall w, P w -> P (snd (m w)).

(** The entry of [k] in the area [a] is [v] (or there is none). *)
Definition holds (a : area) (k : string) (v : option value) (w : world) : Prop :=
  store_of a w !! k = v.

(** No storage call to come fails. *)
Definition calm (w : world) : Prop := faults w = [].

End Frame.

(** ** src/popup.js (the script at the end of popup.html) *)

Module Popup.
Import Json Storage.

(** [profiles.sort((a, b) => b.timestamp - a.timestamp)], line 595 of
    popup.html, on an array whose elements have numeric timestamps: newest
    first, elements of the same timestamp in their order. *)
Fixpoint insert (x : value) (sorted : list value) : list value :=
  match sorted with
  | [] => [x]
  | y :: rest =>
      if (Sessions.timestamp_or_zero y <? Sessions.timestamp_or_zero x)%Z
      then x :: y :: rest
      else y :: insert x rest
  end.

(** Only an array has [sort]; an array of at most one element is returned
    without a call of the comparator. *)
Definition sort_newest_first (profiles : value) : outcome value :=
  match profiles with
  | VArr items =>
      if length items <=? 1 then Return profiles
      else if forallb (fun x => bool_decide (is_Some (Sessions.timestamp x))) items
      then Return (VArr (foldl (fun sorted x => insert x sorted) [] items))
      else Unmodelled
  | VUndefined | VNull => Throw TypeError
  | _ => Throw TypeError
  end.

(** [loadDomainProfiles(domain)], lines 584-600 of popup.html. *)
Definition loadDomainProfiles
  (LZMA_decompress : list Z -> outcome (list Z)) (domain : string) : M value :=
  try_catch
    (let key := "profiles_" +:+ domain in
     let! profiles := Utils.loadFromChunks LZMA_decompress key false in
     let! profiles :=
       (if negb (truthy profiles) then
          let! stored := Utils.storageGet LZMA_decompress key false in
          ret (or_else stored (VArr []))
        else ret profiles) in
     lift (sort_newest_first profiles))
    (fun error => ret (VArr [])).

End Popup.
(* ===================================================================== *)
(** * Properties *)
(* ===================================================================== *)

(** ** Strings *)

Section string_facts.
Import JsString.
Local Abbreviation substring := String.substring.

Lemma str_app_cons a s t : String a s +:+ t = String a (s +:+ t).
Proof. reflexivity. Qed.

Lemma str_app_nil_r s : s +:+ "" = s.
Proof. induction s as [|a s IH]; [done|]. by rewrite str_app_cons, IH. Qed.

Lemma str_app_length s t :
  String.length (s +:+ t) = String.length s + String.length t.
Proof. induction s as [|a s IH]; [done|]. rewrite str_app_cons. simpl. by rewrite IH. Qed.

Lemma substring_zero_len s i : substring i 0 s = "".
Proof. revert i; induction s as [|a s IH]; intros [|i]; simpl; auto. Qed.

Lemma substring_whole s : substring 0 (String.length s) s = s.
Proof. induction s as [|a s IH]; simpl; [done | by rewrite IH]. Qed.

Lemma substring_length s i n :
  String.length (substring i n s) = Nat.min n (String.length s - i).
Proof.
  revert i n; induction s as [|a s IH]; intros i n; simpl.
  - destruct i, n; simpl; lia.
  - destruct i as [|i]; simpl.
    + destruct n as [|n]; simpl; [done|]. rewrite IH. lia.
    + rewrite IH. lia.
Qed.

Lemma substring_split s i n m :
  substring i n s +:+ substring (i + n) m s = substring i (n + m) s.
Proof.
  revert i n; induction s as [|a s IH]; intros i n; simpl.
  - destruct i, n; simpl; try done; by destruct m.
  - destruct i as [|i]; simpl.
    + destruct n as [|n]; simpl; [done|]. rewrite str_app_cons. f_equal. apply (IH 0).
    + apply IH.
Qed.

Lemma substring_clip s i n :
  String.length s - i <= n -> substring i n s = substring i (String.length s - i) s.
Proof.
  revert i n; induction s as [|a s IH]; intros i n Hn; simpl in *.
  - by destruct i, n.
  - destruct i as [|i]; simpl.
    + destruct n as [|n]; [lia|]. f_equal.
      rewrite (IH 0 n) by lia. by rewrite Nat.sub_0_r.
    + apply IH; lia.
Qed.

End string_facts.

(** ** The chunk codec *)

Section chunk_codec.
Import JsString ChunkCodec.
Local Abbreviation substring := String.substring.

Lemma join_cons c chunks : join (c :: chunks) = c +:+ join chunks.
Proof.
  unfold join, JsString.join. destruct chunks as [|d chunks]; simpl.
  - by rewrite str_app_nil_r.
  - done.
Qed.

(** The loop started at offset [i] with enough fuel returns the fragments
    of the text from [i] on. *)
Lemma split_loop_spec fuel s n i :
  0 < n -> String.length s - i <= fuel ->
  exists chunks,
    split_loop fuel s n i = Some chunks /\
    join chunks = substring i (String.length s - i) s /\
    full_but_last n chunks /\
    (forall c, c ∈ chunks -> 1 <= String.length c <= n) /\
    length chunks = (String.length s - i + n - 1) / n.
Proof.
  intros Hn. revert i.
  induction fuel as [|fuel IH]; intros i Hfuel; simpl;
    destruct (Nat.ltb_spec i (String.length s)) as [Hlt|Hge]; try lia.
  - exists []. replace (String.length s - i) with 0 by lia.
    split_and!; try done.
    + by rewrite substring_zero_len.
    + intros c Hc. by apply elem_of_nil in Hc.
    + simpl. symmetry. apply Nat.div_small. lia.
  - destruct (IH (i + n)) as (chunks & -> & Hjoin & Hfull & Hne & Hlen); [lia|].
    eexists. split; [done|].
    assert (Hsl : String.length (slice s i (i + n)) = Nat.min n (String.length s - i)).
    { unfold slice. rewrite substring_length. f_equal; lia. }
    split_and!.
    + rewrite join_cons, Hjoin. unfold slice.
      replace (i + n - i) with n by lia.
      destruct (Nat.le_gt_cases (String.length s) (i + n)) as [Hend|Hmore].
      * replace (String.length s - (i + n)) with 0 by lia.
        rewrite substring_zero_len.
        rewrite (substring_clip s i n) by lia.
        by rewrite str_app_nil_r.
      * rewrite substring_split. f_equal. lia.
    + intros [|j] c Hj Hc; simpl in *.
      * injection Hc as <-. rewrite Hsl.
        destruct chunks as [|d chunks]; [simpl in Hj; lia|].
        assert (0 < (String.length s - (i + n) + n - 1) / n) as Hpos
          by (rewrite <- Hlen; simpl; lia).
        destruct (Nat.lt_ge_cases (String.length s - (i + n) + n - 1) n) as [Hsm|Hbig];
          [rewrite Nat.div_small in Hpos by done; lia | lia].
      * apply (Hfull j c); [lia | done].
    + intros c [-> | Hin]%elem_of_cons; [rewrite Hsl; lia | by apply Hne].
    + simpl. rewrite Hlen.
      destruct (Nat.le_gt_cases (String.length s) (i + n)) as [Hend|Hmore].
      * rewrite Nat.div_small by lia.
        apply (Nat.div_unique _ n 1 (String.length s - i - 1)); lia.
      * replace (String.length s - i + n - 1)
          with (String.length s - (i + n) + n - 1 + 1 * n) by lia.
        rewrite Nat.div_add by lia. lia.
  - exists []. replace (String.length s - i) with 0 by lia.
    split_and!; try done.
    + by rewrite substring_zero_len.
    + intros c Hc. by apply elem_of_nil in Hc.
    + simpl. symmetry. apply Nat.div_small. lia.
Qed.

(** Fuel beyond [s.length] changes nothing. *)
Lemma split_loop_fuel fuel s n :
  0 < n -> String.length s <= fuel -> split_loop fuel s n 0 = split s n.
Proof.
  intros Hn Hfuel. unfold split.
  assert (Hmono : forall f1 f2 i chunks, f1 <= f2 ->
    split_loop f1 s n i = Some chunks -> split_loop f2 s n i = Some chunks).
  { induction f1 as [|f1 IH]; intros f2 i chunks Hle; simpl;
      destruct (Nat.ltb_spec i (String.length s)) as [Hlt|Hge]; try done.
    - intros [= <-]. destruct f2; simpl;
        by destruct (Nat.ltb_spec i (String.length s)); try lia.
    - destruct f2 as [|f2]; [lia|]. simpl.
      destruct (Nat.ltb_spec i (String.length s)); [|lia].
      destruct (split_loop f1 s n (i + n)) as [cs|] eqn:E; [|done].
      intros [= <-]. by rewrite (IH f2 (i + n) cs) by (done || lia).
    - intros [= <-]. destruct f2; simpl;
        by destruct (Nat.ltb_spec i (String.length s)); try lia. }
  destruct (split_loop_spec (String.length s) s n 0) as (chunks & E & _); [done|lia|].
  rewrite E. by apply (Hmono (String.length s)).
Qed.



End chunk_codec.

(** ** The two [getMainDomain] *)

Section main_domain.
Import JsString.

Example getMainDomain_subdomain :
  Utils.getMainDomain "mail.google.com" = "google.com" /\
  Background.getMainDomain "mail.google.com" = "google.com".
Proof. split; reflexivity. Qed.

Example getMainDomain_co_uk :
  Utils.getMainDomain "www.bbc.co.uk" = "bbc.co.uk" /\
  Background.getMainDomain "www.bbc.co.uk" = "bbc.co.uk".
Proof. split; reflexivity. Qed.

Lemma join_dot_cons x p rest :
  JsString.join "." (x :: p :: rest) = x +:+ "." +:+ JsString.join "." (p :: rest).
Proof. reflexivity. Qed.

(** Where the two functions agree: everywhere but on the names of three
    labels or more that end in [co.in]. *)
Lemma getMainDomain_agree domain :
  JsString.join "." (slice_last 2 (split "." domain)) <> "co.in" ->
  Utils.getMainDomain domain = Background.getMainDomain domain.
Proof.
  intros Hne. unfold Utils.getMainDomain, Background.getMainDomain.
  destruct (length (split "." domain) <=? 2); [done|].
  set (lastTwo := JsString.join "." (slice_last 2 (split "." domain))) in *.
  unfold includes. simpl.
  destruct (String.eqb_spec lastTwo "co.in") as [E|_]; [done|].
  by rewrite !orb_false_r.
Qed.

Lemma getMainDomain_disagree domain :
  2 < length (split "." domain) ->
  JsString.join "." (slice_last 2 (split "." domain)) = "co.in" ->
  Utils.getMainDomain domain <> Background.getMainDomain domain.
Proof.
  intros Hlen Hco. unfold Utils.getMainDomain, Background.getMainDomain.
  destruct (Nat.leb_spec (length (split "." domain)) 2) as [?|_]; [lia|].
  rewrite Hco. simpl.
  set (parts := split "." domain) in *.
  assert (exists x, slice_last 3 parts = x :: slice_last 2 parts) as [x Hx].
  { unfold slice_last.
    destruct (drop (length parts - 3) parts) as [|x rest] eqn:E.
    - apply (f_equal length) in E. rewrite length_drop in E. simpl in E. lia.
    - exists x. f_equal.
      replace (length parts - 2) with (S (length parts - 3)) by lia.
      by rewrite <- Nat.add_1_r, <- drop_drop, E. }
  rewrite Hx.
  destruct (slice_last 2 parts) as [|p rest] eqn:E2; [done|].
  rewrite join_dot_cons, Hco. intros Heq.
  apply (f_equal String.length) in Heq. rewrite !str_app_length in Heq.
  simpl in Heq. lia.
Qed.

(** C10. The two [getMainDomain] are not the same function: the table of
    two-label suffixes of utils.js has [co.in], that of background.js has
    not, so on a name such as [shop.example.co.in] utils.js keeps three
    labels where background.js keeps two. *)
Theorem getMainDomain_co_in_diverges :
  Utils.getMainDomain "shop.example.co.in" = "example.co.in" /\
  Background.getMainDomain "shop.example.co.in" = "co.in" /\
  Background.profile_key "work" (Utils.getMainDomain "shop.example.co.in")
    <> Background.profile_key "work" (Background.getMainDomain "shop.example.co.in").
Proof. split_and!; [reflexivity | reflexivity | discriminate]. Qed.

End main_domain.

(** ** Retries of one fragment write and of one fragment read *)

Section retries.
Import Json Storage Utils Observations Scenarios.

Ltac run_retries :=
  repeat (simpl in *; unfold try_catch, bind, storage_set, storage_get, sleep,
            throw, ret, lift, next_fault, log in *; simpl in *).

Ltac finish_retries :=
  run_retries;
  match goal with storage : area |- _ => destruct storage end;
  simpl; rewrite <- ?app_assoc; simpl; split_and!; try done; try lia.

Lemma set_with_retries_policy storage k v w :
  exists (fs : list fault) (last : fault),
    1 <= length (fs ++ [last]) <= 3 /\
    all_failed fs /\
    trace (snd (set_with_retries maxRetries storage k v 0 w))
      = trace w ++ with_backoff 1 (map (EvSet storage k v) (fs ++ [last])) /\
    fst (set_with_retries maxRetries storage k v 0 w)
      = match last with
        | NoFault => Return ()
        | Crash => Halt
        | Fails e => Throw (StorageError e)
        end /\
    (forall e, last = Fails e -> length fs = 2).
Proof.
  destruct w as [sy lo fs c tr].
  assert (Hnil : all_failed []) by (intros f Hf; by apply elem_of_nil in Hf).
  assert (H1 : forall e, all_failed [Fails e]).
  { intros e f Hf. apply list_elem_of_singleton in Hf. eauto. }
  assert (H2 : forall e e', all_failed [Fails e; Fails e']).
  { intros e e' f Hf. apply elem_of_cons in Hf as [-> |Hf]; [eauto|].
    apply list_elem_of_singleton in Hf. eauto. }
  destruct fs as [|[|e1|] fs1].
  - exists [], NoFault. finish_retries.
  - exists [], NoFault. finish_retries.
  - destruct fs1 as [|[|e2|] fs2].
    + exists [Fails e1], NoFault. finish_retries.
    + exists [Fails e1], NoFault. finish_retries.
    + destruct fs2 as [|[|e3|] fs3].
      * exists [Fails e1; Fails e2], NoFault. finish_retries.
      * exists [Fails e1; Fails e2], NoFault. finish_retries.
      * exists [Fails e1; Fails e2], (Fails e3). finish_retries.
      * exists [Fails e1; Fails e2], Crash. finish_retries.
    + exists [Fails e1], Crash. finish_retries.
  - exists [], Crash. finish_retries.
Qed.

Lemma get_with_retries_policy storage k w :
  exists (fs : list fault) (last : fault),
    1 <= length (fs ++ [last]) <= 3 /\
    all_failed fs /\
    trace (snd (get_with_retries maxRetries storage k 0 w))
      = trace w ++ with_backoff 1 (map (EvGet storage k) (fs ++ [last])) /\
    fst (get_with_retries maxRetries storage k 0 w)
      = match last with
        | NoFault => Return (default VUndefined (store_of storage w !! k))
        | Crash => Halt
        | Fails e => Throw (StorageError e)
        end /\
    (forall e, last = Fails e -> length fs = 2).
Proof.
  destruct w as [sy lo fs c tr].
  assert (Hnil : all_failed []) by (intros f Hf; by apply elem_of_nil in Hf).
  assert (H1 : forall e, all_failed [Fails e]).
  { intros e f Hf. apply list_elem_of_singleton in Hf. eauto. }
  assert (H2 : forall e e', all_failed [Fails e; Fails e']).
  { intros e e' f Hf. apply elem_of_cons in Hf as [-> |Hf]; [eauto|].
    apply list_elem_of_singleton in Hf. eauto. }
  destruct fs as [|[|e1|] fs1].
  - exists [], NoFault. finish_retries.
  - exists [], NoFault. finish_retries.
  - destruct fs1 as [|[|e2|] fs2].
    + exists [Fails e1], NoFault. finish_retries.
    + exists [Fails e1], NoFault. finish_retries.
    + destruct fs2 as [|[|e3|] fs3].
      * exists [Fails e1; Fails e2], NoFault. finish_retries.
      * exists [Fails e1; Fails e2], NoFault. finish_retries.
      * exists [Fails e1; Fails e2], (Fails e3). finish_retries.
      * exists [Fails e1; Fails e2], Crash. finish_retries.
    + exists [Fails e1], Crash. finish_retries.
  - exists [], Crash. finish_retries.
Qed.

(** C7, as the code has it. In utils.js each fragment write and each
    fragment read is attempted at least once and at most three times; the
    attempt number [j] that fails is followed, when [j < 3], by a wait of
    [100 * j] ms and by a new attempt, whatever the class of the failure
    (QuotaExceeded included); the third failure is rethrown. *)
Theorem fragment_retry_policy (storage : area) (k : string) (v : value) (w : world) :
  (exists (fs : list fault) (last : fault),
     1 <= length (fs ++ [last]) <= 3 /\
     all_failed fs /\
     trace (snd (set_with_retries maxRetries storage k v 0 w))
       = trace w ++ with_backoff 1 (map (EvSet storage k v) (fs ++ [last])) /\
     fst (set_with_retries maxRetries storage k v 0 w)
       = match last with
         | NoFault => Return ()
         | Crash => Halt
         | Fails e => Throw (StorageError e)
         end /\
     (forall e, last = Fails e -> length fs = 2)) /\
  (exists (fs : list fault) (last : fault),
     1 <= length (fs ++ [last]) <= 3 /\
     all_failed fs /\
     trace (snd (get_with_retries maxRetries storage k 0 w))
       = trace w ++ with_backoff 1 (map (EvGet storage k) (fs ++ [last])) /\
     fst (get_with_retries maxRetries storage k 0 w)
       = match last with
         | NoFault => Return (default VUndefined (store_of storage w !! k))
         | Crash => Halt
         | Fails e => Throw (StorageError e)
         end /\
     (forall e, last = Fails e -> length fs = 2)).
Proof.
  split; [apply set_with_retries_policy | apply get_with_retries_policy].
Qed.

(** C7 as stated fails: a fragment write refused with QuotaExceeded is
    attempted again, unchanged, 100 ms later. *)
Lemma quota_exceeded_write_is_retried :
  trace (snd (saveWithChunks stored_compress
                "profile_work_example.com" VNull false quota_world))
  = [EvSet Sync "profile_work_example.com_chunk_0" (VStr "bnVsbA==")
       (Fails QuotaExceeded);
     EvSleep 100;
     EvSet Sync "profile_work_example.com_chunk_0" (VStr "bnVsbA==") NoFault;
     EvSet Sync "profile_work_example.com_meta"
       (VObj [("chunks", VNum 1); ("timestamp", VNum 100)]) NoFault].
Proof. vm_compute. reflexivity. Qed.

End retries.

(** ** Runs of the storage calls *)

Section storage_runs.
Import Json Storage Observations.


Lemma apply_writes_app ws1 ws2 m :
  apply_writes (ws1 ++ ws2) m = apply_writes ws2 (apply_writes ws1 m).
Proof. unfold apply_writes. by rewrite foldl_app. Qed.

Lemma apply_writes_lookup_ne ws m k :
  k ∉ ws.*1 -> apply_writes ws m !! k = m !! k.
Proof.
  revert m. induction ws as [|[k' v] ws IH]; intros m Hk; simpl; [done|].
  rewrite fmap_cons, not_elem_of_cons in Hk. destruct Hk as [Hne Hk].
  rewrite IH by done. simpl. by rewrite lookup_insert_ne.
Qed.

Lemma apply_writes_snoc ws k v m :
  apply_writes (ws ++ [(k, v)]) m !! k = Some v.
Proof. rewrite apply_writes_app. simpl. by rewrite lookup_insert_eq. Qed.

(** A successful write, a refused one, and a stopped one. *)
Lemma storage_set_run a k v w :
  exists f,
    trace (snd (storage_set a k v w)) = trace w ++ [EvSet a k v f] /\
    faults (snd (storage_set a k v w)) = tail (faults w) /\
    clock (snd (storage_set a k v w)) = clock w /\
    f = hd NoFault (faults w) /\
    match f with
    | NoFault =>
        fst (storage_set a k v w) = Return () /\
        store_of a (snd (storage_set a k v w)) = <[k := v]> (store_of a w) /\
        (forall b, b <> a ->
           store_of b (snd (storage_set a k v w)) = store_of b w)
    | Fails e =>
        fst (storage_set a k v w) = Throw (StorageError e) /\
        (forall b, store_of b (snd (storage_set a k v w)) = store_of b w)
    | Crash =>
        fst (storage_set a k v w) = Halt /\
        (forall b, store_of b (snd (storage_set a k v w)) = store_of b w)
    end.
Proof.
  destruct w as [sy lo [|[|e|] fs] c tr], a; unfold storage_set; simpl;
    eexists; do 4 (split; [reflexivity|]); simpl;
    repeat split; intros []; done.
Qed.

End storage_runs.

(** ** [saveWithChunking] and [getChunkedData] (background.js) *)

Section background_chunks.
Import Json Storage Observations Background.

Lemma chunk_key_length key i :
  String.length key < String.length (chunk_key key i).
Proof. unfold chunk_key, CHUNK_PREFIX. rewrite !str_app_length. simpl. lia. Qed.

Lemma chunk_key_ne_key key i : chunk_key key i <> key.
Proof.
  intros E. pose proof (chunk_key_length key i) as H. rewrite E in H. lia.
Qed.

Lemma chunk_key_inj key i j : chunk_key key i = chunk_key key j -> i = j.
Proof.
  unfold chunk_key, JsString.of_nat. intros E.
  do 3 apply String.app_inj in E. by apply pretty_nat_inj in E.
Qed.

Lemma fragment_writes_keys key_of chunks i :
  (fragment_writes key_of chunks i).*1 = map key_of (seq i (length chunks)).
Proof.
  revert i. induction chunks as [|c chunks IH]; intros i; simpl; [done|].
  by rewrite IH.
Qed.








Lemma storage_get_run a k w :
  hd NoFault (faults w) = NoFault ->
  storage_get a k w
  = (Return (default VUndefined (store_of a w !! k)),
     World (sync w) (local w) (tail (faults w)) (clock w)
       (trace w ++ [EvGet a k NoFault])).
Proof.
  destruct w as [sy lo [|f fs] c tr]; simpl; intros Hf; unfold storage_get; simpl.
  - by destruct a.
  - subst f. by destruct a.
Qed.


End background_chunks.

(** ** [saveWithChunks] and [loadFromChunks] (utils.js) *)

Section utils_chunks.
Import Json Storage Observations Utils.

Lemma utils_chunk_key_ne_meta key i : chunk_key key i <> meta_key key.
Proof.
  unfold chunk_key, meta_key. intros E. apply String.app_inj in E. discriminate.
Qed.

Lemma utils_chunk_key_inj key i j : chunk_key key i = chunk_key key j -> i = j.
Proof.
  unfold chunk_key, JsString.of_nat. intros E.
  do 2 apply String.app_inj in E. by apply pretty_nat_inj in E.
Qed.




Lemma save_chunks_cons storage key c chunks i :
  save_chunks storage key (c :: chunks) i
  = bind (set_with_retries maxRetries storage (chunk_key key i) (VStr c) 0)
      (fun _ => save_chunks storage key chunks (S i)).
Proof. reflexivity. Qed.





End utils_chunks.

(** ** Metadata-last commit *)

Section commit_point.
Import Json Storage Observations Scenarios Background.

Example record_a_needs_two_fragments :
  option_map (fun s => CHROME_SYNC_QUOTA_BYTES_PER_ITEM <? String.length s)
    (JSON.stringify record_a) = Some true /\
  option_map length
    (JSON.stringify record_a ≫= fun s => ChunkCodec.split s CHUNK_SIZE) = Some 2.
Proof. split; vm_compute; reflexivity. Qed.




End commit_point.

(** ** Fragment keys across successive saves *)

Section fragment_keys.
Import Json Storage Observations Scenarios.

Section indexed_keys.
Variable key_of : nat -> string.
Hypothesis key_of_inj : forall i j, key_of i = key_of j -> i = j.

Lemma fragment_key_fresh chunks i j :
  j < i -> key_of j ∉ (fragment_writes key_of chunks i).*1.
Proof.
  intros Hlt Hin. rewrite fragment_writes_keys in Hin.
  apply list_elem_of_fmap in Hin as (k & Hk & Hin).
  apply key_of_inj in Hk. subst k. apply elem_of_seq in Hin. lia.
Qed.


(** After the fragments are written, each is under the key of its index. *)
Lemma fragment_writes_lookup chunks i n c m :
  chunks !! n = Some c ->
  apply_writes (fragment_writes key_of chunks i) m !! key_of (i + n)
  = Some (VStr c).
Proof.
  revert i n m. induction chunks as [|c0 chunks IH]; intros i n m Hn;
    [by rewrite lookup_nil in Hn|].
  destruct n as [|n]; simpl in *.
  - injection Hn as ->. rewrite Nat.add_0_r.
    change (apply_writes (fragment_writes key_of chunks (S i))
              (<[key_of i := VStr c]> m) !! key_of i = Some (VStr c)).
    rewrite apply_writes_lookup_ne by (apply fragment_key_fresh; lia).
    by rewrite lookup_insert_eq.
  - change (apply_writes (fragment_writes key_of chunks (S i))
              (<[key_of i := VStr c0]> m) !! key_of (i + S n) = Some (VStr c)).
    replace (i + S n) with (S i + n) by lia. by apply IH.
Qed.

End indexed_keys.

(** A save that meets no fault returns, having written every fragment and
    then the Metadata. *)
Lemma save_chunks_fault_free chunks key i acc w :
  faults w = [] ->
  Background.save_chunks key chunks i acc w
  = (Return (acc ++ map (Background.chunk_key key) (seq i (length chunks))),
     World (apply_writes (fragment_writes (Background.chunk_key key) chunks i) (sync w))
       (local w) [] (clock w)
       (trace w ++ map (fun kv => EvSet Sync kv.1 kv.2 NoFault)
                     (fragment_writes (Background.chunk_key key) chunks i))).
Proof.
  revert i acc w. induction chunks as [|c chunks IH]; intros i acc [sy lo fs cl tr] Hf;
    simpl in Hf; subst fs; simpl.
  - by rewrite !app_nil_r.
  - unfold bind, storage_set. simpl. rewrite IH by done. simpl.
    by rewrite <- !app_assoc.
Qed.

Lemma saveWithChunking_fault_free key data stringified chunks w :
  faults w = [] ->
  JSON.stringify data = Some stringified ->
  ChunkCodec.split stringified Background.CHUNK_SIZE = Some chunks ->
  Background.saveWithChunking key data w
  = (Return (VBool true),
     World
       (<[key := Background.metadata (length chunks)
                   (map (Background.chunk_key key) (seq 0 (length chunks)))
                   (clock w)]>
          (apply_writes (fragment_writes (Background.chunk_key key) chunks 0)
             (sync w)))
       (local w) [] (clock w)
       (trace w ++
        map (fun kv => EvSet Sync kv.1 kv.2 NoFault)
          (fragment_writes (Background.chunk_key key) chunks 0 ++
           [(key, Background.metadata (length chunks)
                    (map (Background.chunk_key key) (seq 0 (length chunks)))
                    (clock w))]))).
Proof.
  intros Hf Hs Hc. unfold Background.saveWithChunking. rewrite Hs, Hc.
  unfold bind at 1. rewrite save_chunks_fault_free by done.
  unfold bind, Date_now, ret, storage_set. simpl.
  by rewrite map_app, <- app_assoc.
Qed.




End fragment_keys.

(** ** Loading a record whose fragments are not all there *)

Section missing_fragments.
Import Json Storage Observations Scenarios.

Lemma concat_empty_sep_cons s l :
  String.concat "" (s :: l) = s +:+ String.concat "" l.
Proof. destruct l; simpl; [by rewrite str_app_nil_r | done]. Qed.

(** In [chunks.join('')] an absent fragment counts for nothing. *)
Lemma join_present (lookup : string -> option value) keys :
  Json.join "" (map (fun k => default VUndefined (lookup k)) keys)
  = String.concat "" (join_item <$> omap lookup keys).
Proof.
  unfold Json.join. induction keys as [|k keys IH]; [done|].
  change (String.concat ""
            (join_item (default VUndefined (lookup k))
             :: map join_item (map (fun k => default VUndefined (lookup k)) keys))
          = String.concat "" (join_item <$> omap lookup (k :: keys))).
  rewrite concat_empty_sep_cons, IH. cbn [omap list_omap].
  destruct (lookup k) as [v|]; [|reflexivity].
  rewrite fmap_cons. by rewrite concat_empty_sep_cons.
Qed.

Lemma read_chunks_fault_free keys w :
  faults w = [] ->
  fst (Background.read_chunks (map VStr keys) w)
  = Return (map (fun k => default VUndefined (sync w !! k)) keys).
Proof.
  revert w. induction keys as [|k keys IH]; intros w Hf; [done|].
  simpl. unfold bind at 1. rewrite storage_get_run by (by rewrite Hf).
  unfold bind at 1.
  specialize (IH (World (sync w) (local w) (tail (faults w)) (clock w)
                    (trace w ++ [EvGet Sync k NoFault]))).
  destruct (Background.read_chunks (map VStr keys) _) as [r w'].
  simpl in IH. rewrite IH by (by rewrite Hf). done.
Qed.

Lemma getChunkedData_fault_free key fields keys w :
  truthy (assoc "isChunked" fields) = true ->
  assoc "chunkKeys" fields = VArr (map VStr keys) ->
  faults w = [] ->
  fst (Background.getChunkedData key (VObj fields) w)
  = JSON.parse (String.concat "" (join_item <$> omap (fun k => sync w !! k) keys)).
Proof.
  intros Hc Hk Hf. unfold Background.getChunkedData. simpl.
  unfold bind at 1, lift at 1. rewrite Hc. simpl.
  unfold bind at 1, lift at 1. rewrite Hk.
  unfold bind.
  pose proof (read_chunks_fault_free keys w Hf) as Hr.
  destruct (Background.read_chunks (map VStr keys) w) as [r w'].
  simpl in Hr. subst r. unfold lift. simpl.
  by rewrite (join_present (fun k => sync w !! k)).
Qed.

Lemma get_with_retries_fault_free storage k w :
  faults w = [] ->
  Utils.get_with_retries Utils.maxRetries storage k 0 w
  = (Return (default VUndefined (store_of storage w !! k)),
     World (sync w) (local w) [] (clock w) (trace w ++ [EvGet storage k NoFault])).
Proof.
  destruct w as [sy lo fs c tr]. simpl. intros ->.
  unfold try_catch, storage_get. simpl. by destruct storage.
Qed.

Lemma load_chunks_fault_free storage key n i w :
  faults w = [] ->
  fst (Utils.load_chunks storage key n i w)
  = Return (map (fun k => default VUndefined (store_of storage w !! k))
              (map (Utils.chunk_key key) (seq i n))).
Proof.
  revert i w. induction n as [|n IH]; intros i w Hf; [done|].
  cbn [Utils.load_chunks]. unfold bind at 1.
  rewrite get_with_retries_fault_free by done.
  unfold bind at 1.
  specialize (IH (S i) (World (sync w) (local w) [] (clock w)
                    (trace w ++ [EvGet storage (Utils.chunk_key key i) NoFault]))).
  destruct (Utils.load_chunks storage key n (S i) _) as [r w'].
  cbn [fst] in IH. rewrite IH by done.
  by destruct storage.
Qed.

Lemma loadFromChunks_fault_free LZMA_decompress key useLocal fields n w :
  faults w = [] ->
  store_of (Utils.storage_area useLocal) w !! Utils.meta_key key = Some (VObj fields) ->
  assoc "chunks" fields = VNum (Z.of_nat n) ->
  fst (Utils.loadFromChunks LZMA_decompress key useLocal w)
  = Utils.decompressData LZMA_decompress
      (VStr (String.concat ""
         (join_item <$> omap (fun k => store_of (Utils.storage_area useLocal) w !! k)
                          (map (Utils.chunk_key key) (seq 0 n))))).
Proof.
  intros Hf Hm Hn. unfold Utils.loadFromChunks.
  unfold bind at 1. rewrite storage_get_run by (by rewrite Hf).
  rewrite Hm. cbn [default from_option id truthy negb member].
  unfold bind at 1, lift at 1. rewrite Hn.
  unfold bind at 1, lift at 1. cbn [to_number]. rewrite Nat2Z.id.
  unfold bind.
  set (w1 := World _ _ _ _ _).
  pose proof (load_chunks_fault_free (Utils.storage_area useLocal) key n 0 w1) as Hr.
  destruct (Utils.load_chunks (Utils.storage_area useLocal) key n 0 w1) as [r w'].
  cbn [fst] in Hr. rewrite Hr by (subst w1; simpl; by rewrite Hf).
  unfold lift. cbn [fst].
  rewrite (join_present (fun k => store_of (Utils.storage_area useLocal) w1 !! k)).
  by destruct useLocal.
Qed.




End missing_fragments.

(** ** The retention sweep *)

Section retention_sweep.
Import Json Storage Observations Scenarios Background.

Lemma includes_elem_of x l : JsString.includes x l = true <-> x ∈ l.
Proof.
  unfold JsString.includes. rewrite existsb_exists. split.
  - intros (y & Hy & Heq). apply String.eqb_eq in Heq. subst y.
    by apply list_elem_of_In.
  - intros Hx. exists x. split; [by apply list_elem_of_In | apply String.eqb_refl].
Qed.

Lemma set_add_elem_of k key keys : k ∈ set_add key keys <-> k = key \/ k ∈ keys.
Proof.
  unfold set_add. destruct (JsString.includes key keys) eqn:E.
  - apply includes_elem_of in E. split; [auto | intros [-> |?]; done].
  - rewrite elem_of_app, list_elem_of_singleton. tauto.
Qed.

(** One entry of the first loop. *)
Lemma first_pass_step_inv now toRemove profileKeys key v toRemove' profileKeys' :
  first_pass_step now (toRemove, profileKeys) (key, v)
    = Return (toRemove', profileKeys') ->
  if JsString.startsWith "profile_" key then
    profileKeys' = set_add key profileKeys /\
    exists old, is_old now v = Return old /\
      if old then exists l, evicted_with key v = Return l /\ toRemove' = toRemove ++ l
      else toRemove' = toRemove
  else toRemove' = toRemove /\ profileKeys' = profileKeys.
Proof.
  unfold first_pass_step, evicted_with.
  destruct (JsString.startsWith "profile_" key); [|by intros [= <- <-]].
  destruct (is_old now v) as [[|]| | |]; simpl; try done.
  - destruct (member v "isChunked") as [isChunked| | |]; simpl; try done.
    destruct (member v "chunkKeys") as [chunkKeys| | |]; simpl; try done.
    destruct (truthy isChunked && truthy chunkKeys).
    + destruct (spread chunkKeys) as [items| | |]; simpl; try done.
      intros [= <- <-]. split; [done|]. exists true. split; [done|].
      exists (VStr key :: items). split; [done|]. by rewrite <- app_assoc.
    + intros [= <- <-]. split; [done|]. exists true. split; [done|].
      by exists [VStr key].
  - intros [= <- <-]. split; [done|]. by exists false.
Qed.

Lemma first_pass_cons now entry entries st :
  first_pass now (entry :: entries) st
  = obind (first_pass_step now st entry) (first_pass now entries).
Proof. reflexivity. Qed.

(** The first loop: the profile keys it collects and what it marks. *)
Lemma first_pass_inv now entries toRemove profileKeys toRemove' profileKeys' :
  first_pass now entries (toRemove, profileKeys) = Return (toRemove', profileKeys') ->
  (forall k, k ∈ profileKeys' <->
     k ∈ profileKeys \/ (k ∈ entries.*1 /\ JsString.startsWith "profile_" k = true)) /\
  (forall x, x ∈ toRemove' <->
     x ∈ toRemove \/
     exists k v l, (k, v) ∈ entries /\ JsString.startsWith "profile_" k = true /\
       is_old now v = Return true /\ evicted_with k v = Return l /\ x ∈ l).
Proof.
  revert toRemove profileKeys.
  induction entries as [|[key v] entries IH]; intros toRemove profileKeys Hrun.
  - simpl in Hrun. injection Hrun as <- <-. split.
    + intros k. rewrite fmap_nil, elem_of_nil. tauto.
    + intros x. split; [auto|]. intros [?|(k & v & l & Hin & _)]; [done|].
      by apply elem_of_nil in Hin.
  - rewrite first_pass_cons in Hrun.
    destruct (first_pass_step now (toRemove, profileKeys) (key, v))
      as [[tr1 pk1]| | |] eqn:Hstep; try done.
    cbn [obind] in Hrun. apply first_pass_step_inv in Hstep.
    destruct (IH _ _ Hrun) as [Hpk Htr]. clear IH Hrun. split.
    + intros k. rewrite Hpk, fmap_cons, elem_of_cons. simpl.
      destruct (JsString.startsWith "profile_" key) eqn:Hp.
      * destruct Hstep as [-> _]. rewrite set_add_elem_of.
        split; [intros [[-> |?]|[? ?]]; auto | intros [?|[[-> |?] ?]]; auto].
      * destruct Hstep as [_ ->].
        split; [intros [?|[? ?]]; auto | intros [?|[[-> |?] ?]]; auto; congruence].
    + intros x. rewrite Htr. clear Htr Hpk.
      destruct (JsString.startsWith "profile_" key) eqn:Hp.
      * destruct Hstep as [_ (old & Hold & Hres)]. destruct old.
        -- destruct Hres as (l & Hl & ->). rewrite elem_of_app. split.
           ++ intros [[?|Hx]|(k & u & l' & Hin & ?)]; [auto | |].
              ** right. exists key, v, l. rewrite elem_of_cons. auto.
              ** right. exists k, u, l'. rewrite elem_of_cons. auto.
           ++ intros [?|(k & u & l' & Hin & Hk & Ho & Hl' & Hx)]; [auto|].
              apply elem_of_cons in Hin as [[= -> ->]|Hin].
              ** rewrite Hl in Hl'. injection Hl' as <-. auto.
              ** right. exists k, u, l'. auto.
        -- subst tr1. split.
           ++ intros [?|(k & u & l' & Hin & ?)]; [auto|].
              right. exists k, u, l'. rewrite elem_of_cons. auto.
           ++ intros [?|(k & u & l' & Hin & Hk & Ho & Hl' & Hx)]; [auto|].
              apply elem_of_cons in Hin as [[= -> ->]|Hin]; [congruence|].
              right. exists k, u, l'. auto.
      * destruct Hstep as [-> _]. split.
        -- intros [?|(k & u & l' & Hin & ?)]; [auto|].
           right. exists k, u, l'. rewrite elem_of_cons. auto.
        -- intros [?|(k & u & l' & Hin & Hk & Ho & Hl' & Hx)]; [auto|].
           apply elem_of_cons in Hin as [[= -> ->]|Hin]; [congruence|].
           right. exists k, u, l'. auto.
Qed.

Lemma belongsToProfile_false storage profileKeys key :
  belongsToProfile storage profileKeys key = Return false <->
  forall p, p ∈ profileKeys ->
    references (default VUndefined (storage !! p)) key = Return false.
Proof.
  induction profileKeys as [|p profileKeys IH]; simpl.
  - split; [|done]. intros _ p Hp. by apply elem_of_nil in Hp.
  - destruct (references (default VUndefined (storage !! p)) key)
      as [[|]| | |] eqn:E; simpl.
    + split; [done|]. intros H. specialize (H p). rewrite E in H.
      by specialize (H (list_elem_of_here _ _)).
    + rewrite IH. split.
      * intros H q [-> |Hq]%elem_of_cons; auto.
      * intros H q Hq. apply H. by apply list_elem_of_further.
    + split; [done|]. intros H. specialize (H p). rewrite E in H.
      by specialize (H (list_elem_of_here _ _)).
    + split; [done|]. intros H. specialize (H p). rewrite E in H.
      by specialize (H (list_elem_of_here _ _)).
    + split; [done|]. intros H. specialize (H p). rewrite E in H.
      by specialize (H (list_elem_of_here _ _)).
Qed.

(** The second loop: the chunk keys it marks. *)
Lemma second_pass_inv storage profileKeys entries toRemove toRemove' :
  second_pass storage profileKeys entries toRemove = Return toRemove' ->
  forall x, x ∈ toRemove' <->
    x ∈ toRemove \/
    exists k, x = VStr k /\ k ∈ entries.*1 /\
      JsString.startsWith CHUNK_PREFIX k = true /\
      belongsToProfile storage profileKeys k = Return false.
Proof.
  revert toRemove. induction entries as [|[key v] entries IH]; intros toRemove Hrun x.
  - simpl in Hrun. injection Hrun as <-. split; [auto|].
    intros [?|(k & _ & Hin & _)]; [done|]. by apply elem_of_nil in Hin.
  - cbn [second_pass] in Hrun. rewrite fmap_cons. cbn [fst].
    destruct (JsString.startsWith CHUNK_PREFIX key) eqn:Hc.
    + destruct (belongsToProfile storage profileKeys key) as [[|]| | |] eqn:Hb;
        cbn [obind negb] in Hrun; try done.
      * rewrite (IH _ Hrun). split.
        -- intros [?|(k & -> & Hin & ?)]; [auto|]. right. exists k.
           rewrite elem_of_cons. auto.
        -- intros [?|(k & -> & Hin & Hk & Hbk)]; [auto|].
           apply elem_of_cons in Hin as [-> |Hin]; [congruence|]. right. by exists k.
      * rewrite (IH _ Hrun), elem_of_app, list_elem_of_singleton. split.
        -- intros [[?| ->]|(k & -> & Hin & ?)]; [auto | |].
           ++ right. exists key. rewrite elem_of_cons. auto.
           ++ right. exists k. rewrite elem_of_cons. auto.
        -- intros [?|(k & -> & Hin & Hk & Hbk)]; [auto|].
           apply elem_of_cons in Hin as [-> |Hin]; [auto|]. right. by exists k.
    + rewrite (IH _ Hrun). split.
      * intros [?|(k & -> & Hin & ?)]; [auto|]. right. exists k.
        rewrite elem_of_cons. auto.
      * intros [?|(k & -> & Hin & Hk & Hbk)]; [auto|].
        apply elem_of_cons in Hin as [-> |Hin]; [congruence|]. right. by exists k.
Qed.

(** What the sweep marks for removal, when its two loops run to their end:
    the records that are too old, with what their [chunkKeys] spread to
    when they are chunked, and the chunk keys that no entry under a
    [profile_] key lists. *)
Lemma keys_to_remove_inv storage now toRemove :
  keys_to_remove storage now = Return toRemove ->
  forall x, x ∈ toRemove <->
    (exists k v l, storage !! k = Some v /\
       JsString.startsWith "profile_" k = true /\
       is_old now v = Return true /\ evicted_with k v = Return l /\ x ∈ l) \/
    (exists k, x = VStr k /\ is_Some (storage !! k) /\
       JsString.startsWith CHUNK_PREFIX k = true /\
       forall p u, storage !! p = Some u ->
         JsString.startsWith "profile_" p = true ->
         references u k = Return false).
Proof.
  unfold keys_to_remove. intros Hrun x.
  destruct (first_pass now (map_to_list storage) ([], []))
    as [[tr1 pks]| | |] eqn:H1; try done.
  cbn [obind fst snd] in Hrun.
  apply first_pass_inv in H1 as [Hpk Htr].
  rewrite (second_pass_inv _ _ _ _ _ Hrun x), Htr.
  assert (Hdom : forall k, k ∈ (map_to_list storage).*1 <-> is_Some (storage !! k)).
  { intros k. rewrite list_elem_of_fmap. split.
    - intros ([k' u] & -> & Hin). apply elem_of_map_to_list in Hin. by exists u.
    - intros [u Hu]. exists (k, u). split; [done|]. by apply elem_of_map_to_list. }
  assert (Hbel : forall k, belongsToProfile storage pks k = Return false <->
    forall p u, storage !! p = Some u -> JsString.startsWith "profile_" p = true ->
      references u k = Return false).
  { intros k. rewrite belongsToProfile_false. split.
    - intros H p u Hp Hpre. specialize (H p). rewrite Hp in H. apply H.
      apply Hpk. right. split; [|done]. apply Hdom. by exists u.
    - intros H p Hp. apply Hpk in Hp as [Hp|[Hp Hpre]]; [by apply elem_of_nil in Hp|].
      apply Hdom in Hp as [u Hu]. rewrite Hu. by apply (H p u). }
  split.
  - intros [[Hx|(k & v & l & Hin & ?)]|(k & -> & Hin & Hc & Hb)].
    + by apply elem_of_nil in Hx.
    + left. exists k, v, l. by apply elem_of_map_to_list in Hin.
    + right. exists k. split_and!; [done | by apply Hdom | done | by apply Hbel].
  - intros [(k & v & l & Hin & ?)|(k & -> & Hin & Hc & Hb)].
    + left. right. exists k, v, l. by apply elem_of_map_to_list in Hin.
    + right. exists k. split_and!; [done | by apply Hdom | done | by apply Hbel].
Qed.

Lemma as_keys_elem_of items keys :
  as_keys items = Some keys -> forall k, k ∈ keys <-> VStr k ∈ items.
Proof.
  revert keys. induction items as [|x items IH]; intros keys Hk k.
  - injection Hk as <-. by rewrite !elem_of_nil.
  - simpl in Hk. destruct x; try done.
    destruct (as_keys items) as [ks|]; [|done]. injection Hk as <-.
    rewrite !elem_of_cons, (IH ks eq_refl). split; intros [H|H]; auto.
    + left. congruence.
    + left. congruence.
Qed.

Lemma remove_keys_lookup keys (m : gmap string value) k :
  remove_keys keys m !! k = if decide (k ∈ keys) then None else m !! k.
Proof.
  unfold remove_keys. induction keys as [|k' keys IH]; cbn [foldr].
  - destruct (decide (k ∈ [])) as [Hin|_]; [by apply elem_of_nil in Hin | done].
  - destruct (decide (k ∈ k' :: keys)) as [Hin|Hnin].
    + destruct (decide (k' = k)) as [-> |Hne]; [by rewrite lookup_delete_eq|].
      rewrite lookup_delete_ne, IH by done.
      apply elem_of_cons in Hin as [-> |Hin]; [done|].
      by destruct (decide (k ∈ keys)).
    + apply not_elem_of_cons in Hnin as [Hne Hnin].
      rewrite lookup_delete_ne, IH by done.
      by destruct (decide (k ∈ keys)).
Qed.

(** A sweep leaves the sync area as it was, or without the keys it marked. *)
Local Opaque keys_to_remove as_keys.


Local Transparent keys_to_remove as_keys.







(** *** The sweep on the entries the program writes *)

Lemma map_as_string items :
  forallb is_string items = true -> map VStr (omap as_string items) = items.
Proof.
  induction items as [|x items IH]; [done|].
  destruct x; try done. cbn. intros H. f_equal. by apply IH.
Qed.

Lemma includes_as_string k items :
  forallb is_string items = true ->
  existsb (strict_eq (VStr k)) items = JsString.includes k (omap as_string items).
Proof.
  induction items as [|x items IH]; [done|].
  destruct x; try done. cbn. intros H. f_equal. by apply IH.
Qed.

Lemma is_old_readable now v :
  readable_entry v = true -> is_old now v = Return (too_old now v).
Proof.
  unfold is_old, too_old. destruct v as [| | | | | |fields]; try done. simpl.
  destruct (assoc "lastAccessed" fields) as [| | |t| | |]; try done. simpl.
  intros _. by destruct (t =? 0)%Z.
Qed.

Lemma evicted_with_readable k v :
  readable_entry v = true ->
  evicted_with k v
  = Return (VStr k :: if is_chunked v then map VStr (chunkKeys_of v) else []).
Proof.
  unfold evicted_with, is_chunked, chunkKeys_of.
  destruct v as [| | | | | |fields]; try done. simpl.
  intros [_ Hk]%andb_prop.
  destruct (assoc "chunkKeys" fields) as [| | | | |items|]; try done; simpl.
  - rewrite andb_false_r. by destruct (truthy (assoc "isChunked" fields)).
  - rewrite andb_true_r. destruct (truthy (assoc "isChunked" fields)); [|done].
    simpl. by rewrite map_as_string.
Qed.

Lemma references_readable v k :
  readable_entry v = true ->
  references v k = Return (JsString.includes k (chunkKeys_of v)).
Proof.
  unfold references, chunkKeys_of.
  destruct v as [| | | | | |fields]; try done. simpl.
  intros [_ Hk]%andb_prop.
  destruct (assoc "chunkKeys" fields) as [| | | | |items|]; try done; simpl.
  by rewrite includes_as_string.
Qed.

Lemma readable_spec storage :
  readable storage = true ->
  forall k v, storage !! k = Some v ->
    JsString.startsWith "profile_" k = true -> readable_entry v = true.
Proof.
  unfold readable. rewrite forallb_forall. intros H k v Hk Hp.
  specialize (H (k, v)). simpl in H. rewrite Hp in H. apply H.
  apply list_elem_of_In. by apply elem_of_map_to_list.
Qed.

Lemma first_pass_total now entries st :
  (forall k v, (k, v) ∈ entries -> JsString.startsWith "profile_" k = true ->
     readable_entry v = true) ->
  exists st', first_pass now entries st = Return st'.
Proof.
  revert st. induction entries as [|[k v] entries IH]; intros [tr pks] Hr.
  - by eexists.
  - rewrite first_pass_cons.
    assert (exists st1, first_pass_step now (tr, pks) (k, v) = Return st1) as [st1 ->].
    { unfold first_pass_step.
      destruct (JsString.startsWith "profile_" k) eqn:Hp; [|by eexists].
      assert (readable_entry v = true) as Hv by (apply (Hr k); [left | done]).
      rewrite (is_old_readable now v Hv).
      pose proof (evicted_with_readable k v Hv) as He. unfold evicted_with in He.
      cbn [obind]. destruct (too_old now v); [|by eexists].
      destruct (member v "isChunked") as [isChunked| | |]; try done.
      destruct (member v "chunkKeys") as [chunkKeys| | |]; try done.
      cbn [obind] in *. destruct (truthy isChunked && truthy chunkKeys); [|by eexists].
      destruct (spread chunkKeys); try done. by eexists. }
    cbn [obind]. apply IH. intros k' v' Hin. apply Hr. by right.
Qed.

Lemma belongsToProfile_total storage profileKeys key :
  (forall p, p ∈ profileKeys ->
     readable_entry (default VUndefined (storage !! p)) = true) ->
  exists b, belongsToProfile storage profileKeys key = Return b.
Proof.
  induction profileKeys as [|p profileKeys IH]; intros Hr; [by eexists|].
  cbn [belongsToProfile].
  rewrite references_readable by (apply Hr; left).
  cbn [obind]. destruct (JsString.includes _ _); [by eexists|].
  apply IH. intros q Hq. apply Hr. by right.
Qed.

Lemma second_pass_total storage profileKeys entries toRemove :
  (forall p, p ∈ profileKeys ->
     readable_entry (default VUndefined (storage !! p)) = true) ->
  exists toRemove', second_pass storage profileKeys entries toRemove = Return toRemove'.
Proof.
  intros Hr. revert toRemove.
  induction entries as [|[k v] entries IH]; intros toRemove; [by eexists|].
  cbn [second_pass]. destruct (JsString.startsWith CHUNK_PREFIX k); [|apply IH].
  destruct (belongsToProfile_total storage profileKeys k Hr) as [b ->].
  cbn [obind]. destruct b; apply IH.
Qed.

Lemma keys_to_remove_total storage now :
  readable storage = true ->
  exists toRemove, keys_to_remove storage now = Return toRemove.
Proof.
  intros Hr. unfold keys_to_remove.
  destruct (first_pass_total now (map_to_list storage) ([], [])) as [[tr pks] H1].
  { intros k v Hin. apply (readable_spec _ Hr). by apply elem_of_map_to_list. }
  rewrite H1. cbn [obind fst snd].
  apply second_pass_total. intros p Hp.
  apply first_pass_inv in H1 as [Hpk _]. apply Hpk in Hp as [Hp|[Hp Hpre]].
  { by apply elem_of_nil in Hp. }
  apply list_elem_of_fmap in Hp as ([p' u] & -> & Hin). simpl in *.
  apply elem_of_map_to_list in Hin. rewrite Hin. simpl.
  by apply (readable_spec _ Hr p').
Qed.

Lemma as_keys_total items :
  (forall x, x ∈ items -> is_string x = true) -> exists keys, as_keys items = Some keys.
Proof.
  induction items as [|x items IH]; intros H; [by eexists|].
  assert (is_string x = true) as Hx by (apply H; left).
  destruct x; try done. cbn [as_keys].
  destruct IH as [keys ->]; [|by eexists]. intros y Hy. apply H. by right.
Qed.

(** On readable entries, what the code marks is what the two passes of the
    specification delete. *)
Lemma marked_iff_swept storage now toRemove k :
  readable storage = true ->
  keys_to_remove storage now = Return toRemove ->
  VStr k ∈ toRemove <-> swept storage now k = true.
Proof.
  intros Hr Hk. rewrite (keys_to_remove_inv _ _ _ Hk).
  unfold swept, evicted, evicted_fragment, orphan.
  rewrite !orb_true_iff, !andb_true_iff, existsb_exists, forallb_forall,
    bool_decide_eq_true.
  split.
  - intros [(q & v & l & Hq & Hp & Ho & Hl & Hin)|(k' & [= <-] & Hs & Hc & Hall)].
    + pose proof (readable_spec _ Hr q v Hq Hp) as Hv.
      rewrite is_old_readable in Ho by done. injection Ho as Ho.
      rewrite evicted_with_readable in Hl by done. injection Hl as <-.
      apply elem_of_cons in Hin as [[= ->]|Hin].
      * left. left. by rewrite Hq.
      * left. right. exists (q, v). cbn [fst snd].
        destruct (is_chunked v); [|by apply elem_of_nil in Hin].
        apply list_elem_of_fmap in Hin as (k' & [= <-] & Hin).
        split; [apply list_elem_of_In; by apply elem_of_map_to_list|].
        rewrite !andb_true_iff. split_and!; try done. by apply includes_elem_of.
    + right. split_and!; try done. intros [p u] Hin. cbn [fst snd].
      apply list_elem_of_In, elem_of_map_to_list in Hin.
      destruct (JsString.startsWith "profile_" p) eqn:Hp; [|done]. simpl.
      specialize (Hall p u Hin Hp).
      rewrite references_readable in Hall by (by apply (readable_spec _ Hr p)).
      injection Hall as ->. done.
  - intros [[[Hp Hv]|((q & v) & Hin & Hq)]|[[Hc Hs] Hall]].
    + destruct (storage !! k) as [v|] eqn:Hk'; [|done].
      pose proof (readable_spec _ Hr k v Hk' Hp) as Hrv.
      left. exists k, v, (VStr k :: if is_chunked v then map VStr (chunkKeys_of v) else []).
      split_and!; try done.
      * by rewrite is_old_readable, Hv.
      * by apply evicted_with_readable.
      * left.
    + cbn [fst snd] in Hq. rewrite !andb_true_iff in Hq.
      destruct Hq as [[[Hp Ho] Hch] Hinc].
      apply list_elem_of_In, elem_of_map_to_list in Hin.
      pose proof (readable_spec _ Hr q v Hin Hp) as Hrv.
      left. exists q, v, (VStr q :: if is_chunked v then map VStr (chunkKeys_of v) else []).
      split_and!; try done.
      * by rewrite is_old_readable, Ho.
      * by apply evicted_with_readable.
      * right. rewrite Hch. apply list_elem_of_fmap. exists k.
        split; [done|]. by apply includes_elem_of.
    + right. exists k. split_and!; try done. intros p u Hp Hpre.
      rewrite references_readable by (by apply (readable_spec _ Hr p)).
      specialize (Hall (p, u)). cbn [fst snd] in Hall. rewrite Hpre in Hall.
      simpl in Hall. f_equal. apply negb_true_iff, Hall.
      apply list_elem_of_In. by apply elem_of_map_to_list.
Qed.

Local Opaque keys_to_remove as_keys.

Lemma cleanupStorage_fault_free w toRemove keys :
  hd NoFault (faults w) = NoFault ->
  hd NoFault (tail (faults w)) = NoFault ->
  keys_to_remove (sync w) (clock w) = Return toRemove ->
  as_keys toRemove = Some keys ->
  sync (snd (cleanupStorage w)) = remove_keys keys (sync w).
Proof.
  intros Hf1 Hf2 Hk Ha.
  destruct (cleanupStorage w) as [r w'] eqn:Hrun. cbn [snd].
  destruct w as [sy lo fs c tr].
  unfold cleanupStorage, try_catch, bind, storage_get_all, Date_now, lift,
    ret, throw, storage_remove, next_fault, log in Hrun.
  cbn [sync clock faults] in *.
  assert (Hnil : toRemove = [] -> keys = []).
  { intros ->. Local Transparent as_keys. simpl in Ha. by injection Ha.
    Local Opaque as_keys. }
  destruct fs as [|f1 [|f2 fs]]; cbn [hd tail] in Hf1, Hf2; subst;
    cbn in Hrun; rewrite Hk in Hrun; cbn in Hrun;
    (destruct toRemove as [|x toRemove];
     [rewrite (Hnil eq_refl); cbn in Hrun; by injection Hrun as <- <-
     |cbn in Hrun; rewrite Ha in Hrun; cbn in Hrun; by injection Hrun as <- <-]).
Qed.

Local Transparent keys_to_remove as_keys.




(** The Metadata entry that [saveWithChunking] writes has no
    [lastAccessed]: a chunked record is never too old for the sweep. *)
Lemma metadata_never_too_old chunkCount chunkKeys timestamp now :
  too_old now (metadata chunkCount chunkKeys timestamp) = false /\
  is_old now (metadata chunkCount chunkKeys timestamp) = Return false.
Proof. split; reflexivity. Qed.

End retention_sweep.

(** ** Verification after a save *)

Section verification.
Import Json Storage Observations Scenarios Background.

(** The first [saveProfileState] (lines 551-584) reports success only
    after [verifySaveSuccess] has read the saved record back and found
    nothing amiss. *)
Lemma saveProfileState_551_verifies collectProfileData profileName domain w :
  fst (saveProfileState_551 collectProfileData profileName domain w)
  = Return success ->
  exists originalData w1 w2,
    fst (collectProfileData domain w) = Return originalData /\
    verifySaveSuccess profileName domain originalData w1 = (Return true, w2).
Proof.
  unfold saveProfileState_551, try_catch.
  destruct (String.eqb profileName "" || String.eqb domain ""); [done|].
  unfold bind at 1.
  destruct (collectProfileData domain w) as [[originalData| | |] w0]; try done.
  unfold bind at 1.
  destruct (trySaveProfile profileName domain originalData w0)
    as [[saved| | |] w1]; try done.
  destruct (truthy saved); [|done]. cbn [negb].
  unfold bind at 1.
  destruct (verifySaveSuccess profileName domain originalData w1)
    as [[[|]| | |] w2] eqn:Hv; try done.
  intros _. by exists originalData, w1, w2.
Qed.

(** C8 fails on the [saveProfileState] in force (lines 1026-1079): it
    stores the compressed record in the local area and reports success
    without reading anything back; [verifySaveSuccess], had it been
    called, would have found no record under the profile key of the sync
    area. *)
Theorem saveProfileState_reports_success_unverified :
  fst (saveProfileState (fun _ => ret collected) stored_compress stored_decompress
         "work" "example.com" empty_world)
  = Return success /\
  never_read "profile_work_example.com"
    (trace (snd (saveProfileState (fun _ => ret collected) stored_compress
                   stored_decompress "work" "example.com" empty_world)))
  = true /\
  fst (verifySaveSuccess "work" "example.com" collected
         (snd (saveProfileState (fun _ => ret collected) stored_compress
                 stored_decompress "work" "example.com" empty_world)))
  = Return false.
Proof. split_and!; vm_compute; reflexivity. Qed.

End verification.

(** ** Strings through [JSON.stringify] and [JSON.parse] *)

Section json_strings.
Import Json JSON.

Lemma rev_app_app s1 s2 : String.rev_app s1 s2 = String.rev s1 +:+ s2.
Proof.
  unfold String.rev. revert s2.
  induction s1 as [|a s1 IH]; intros s2; simpl; [done|].
  rewrite IH, (IH (String a "")). clear.
  induction (String.rev_app s1 "") as [|b t IHt]; [done|].
  rewrite !str_app_cons. by rewrite IHt.
Qed.

Lemma str_app_assoc s1 s2 s3 : (s1 +:+ s2) +:+ s3 = s1 +:+ (s2 +:+ s3).
Proof. induction s1 as [|a s1 IH]; [done|]. by rewrite !str_app_cons, IH. Qed.

Lemma rev_rev_app s acc : String.rev (String.rev_app s acc) = String.rev acc +:+ s.
Proof.
  revert acc. induction s as [|a s IH]; intros acc; simpl.
  - by rewrite str_app_nil_r.
  - rewrite IH. unfold String.rev at 1. simpl. rewrite rev_app_app.
    by rewrite str_app_assoc.
Qed.





End json_strings.

(** ** The transport of bytes: UTF-8 and base64 *)

Section transport.
Import Json Web.



Lemma list_ind3 {A} (P : list A -> Prop) :
  P [] -> (forall a, P [a]) -> (forall a b, P [a; b]) ->
  (forall a b c l, P l -> P (a :: b :: c :: l)) ->
  forall l, P l.
Proof.
  intros H0 H1 H2 H3.
  assert (forall l, P l /\ (forall a, P (a :: l)) /\ (forall a b, P (a :: b :: l)))
    as H; [|intros l; apply H].
  induction l as [|x l (IH0 & IH1 & IH2)]; [by auto|].
  split_and!; auto.
Qed.

Lemma base64_char_not_space n :
  n < 64 -> is_ascii_whitespace (base64_char n) = false.
Proof. intros H. do 64 (destruct n as [|n]; [reflexivity|]). lia. Qed.

Lemma base64_char_not_pad n : n < 64 -> Ascii.eqb (base64_char n) pad = false.
Proof. intros H. do 64 (destruct n as [|n]; [reflexivity|]). lia. Qed.

Lemma base64_value_char n : n < 64 -> base64_value (base64_char n) = Some n.
Proof. intros H. do 64 (destruct n as [|n]; [reflexivity|]). lia. Qed.

Lemma base64_sextets_bound bytes :
  Forall (fun b => b < 256) bytes -> Forall (fun v => v < 64) (base64_sextets bytes).
Proof.
  induction bytes as [| a | a b | a b c l IH] using list_ind3; intros H.
  - constructor.
  - apply Forall_cons in H as [Ha _]. cbn [base64_sextets].
    pose proof (Nat.mod_upper_bound a 4).
    assert (a / 4 < 64) by (apply Nat.Div0.div_lt_upper_bound; lia).
    repeat first [apply Forall_nil | apply Forall_cons; split]; lia.
  - apply Forall_cons in H as [Ha H]. apply Forall_cons in H as [Hb _].
    cbn [base64_sextets].
    pose proof (Nat.mod_upper_bound a 4). pose proof (Nat.mod_upper_bound b 16).
    assert (a / 4 < 64) by (apply Nat.Div0.div_lt_upper_bound; lia).
    assert (b / 16 < 16) by (apply Nat.Div0.div_lt_upper_bound; lia).
    repeat first [apply Forall_nil | apply Forall_cons; split]; lia.
  - apply Forall_cons in H as [Ha H]. apply Forall_cons in H as [Hb H].
    apply Forall_cons in H as [Hc H]. cbn [base64_sextets].
    pose proof (Nat.mod_upper_bound a 4). pose proof (Nat.mod_upper_bound b 16).
    pose proof (Nat.mod_upper_bound c 64).
    assert (a / 4 < 64) by (apply Nat.Div0.div_lt_upper_bound; lia).
    assert (b / 16 < 16) by (apply Nat.Div0.div_lt_upper_bound; lia).
    assert (c / 64 < 4) by (apply Nat.Div0.div_lt_upper_bound; lia).
    do 4 (apply Forall_cons; split; [lia|]). by apply IH.
Qed.

(** Bytes come back from their six-bit groups. *)
Lemma base64_octets_sextets bytes :
  Forall (fun b => b < 256) bytes -> base64_octets (base64_sextets bytes) = bytes.
Proof.
  induction bytes as [| a | a b | a b c l IH] using list_ind3; intros H.
  - done.
  - cbn [base64_sextets base64_octets]. f_equal.
    rewrite Nat.div_mul by lia. pose proof (Nat.div_mod_eq a 4). lia.
  - apply Forall_cons in H as [Ha H]. apply Forall_cons in H as [Hb _].
    cbn [base64_sextets base64_octets].
    pose proof (Nat.div_mod_eq a 4). pose proof (Nat.div_mod_eq b 16).
    pose proof (Nat.mod_upper_bound a 4). pose proof (Nat.mod_upper_bound b 16).
    assert (b / 16 < 16) by (apply Nat.Div0.div_lt_upper_bound; lia).
    assert ((a mod 4 * 16 + b / 16) / 16 = a mod 4) as ->
      by (symmetry; apply (Nat.div_unique _ 16 _ (b / 16)); lia).
    assert ((a mod 4 * 16 + b / 16) mod 16 = b / 16) as ->
      by (symmetry; apply (Nat.mod_unique _ 16 (a mod 4)); lia).
    assert (b mod 16 * 4 / 4 = b mod 16) as -> by (apply Nat.div_mul; lia).
    f_equal; [lia|]. f_equal. lia.
  - apply Forall_cons in H as [Ha H]. apply Forall_cons in H as [Hb H].
    apply Forall_cons in H as [Hc H]. cbn [base64_sextets base64_octets].
    pose proof (Nat.div_mod_eq a 4). pose proof (Nat.div_mod_eq b 16).
    pose proof (Nat.div_mod_eq c 64).
    pose proof (Nat.mod_upper_bound a 4). pose proof (Nat.mod_upper_bound b 16).
    pose proof (Nat.mod_upper_bound c 64).
    assert (b / 16 < 16) by (apply Nat.Div0.div_lt_upper_bound; lia).
    assert (c / 64 < 4) by (apply Nat.Div0.div_lt_upper_bound; lia).
    assert ((a mod 4 * 16 + b / 16) / 16 = a mod 4) as ->
      by (symmetry; apply (Nat.div_unique _ 16 _ (b / 16)); lia).
    assert ((a mod 4 * 16 + b / 16) mod 16 = b / 16) as ->
      by (symmetry; apply (Nat.mod_unique _ 16 (a mod 4)); lia).
    assert ((b mod 16 * 4 + c / 64) / 4 = b mod 16) as ->
      by (symmetry; apply (Nat.div_unique _ 4 _ (c / 64)); lia).
    assert ((b mod 16 * 4 + c / 64) mod 4 = c / 64) as ->
      by (symmetry; apply (Nat.mod_unique _ 4 (b mod 16)); lia).
    rewrite IH by done. f_equal; [lia|]. f_equal; [lia|]. f_equal. lia.
Qed.

Lemma base64_sextets_length bytes :
  length (base64_sextets bytes) mod 4 <> 1 /\
  (length (base64_sextets bytes) + length (base64_padding (length bytes))) mod 4 = 0.
Proof.
  induction bytes as [| a | a b | a b c l IH] using list_ind3;
    [by split| by split | by split |].
  cbn [base64_sextets length]. unfold base64_padding in *.
  replace (S (S (S (length l)))) with (length l + 1 * 3) by lia.
  rewrite Nat.Div0.mod_add.
  replace (S (S (S (S (length (base64_sextets l))))))
    with (length (base64_sextets l) + 1 * 4) by lia.
  replace (length (base64_sextets l) + 1 * 4 +
           length match length l mod 3 with 1 => [pad; pad] | 2 => [pad] | _ => [] end)
    with (length (base64_sextets l) +
          length match length l mod 3 with 1 => [pad; pad] | 2 => [pad] | _ => [] end
          + 1 * 4) by lia.
  by rewrite !Nat.Div0.mod_add.
Qed.

Lemma base64_padding_cases n :
  base64_padding n = [] \/ base64_padding n = [pad] \/ base64_padding n = [pad; pad].
Proof.
  unfold base64_padding. destruct (n mod 3) as [|[|[|k]]]; auto.
Qed.

Lemma base64_values_chars sx :
  Forall (fun v => v < 64) sx -> base64_values (map base64_char sx) = Some sx.
Proof.
  induction 1 as [|v sx Hv _ IH]; [done|].
  cbn [map base64_values]. by rewrite base64_value_char, IH.
Qed.

Lemma filter_Forall_id {A} (P : A -> Prop) `{!forall x, Decision (P x)} (l : list A) :
  Forall P l -> filter P l = l.
Proof.
  induction 1 as [|x l Hx _ IH]; [done|].
  rewrite filter_cons_True by done. by rewrite IH.
Qed.

(** The padding goes, and nothing else, when the text before it has no
    padding character. *)
Lemma strip_padding_app m p :
  Forall (fun c => Ascii.eqb c pad = false) m ->
  p = [] \/ p = [pad] \/ p = [pad; pad] ->
  (length m + length p) mod 4 = 0 ->
  strip_padding (m ++ p) = m.
Proof.
  intros Hm Hp Hlen. unfold strip_padding.
  rewrite length_app, Hlen. cbn [Nat.eqb].
  assert (forall c, c ∈ rev m -> Ascii.eqb c pad = false) as Hrev.
  { intros c Hc. rewrite list_elem_of_In, <- in_rev, <- list_elem_of_In in Hc.
    by rewrite Forall_forall in Hm; apply Hm. }
  destruct Hp as [-> | [-> | ->]].
  - rewrite app_nil_r. destruct (rev m) as [|x [|y r]] eqn:E; [done| |].
    + by rewrite (Hrev x) by (apply list_elem_of_here).
    + by rewrite (Hrev x) by (apply list_elem_of_here).
  - rewrite rev_app_distr. cbn [rev app].
    destruct (rev m) as [|y r] eqn:E.
    + replace (Ascii.eqb pad pad) with true by reflexivity.
      apply (f_equal (@rev _)) in E. by rewrite rev_involutive in E.
    + replace (Ascii.eqb pad pad) with true by reflexivity.
      rewrite (Hrev y) by (apply list_elem_of_here).
      apply (f_equal (@rev _)) in E. by rewrite rev_involutive in E.
  - rewrite rev_app_distr. cbn [rev app].
    replace (Ascii.eqb pad pad) with true by reflexivity.
    by rewrite rev_involutive.
Qed.

Lemma base64_chars_plain sx :
  Forall (fun v => v < 64) sx ->
  Forall (fun c => Ascii.eqb c pad = false) (map base64_char sx) /\
  Forall (fun c => is_ascii_whitespace c = false) (map base64_char sx).
Proof.
  induction 1 as [|v sx Hv _ [IH1 IH2]]; [by split|].
  split; constructor; auto using base64_char_not_pad, base64_char_not_space.
Qed.

(** [atob] gives back the bytes that [btoa] was given. *)
Lemma atob_base64_encode bytes :
  Forall (fun b => b < 256) bytes ->
  atob_charCodes (string_of_list_ascii (base64_encode bytes)) =
  Return (map Z.of_nat bytes).
Proof.
  intros Hb. unfold atob_charCodes.
  rewrite list_ascii_of_string_of_list_ascii.
  pose proof (base64_sextets_bound _ Hb) as Hsx.
  destruct (base64_chars_plain _ Hsx) as [Hpad Hws].
  destruct (base64_sextets_length bytes) as [Hone Hlen].
  rewrite filter_Forall_id.
  2:{ unfold base64_encode. apply Forall_app. split; [done|].
      destruct (base64_padding_cases (length bytes)) as [-> | [-> | ->]];
        repeat constructor. }
  unfold base64_encode.
  rewrite strip_padding_app;
    [| done | apply base64_padding_cases | by rewrite length_map].
  rewrite length_map.
  destruct (length (base64_sextets bytes) mod 4 =? 1) eqn:E;
    [by apply Nat.eqb_eq in E|].
  rewrite base64_values_chars by done.
  by rewrite base64_octets_sextets.
Qed.



(** A number outside the bytes makes [btoa] throw. *)
Lemma btoa_of_other result x :
  x ∈ result -> (256 <= code_unit x)%Z ->
  btoa_fromCharCode result = Throw (Error "InvalidCharacterError").
Proof.
  intros Hx Hbig. unfold btoa_fromCharCode.
  destruct (forallb _ result) eqn:Hall; [|done].
  rewrite forallb_forall in Hall. apply list_elem_of_In, Hall in Hx. lia.
Qed.

End transport.

(** ** Compression and its inverse *)

Section compression.
Import Json Web Observations Scenarios.

Variable LZMA_compress : list Z -> Z -> outcome (list Z).
Variable LZMA_decompress : list Z -> outcome (list Z).


(** When the codec answers with a number that is no byte, [compressData]
    throws: [btoa] refuses the character. *)
Lemma compressData_not_bytes data c x :
  LZMA_compress (match JSON.stringify data with
                 | Some s => TextEncoder_encode s
                 | None => []
                 end) 9 = Return c ->
  x ∈ c -> (256 <= code_unit x)%Z ->
  Utils.compressData LZMA_compress data = Throw (Error "InvalidCharacterError").
Proof.
  intros Hc Hx Hbig. unfold Utils.compressData. rewrite Hc. cbn [obind].
  by apply (btoa_of_other c x).
Qed.


End compression.


(** The empty byte string comes back as well, and so does the record of a
    profile; [undefined], which has no JSON text, does not. *)
Example compress_decompress_examples :
  Observations.compress_then_decompress Scenarios.stored_compress
    Scenarios.stored_decompress (Json.VStr EmptyString) =
  Json.Return (Json.VStr EmptyString) /\
  Observations.compress_then_decompress Scenarios.stored_compress
    Scenarios.stored_decompress Scenarios.collected =
  Json.Return Scenarios.collected /\
  Observations.compress_then_decompress Scenarios.stored_compress
    Scenarios.stored_decompress Json.VUndefined =
  Json.Throw Json.SyntaxError.
Proof. split_and!; vm_compute; reflexivity. Qed.

(* ===================================================================== *)
(** * Further properties of the code *)
(* ===================================================================== *)

(** ** Labels of a domain name *)

Section domain_labels.
Import JsString.

Lemma concat_cons2 sep x y l :
  String.concat sep (x :: y :: l) = x +:+ sep +:+ String.concat sep (y :: l).
Proof. reflexivity. Qed.

Lemma concat_app sep l1 l2 :
  l1 <> [] -> l2 <> [] ->
  String.concat sep (l1 ++ l2)
  = String.concat sep l1 +:+ sep +:+ String.concat sep l2.
Proof.
  intros H1 H2. induction l1 as [|x [|y l1] IH]; [done| |].
  - destruct l2 as [|z l2]; [done|]. reflexivity.
  - change ((x :: y :: l1) ++ l2) with (x :: y :: (l1 ++ l2)).
    rewrite !concat_cons2.
    change (y :: l1 ++ l2) with ((y :: l1) ++ l2).
    rewrite IH by done. by rewrite !str_app_assoc.
Qed.

Lemma rev_cons a s : String.rev (String a s) = String.rev s +:+ String a "".
Proof. unfold String.rev at 1. simpl. by rewrite rev_app_app. Qed.

Lemma split_go_nonempty c s cur : split_go c s cur <> [].
Proof.
  revert cur. induction s as [|a s IH]; intros cur; cbn [split_go]; [done|].
  destruct (Ascii.eqb a c); [done | apply IH].
Qed.

(** [s.split(c).join(c)] is [s]. *)
Lemma join_split_go c s cur :
  String.concat (String c "") (split_go c s cur) = String.rev cur +:+ s.
Proof.
  revert cur. induction s as [|a s IH]; intros cur; cbn [split_go].
  - by rewrite str_app_nil_r.
  - destruct (Ascii.eqb_spec a c) as [-> |Hne].
    + destruct (split_go c s "") as [|y l] eqn:E.
      { by apply split_go_nonempty in E. }
      rewrite concat_cons2, <- E, IH. reflexivity.
    + rewrite IH, rev_cons, str_app_assoc. reflexivity.
Qed.

Lemma join_split c s : JsString.join (String c "") (split c s) = s.
Proof. unfold JsString.join, split. by rewrite join_split_go. Qed.

Lemma rev_involutive_str s : String.rev (String.rev s) = s.
Proof. unfold String.rev at 2. by rewrite rev_rev_app. Qed.

(** No part of [s.split(c)] has a [c]. *)
Lemma split_go_no_char c s cur :
  Labels.has_char c cur = false ->
  Forall (fun p => Labels.has_char c p = false) (split_go c s cur).
Proof.
  assert (Hrev : forall t acc, Labels.has_char c t = false ->
            Labels.has_char c acc = false ->
            Labels.has_char c (String.rev_app t acc) = false).
  { induction t as [|a t IHt]; intros acc Ht Hacc; simpl in *; [done|].
    apply orb_false_elim in Ht as [Ha Ht]. apply IHt; [done|].
    simpl. by rewrite Ha, Hacc. }
  revert cur. induction s as [|a s IH]; intros cur Hcur; cbn [split_go].
  - constructor; [|constructor]. by apply Hrev.
  - destruct (Ascii.eqb a c) eqn:E.
    + constructor; [by apply Hrev | by apply IH].
    + apply IH. simpl. by rewrite E, Hcur.
Qed.

Lemma split_go_app c p s cur :
  Labels.has_char c p = false ->
  split_go c (p +:+ s) cur = split_go c s (String.rev_app p cur).
Proof.
  revert cur. induction p as [|a p IH]; intros cur Hp; [done|].
  simpl in Hp. apply orb_false_elim in Hp as [Ha Hp].
  rewrite str_app_cons. cbn [split_go]. rewrite Ha. by rewrite IH.
Qed.

(** [parts.join(c).split(c)] is [parts], for parts without [c]. *)
Lemma split_join c parts :
  parts <> [] ->
  Forall (fun p => Labels.has_char c p = false) parts ->
  split c (JsString.join (String c "") parts) = parts.
Proof.
  intros Hne Hall. unfold split, JsString.join.
  induction parts as [|p [|q l] IH]; [done| |].
  - apply Forall_cons in Hall as [Hp _]. simpl.
    rewrite <- (str_app_nil_r p) at 1. rewrite split_go_app by done.
    cbn [split_go]. f_equal. apply rev_involutive_str.
  - apply Forall_cons in Hall as [Hp Hall].
    rewrite concat_cons2, split_go_app by done.
    rewrite str_app_cons. cbn [split_go]. rewrite Ascii.eqb_refl.
    change (String.rev_app p "") with (String.rev p).
    rewrite rev_involutive_str. f_equal. by apply IH.
Qed.

Lemma slice_last_length {A} n (l : list A) :
  length (slice_last n l) = Nat.min n (length l).
Proof. unfold slice_last. rewrite length_drop. lia. Qed.

Lemma slice_last_all {A} n (l : list A) : length l <= n -> slice_last n l = l.
Proof.
  intros H. unfold slice_last. by replace (length l - n) with 0 by lia.
Qed.

Lemma slice_last_slice_last {A} n m (l : list A) :
  n <= m -> slice_last n (slice_last m l) = slice_last n l.
Proof.
  intros H. unfold slice_last. rewrite length_drop, drop_drop. f_equal. lia.
Qed.

Lemma slice_last_nonempty {A} n (l : list A) :
  0 < n -> l <> [] -> slice_last n l <> [].
Proof.
  intros Hn Hl E. apply (f_equal length) in E.
  rewrite slice_last_length in E. destruct l; [done|]. simpl in E. lia.
Qed.

(** The last labels of a name, joined, are the end of the name. *)
Lemma join_slice_last_ends n domain :
  0 < n ->
  Labels.ends_with domain (JsString.join "." (slice_last n (split "." domain))).
Proof.
  intros Hn. unfold Labels.ends_with.
  pose proof (join_split "." domain) as Hj.
  set (parts := split "." domain) in *.
  assert (parts <> []) as Hne by apply split_go_nonempty.
  unfold slice_last.
  destruct (decide (length parts - n = 0)) as [-> |Hpos].
  - exists "". by rewrite drop_0.
  - rewrite <- (take_drop (length parts - n) parts) in Hj.
    unfold JsString.join in *. rewrite concat_app in Hj.
    + eexists. rewrite <- Hj at 1. by rewrite <- str_app_assoc.
    + intros E. apply (f_equal length) in E. rewrite length_take in E.
      simpl in E. lia.
    + intros E. apply (f_equal length) in E. rewrite length_drop in E.
      simpl in E. destruct parts; [done|]. simpl in *. lia.
Qed.

End domain_labels.

(** ** [getMainDomain] *)

Section main_domain_shape.
Import JsString.

Variable specialTlds : list string.
Variable f : string -> string.
Hypothesis f_eq : forall domain,
  f domain =
  let parts := split "." domain in
  if length parts <=? 2 then domain
  else
    let lastTwo := JsString.join "." (slice_last 2 parts) in
    if includes lastTwo specialTlds
    then JsString.join "." (slice_last 3 parts)
    else JsString.join "." (slice_last 2 parts).

Lemma split_join_slice_last n domain :
  0 < n ->
  split "." (JsString.join "." (slice_last n (split "." domain)))
  = slice_last n (split "." domain).
Proof.
  intros Hn. apply split_join.
  - apply slice_last_nonempty; [done | apply split_go_nonempty].
  - unfold slice_last. apply Forall_drop. by apply split_go_no_char.
Qed.

Lemma main_domain_ends domain : Labels.ends_with domain (f domain).
Proof.
  rewrite f_eq. cbv zeta.
  destruct (length (split "." domain) <=? 2); [by exists ""|].
  destruct (includes _ specialTlds); apply join_slice_last_ends; lia.
Qed.

Lemma main_domain_labels domain : length (split "." (f domain)) <= 3.
Proof.
  rewrite f_eq. cbv zeta.
  destruct (Nat.leb_spec (length (split "." domain)) 2) as [Hle|Hgt]; [lia|].
  destruct (includes _ specialTlds);
    rewrite split_join_slice_last, slice_last_length by lia; lia.
Qed.

Lemma main_domain_idempotent domain : f (f domain) = f domain.
Proof.
  rewrite (f_eq domain). cbv zeta.
  destruct (Nat.leb_spec (length (split "." domain)) 2) as [Hle|Hgt].
  - rewrite f_eq. cbv zeta.
    by destruct (Nat.leb_spec (length (split "." domain)) 2); [|lia].
  - destruct (includes (JsString.join "." (slice_last 2 (split "." domain)))
                specialTlds) eqn:Hin.
    + rewrite f_eq. cbv zeta. rewrite split_join_slice_last by lia.
      rewrite slice_last_length.
      destruct (Nat.leb_spec (Nat.min 3 (length (split "." domain))) 2); [lia|].
      rewrite slice_last_slice_last by lia. rewrite Hin.
      by rewrite slice_last_slice_last by lia.
    + rewrite f_eq. cbv zeta. rewrite split_join_slice_last by lia.
      rewrite slice_last_length.
      by destruct (Nat.leb_spec (Nat.min 2 (length (split "." domain))) 2); [|lia].
Qed.

End main_domain_shape.

(** X1. Both [getMainDomain] return the end of the name they are given,
    cut before a label: the result is a suffix of [domain] and has at most
    three labels. *)
Theorem getMainDomain_is_suffix (domain : string) :
  Labels.ends_with domain (Utils.getMainDomain domain) /\
  Labels.ends_with domain (Background.getMainDomain domain) /\
  length (JsString.split "." (Utils.getMainDomain domain)) <= 3 /\
  length (JsString.split "." (Background.getMainDomain domain)) <= 3.
Proof.
  split_and!.
  - by apply (main_domain_ends ["co.uk"; "com.au"; "co.jp"; "co.nz"; "co.in"]).
  - by apply (main_domain_ends ["co.uk"; "com.au"; "co.jp"; "co.nz"]).
  - by apply (main_domain_labels ["co.uk"; "com.au"; "co.jp"; "co.nz"; "co.in"]).
  - by apply (main_domain_labels ["co.uk"; "com.au"; "co.jp"; "co.nz"]).
Qed.

(** X2. Both [getMainDomain] are idempotent: the main domain of a main
    domain is itself, so the keys built from it do not depend on how many
    times the name went through the function. *)
Theorem getMainDomain_idempotent (domain : string) :
  Utils.getMainDomain (Utils.getMainDomain domain) = Utils.getMainDomain domain /\
  Background.getMainDomain (Background.getMainDomain domain)
  = Background.getMainDomain domain.
Proof.
  split.
  - by apply (main_domain_idempotent ["co.uk"; "com.au"; "co.jp"; "co.nz"; "co.in"]).
  - by apply (main_domain_idempotent ["co.uk"; "com.au"; "co.jp"; "co.nz"]).
Qed.

(** X3. The two [getMainDomain] give the same result exactly on the names
    of at most two labels and on those whose last two labels are not
    [co.in]. *)
Theorem getMainDomain_agree_iff (domain : string) :
  Utils.getMainDomain domain = Background.getMainDomain domain <->
  (length (JsString.split "." domain) <= 2 \/
   JsString.join "." (JsString.slice_last 2 (JsString.split "." domain)) <> "co.in").
Proof.
  split.
  - intros Heq.
    destruct (Nat.le_gt_cases (length (JsString.split "." domain)) 2) as [?|Hgt];
      [by left|right].
    intros Hco. by apply (getMainDomain_disagree domain).
  - intros [Hle|Hne]; [|by apply getMainDomain_agree].
    unfold Utils.getMainDomain, Background.getMainDomain.
    by destruct (Nat.leb_spec (length (JsString.split "." domain)) 2); [|lia].
Qed.

(** ** Saving and reading back *)

Section read_back.
Import Json Storage Observations.

Lemma CHUNK_SIZE_pos : 0 < Background.CHUNK_SIZE.
Proof. apply Nat.ltb_lt. vm_compute. reflexivity. Qed.

Lemma chunkSize_pos : 0 < Utils.chunkSize.
Proof. apply Nat.ltb_lt. vm_compute. reflexivity. Qed.

Lemma split_join_id s n chunks :
  0 < n -> ChunkCodec.split s n = Some chunks -> ChunkCodec.join chunks = s.
Proof.
  intros Hn Hs. unfold ChunkCodec.split in Hs.
  destruct (split_loop_spec (String.length s) s n 0) as (chunks' & E & Hj & _);
    [done | lia |].
  rewrite E in Hs. injection Hs as <-.
  by rewrite Hj, Nat.sub_0_r, substring_whole.
Qed.

Lemma split_total s n :
  0 < n -> exists chunks, ChunkCodec.split s n = Some chunks.
Proof.
  intros Hn. unfold ChunkCodec.split.
  destruct (split_loop_spec (String.length s) s n 0) as (chunks & E & _);
    [done | lia |].
  by exists chunks.
Qed.

Lemma omap_fragments (f : string -> option value) key_of chunks i :
  (forall n c, chunks !! n = Some c -> f (key_of (i + n)) = Some (VStr c)) ->
  omap f (map key_of (seq i (length chunks))) = map VStr chunks.
Proof.
  revert i. induction chunks as [|c chunks IH]; intros i H; [done|].
  cbn [length seq map omap list_omap].
  rewrite <- (Nat.add_0_r i) at 1. rewrite (H 0 c eq_refl).
  f_equal. apply IH. intros n c' Hn.
  replace (S i + n) with (i + S n) by lia. by apply H.
Qed.

Lemma join_item_fragments chunks :
  String.concat "" (join_item <$> map VStr chunks) = ChunkCodec.join chunks.
Proof.
  unfold ChunkCodec.join, JsString.join. f_equal.
  induction chunks as [|c chunks IH]; [done|]. cbn. by rewrite IH.
Qed.

(** X4. A record saved by [saveWithChunking] and read back by
    [getChunkedData] from the Metadata entry that the save left under the
    key is [JSON.parse(JSON.stringify(data))], whatever the store held
    before, when no storage call fails. *)
Theorem saveWithChunking_then_getChunkedData (key : string) (data : value)
  (stringified : string) (w : world) :
  faults w = [] ->
  JSON.stringify data = Some stringified ->
  exists meta,
    fst (Background.saveWithChunking key data w) = Return (VBool true) /\
    sync (snd (Background.saveWithChunking key data w)) !! key = Some meta /\
    fst (Background.getChunkedData key meta
           (snd (Background.saveWithChunking key data w)))
    = JSON.parse stringified.
Proof.
  intros Hf Hs.
  destruct (split_total stringified Background.CHUNK_SIZE) as [chunks Hc];
    [apply CHUNK_SIZE_pos|].
  rewrite (saveWithChunking_fault_free key data stringified chunks w Hf Hs Hc).
  cbn [fst snd sync]. eexists. split; [done|].
  split; [by rewrite lookup_insert_eq|].
  unfold Background.metadata.
  rewrite (getChunkedData_fault_free key _
             (map (Background.chunk_key key) (seq 0 (length chunks))));
    [|reflexivity|reflexivity|reflexivity].
  cbn [sync]. f_equal.
  rewrite (omap_fragments _ (Background.chunk_key key) chunks 0).
  - rewrite join_item_fragments.
    by apply (split_join_id _ Background.CHUNK_SIZE); [apply CHUNK_SIZE_pos|].
  - intros n c Hn. rewrite lookup_insert_ne by (symmetry; apply chunk_key_ne_key).
    by apply (fragment_writes_lookup _ (chunk_key_inj key)).
Qed.

Lemma saveWithChunking_then_getChunkedData_witness :
  exists meta,
    fst (Background.saveWithChunking "profile_work_example.com"
           Scenarios.record_a Scenarios.empty_world) = Return (VBool true) /\
    sync (snd (Background.saveWithChunking "profile_work_example.com"
                 Scenarios.record_a Scenarios.empty_world))
      !! "profile_work_example.com" = Some meta /\
    fst (Background.getChunkedData "profile_work_example.com" meta
           (snd (Background.saveWithChunking "profile_work_example.com"
                   Scenarios.record_a Scenarios.empty_world)))
    = JSON.parse (default "" (JSON.stringify Scenarios.record_a)).
Proof.
  apply (saveWithChunking_then_getChunkedData "profile_work_example.com"
           Scenarios.record_a _ Scenarios.empty_world); reflexivity.
Defined.

End read_back.

(** ** Runs without faults (utils.js) *)

Section utils_runs.
Import Json Storage Observations Runs.

Lemma after_writes_nil a w : after_writes a [] w = w.
Proof.
  destruct w as [sy lo fs c tr], a; unfold after_writes; simpl;
    by rewrite app_nil_r.
Qed.

Lemma after_writes_app a ws1 ws2 w :
  after_writes a ws2 (after_writes a ws1 w) = after_writes a (ws1 ++ ws2) w.
Proof.
  destruct w as [sy lo fs c tr], a; unfold after_writes; simpl;
    by rewrite apply_writes_app, map_app, app_assoc.
Qed.

Lemma after_writes_store a ws w :
  store_of a (after_writes a ws w) = apply_writes ws (store_of a w).
Proof. by destruct a. Qed.

Lemma after_writes_other a b ws w :
  b <> a -> store_of b (after_writes a ws w) = store_of b w.
Proof. by destruct a, b. Qed.

Lemma after_writes_faults a ws w : faults (after_writes a ws w) = faults w.
Proof. done. Qed.

Lemma after_writes_clock a ws w : clock (after_writes a ws w) = clock w.
Proof. done. Qed.

Lemma storage_set_fault_free a k v w :
  faults w = [] ->
  storage_set a k v w = (Return tt, after_writes a [(k, v)] w).
Proof.
  destruct w as [sy lo fs c tr]. simpl. intros ->.
  unfold storage_set, after_writes. simpl. by destruct a.
Qed.

Lemma storage_get_fault_free a k w :
  faults w = [] ->
  storage_get a k w
  = (Return (default VUndefined (store_of a w !! k)), after_reads a [k] w).
Proof.
  intros Hf. rewrite storage_get_run by (by rewrite Hf).
  unfold after_reads. by rewrite Hf.
Qed.

Lemma set_with_retries_fault_free a k v w :
  faults w = [] ->
  Utils.set_with_retries Utils.maxRetries a k v 0 w
  = (Return tt, after_writes a [(k, v)] w).
Proof.
  intros Hf. cbn [Utils.set_with_retries Utils.maxRetries Nat.ltb Nat.leb].
  unfold try_catch. by rewrite storage_set_fault_free.
Qed.

Lemma utils_save_chunks_fault_free a key chunks i w :
  faults w = [] ->
  Utils.save_chunks a key chunks i w
  = (Return tt, after_writes a (fragment_writes (Utils.chunk_key key) chunks i) w).
Proof.
  revert i w. induction chunks as [|c chunks IH]; intros i w Hf.
  - cbn [Utils.save_chunks fragment_writes]. by rewrite after_writes_nil.
  - rewrite save_chunks_cons. unfold bind.
    rewrite set_with_retries_fault_free by done.
    rewrite IH by done. cbn [fragment_writes].
    by rewrite after_writes_app.
Qed.

Lemma saveWithChunks_fault_free compress key data useLocal z chunks w :
  faults w = [] ->
  Utils.compressData compress data = Return z ->
  ChunkCodec.split z Utils.chunkSize = Some chunks ->
  Utils.saveWithChunks compress key data useLocal w
  = (Return tt,
     after_writes (Utils.storage_area useLocal)
       (fragment_writes (Utils.chunk_key key) chunks 0 ++
        [(Utils.meta_key key, utils_meta (length chunks) (clock w))]) w).
Proof.
  intros Hf Hz Hc. unfold Utils.saveWithChunks.
  unfold bind at 1, lift at 1. rewrite Hz, Hc.
  unfold bind at 1. rewrite utils_save_chunks_fault_free by done.
  unfold bind, Date_now. rewrite storage_set_fault_free by done.
  by rewrite after_writes_app.
Qed.

Lemma after_reads_app a ks1 ks2 w :
  after_reads a ks2 (after_reads a ks1 w) = after_reads a (ks1 ++ ks2) w.
Proof.
  destruct w as [sy lo fs c tr]. unfold after_reads. simpl.
  by rewrite map_app, app_assoc.
Qed.

Lemma after_reads_store a b ks w : store_of b (after_reads a ks w) = store_of b w.
Proof. by destruct b. Qed.

Lemma load_chunks_run a key n i w :
  faults w = [] ->
  Utils.load_chunks a key n i w
  = (Return (map (fun k => default VUndefined (store_of a w !! k))
               (map (Utils.chunk_key key) (seq i n))),
     after_reads a (map (Utils.chunk_key key) (seq i n)) w).
Proof.
  revert i w. induction n as [|n IH]; intros i w Hf.
  - cbn. unfold ret, after_reads. destruct w. simpl. by rewrite app_nil_r.
  - cbn [Utils.load_chunks]. unfold bind at 1.
    rewrite get_with_retries_fault_free by done.
    change (World (sync w) (local w) [] (clock w)
              (trace w ++ [EvGet a (Utils.chunk_key key i) NoFault]))
      with (World (sync w) (local w) [] (clock w)
              (trace w ++ map (fun k => EvGet a k NoFault) [Utils.chunk_key key i])).
    rewrite <- Hf at 1. fold (after_reads a [Utils.chunk_key key i] w).
    unfold bind at 1. rewrite IH by done.
    unfold ret. rewrite after_reads_app, after_reads_store. reflexivity.
Qed.

(** [loadFromChunks] only reads. *)
Lemma loadFromChunks_snd decompress key useLocal w :
  faults w = [] ->
  exists keys,
    snd (Utils.loadFromChunks decompress key useLocal w)
    = after_reads (Utils.storage_area useLocal) keys w.
Proof.
  intros Hf. unfold Utils.loadFromChunks.
  unfold bind at 1. rewrite storage_get_fault_free by done.
  destruct (negb (truthy _)); [by eexists|].
  unfold bind at 1, lift at 1.
  destruct (member _ "chunks") as [count| | |]; try (by eexists).
  unfold bind at 1, lift at 1.
  destruct (to_number count) as [bound| | |]; try (by eexists).
  unfold bind. rewrite load_chunks_run by done.
  unfold lift. cbn [snd]. rewrite after_reads_app. by eexists.
Qed.

End utils_runs.

(** ** [saveWithChunks], [loadFromChunks], [storageSet], [storageGet] *)

Section utils_read_back.
Import Json Storage Observations Runs.

Variable LZMA_compress : list Z -> Z -> outcome (list Z).
Variable LZMA_decompress : list Z -> outcome (list Z).

Lemma utils_meta_ne_key key : Utils.meta_key key <> key.
Proof.
  unfold Utils.meta_key. intros E. apply (f_equal String.length) in E.
  rewrite str_app_length in E. simpl in E. lia.
Qed.

Lemma utils_chunk_key_ne_key key i : Utils.chunk_key key i <> key.
Proof.
  unfold Utils.chunk_key. intros E. apply (f_equal String.length) in E.
  rewrite !str_app_length in E. simpl in E. lia.
Qed.

(** What [loadFromChunks] returns when no call fails, read off the store. *)
Lemma loadFromChunks_fst key useLocal w :
  faults w = [] ->
  fst (Utils.loadFromChunks LZMA_decompress key useLocal w)
  = let store := store_of (Utils.storage_area useLocal) w in
    let meta := default VUndefined (store !! Utils.meta_key key) in
    if negb (truthy meta) then Return VNull
    else
      try! count := member meta "chunks" in
      try! bound := to_number count in
      let n := match bound with Some z => Z.to_nat z | None => 0 end in
      Utils.decompressData LZMA_decompress
        (VStr (Json.join ""
                 (map (fun k => default VUndefined (store !! k))
                    (map (Utils.chunk_key key) (seq 0 n))))).
Proof.
  intros Hf. unfold Utils.loadFromChunks. cbv zeta.
  unfold bind at 1. rewrite storage_get_fault_free by done.
  destruct (negb (truthy _)); [done|].
  unfold bind at 1, lift at 1.
  destruct (member _ "chunks") as [count| | |]; try done.
  unfold bind at 1, lift at 1. cbn [obind].
  destruct (to_number count) as [bound| | |]; try done.
  unfold bind. cbn [obind].
  set (n := match bound with Some z => Z.to_nat z | None => 0 end).
  pose proof (load_chunks_fault_free (Utils.storage_area useLocal) key n 0
                (after_reads (Utils.storage_area useLocal) [Utils.meta_key key] w))
    as H1.
  destruct (Utils.load_chunks _ key n 0 (after_reads _ _ w)) as [r1 w1'].
  cbn [fst] in H1. rewrite H1 by done.
  unfold lift. cbn [fst]. by destruct useLocal.
Qed.

(** What [loadFromChunks] returns depends on the entry [<key>_meta] and on
    the entries [<key>_chunk_<i>] only. *)
Lemma loadFromChunks_agree key useLocal w1 w2 :
  faults w1 = [] -> faults w2 = [] ->
  store_of (Utils.storage_area useLocal) w1 !! Utils.meta_key key
  = store_of (Utils.storage_area useLocal) w2 !! Utils.meta_key key ->
  (forall i, store_of (Utils.storage_area useLocal) w1 !! Utils.chunk_key key i
             = store_of (Utils.storage_area useLocal) w2 !! Utils.chunk_key key i) ->
  fst (Utils.loadFromChunks LZMA_decompress key useLocal w1)
  = fst (Utils.loadFromChunks LZMA_decompress key useLocal w2).
Proof.
  intros Hf1 Hf2 Hm Hc. rewrite !loadFromChunks_fst by done. cbv zeta.
  rewrite Hm. destruct (negb (truthy _)); [done|].
  destruct (member _ "chunks") as [count| | |]; try done. cbn [obind].
  destruct (to_number count) as [bound| | |]; try done. cbn [obind].
  do 3 f_equal. apply map_ext_in. intros k Hk.
  apply in_map_iff in Hk as (i & <- & _). by rewrite Hc.
Qed.

(** X5. What [saveWithChunks] stored, [loadFromChunks] reads back: it
    returns what [decompressData] makes of the text that [compressData]
    made of the data, whatever the area held before, when no storage call
    fails. *)
Theorem saveWithChunks_then_loadFromChunks (key : string) (data : value)
  (useLocal : bool) (z : string) (w : world) :
  faults w = [] ->
  Utils.compressData LZMA_compress data = Return z ->
  fst (Utils.saveWithChunks LZMA_compress key data useLocal w) = Return tt /\
  fst (Utils.loadFromChunks LZMA_decompress key useLocal
         (snd (Utils.saveWithChunks LZMA_compress key data useLocal w)))
  = Utils.decompressData LZMA_decompress (VStr z).
Proof.
  intros Hf Hz.
  destruct (split_total z Utils.chunkSize) as [chunks Hc]; [apply chunkSize_pos|].
  rewrite (saveWithChunks_fault_free _ key data useLocal z chunks w Hf Hz Hc).
  cbn [fst snd]. split; [done|].
  set (a := Utils.storage_area useLocal).
  set (frags := fragment_writes (Utils.chunk_key key) chunks 0).
  rewrite (loadFromChunks_fault_free LZMA_decompress key useLocal
             [("chunks", VNum (Z.of_nat (length chunks)));
              ("timestamp", VNum (clock w))] (length chunks)).
  - do 2 f_equal. fold a.
    rewrite (omap_fragments _ (Utils.chunk_key key) chunks 0).
    + rewrite join_item_fragments.
      apply (split_join_id _ Utils.chunkSize); [apply chunkSize_pos | done].
    + intros n c Hn. rewrite after_writes_store, apply_writes_app.
      cbn [apply_writes foldl fst snd].
      rewrite lookup_insert_ne
        by (intros E; symmetry in E; by apply utils_chunk_key_ne_meta in E).
      by apply (fragment_writes_lookup _ (utils_chunk_key_inj key)).
  - done.
  - fold a. rewrite after_writes_store. by rewrite apply_writes_snoc.
  - done.
Qed.

End utils_read_back.

Lemma saveWithChunks_then_loadFromChunks_witness :
  fst (Utils.saveWithChunks Scenarios.stored_compress "k"
         (Json.VStr Scenarios.raw_bytes) false Scenarios.empty_world)
  = Json.Return tt /\
  fst (Utils.loadFromChunks Scenarios.stored_decompress "k" false
         (snd (Utils.saveWithChunks Scenarios.stored_compress "k"
                 (Json.VStr Scenarios.raw_bytes) false Scenarios.empty_world)))
  = Utils.decompressData Scenarios.stored_decompress
      (Json.VStr (default ""
         match Utils.compressData Scenarios.stored_compress
                 (Json.VStr Scenarios.raw_bytes) with
         | Json.Return z => Some z
         | _ => None
         end)).
Proof.
  apply (saveWithChunks_then_loadFromChunks Scenarios.stored_compress
           Scenarios.stored_decompress "k" (Json.VStr Scenarios.raw_bytes) false);
    reflexivity.
Defined.

Section storage_get_set.
Import Json Storage Observations Runs.

Variable LZMA_compress : list Z -> Z -> outcome (list Z).
Variable LZMA_decompress : list Z -> outcome (list Z).

(** What [storageGet] returns when no call fails, read off the store. *)
Lemma storageGet_fst key useLocal w :
  faults w = [] ->
  fst (Utils.storageGet LZMA_decompress key useLocal w)
  = try! chunkedData := fst (Utils.loadFromChunks LZMA_decompress key useLocal w) in
    if truthy chunkedData then Return chunkedData
    else
      let result :=
        default VUndefined (store_of (Utils.storage_area useLocal) w !! key) in
      if negb (truthy result) then Return VNull
      else Utils.decompressData LZMA_decompress result.
Proof.
  intros Hf. unfold Utils.storageGet. unfold bind at 1.
  destruct (loadFromChunks_snd LZMA_decompress key useLocal w Hf) as [keys Hw].
  destruct (Utils.loadFromChunks LZMA_decompress key useLocal w)
    as [[chunkedData| | |] w'] eqn:Hrun; cbn [fst snd obind] in *; try done.
  subst w'. destruct (truthy chunkedData); [done|].
  unfold bind. rewrite storage_get_fault_free by done.
  rewrite after_reads_store. cbv zeta.
  by destruct (negb (truthy _)).
Qed.

Lemma storageSet_unfold key v useLocal z w :
  Utils.compressData LZMA_compress v = Return z ->
  Utils.storageSet LZMA_compress key v useLocal w
  = if 8000 <? String.length z
    then Utils.saveWithChunks LZMA_compress key v useLocal w
    else storage_set (Utils.storage_area useLocal) key (VStr z) w.
Proof.
  intros Hz. unfold Utils.storageSet, bind, lift. rewrite Hz.
  by destruct (_ <? _).
Qed.

(** X6. A value stored by [storageSet] is what [storageGet] returns,
    provided the compressed text is not empty, the value that comes out of
    [decompressData] is truthy and, for a text that fits in one entry, no
    [<key>_meta] entry is in the area. *)
Theorem storageSet_then_storageGet (key : string) (v v' : value)
  (useLocal : bool) (z : string) (w : world) :
  faults w = [] ->
  Utils.compressData LZMA_compress v = Return z ->
  z <> "" ->
  Utils.decompressData LZMA_decompress (VStr z) = Return v' ->
  truthy v' = true ->
  (String.length z <= 8000 ->
   store_of (Utils.storage_area useLocal) w !! Utils.meta_key key = None) ->
  fst (Utils.storageSet LZMA_compress key v useLocal w) = Return tt /\
  fst (Utils.storageGet LZMA_decompress key useLocal
         (snd (Utils.storageSet LZMA_compress key v useLocal w)))
  = Return v'.
Proof.
  intros Hf Hz Hne Hd Ht Hmeta. rewrite (storageSet_unfold key v useLocal z w Hz).
  destruct (Nat.ltb_spec 8000 (String.length z)) as [Hbig|Hsmall].
  - destruct (saveWithChunks_then_loadFromChunks LZMA_compress LZMA_decompress
                key v useLocal z w Hf Hz) as [Hs Hl].
    split; [done|].
    rewrite storageGet_fst.
    + rewrite Hl, Hd. cbn [obind]. by rewrite Ht.
    + destruct (split_total z Utils.chunkSize) as [chunks Hc];
        [apply chunkSize_pos|].
      by rewrite (saveWithChunks_fault_free _ key v useLocal z chunks w Hf Hz Hc).
  - rewrite storage_set_fault_free by done. cbn [fst snd]. split; [done|].
    rewrite storageGet_fst by done.
    rewrite loadFromChunks_fst by done. cbv zeta.
    rewrite !after_writes_store. cbn [apply_writes foldl fst snd].
    rewrite lookup_insert_ne by (intros E; symmetry in E; by apply utils_meta_ne_key in E).
    rewrite (Hmeta Hsmall). cbn [default from_option id truthy negb obind].
    rewrite lookup_insert_eq. cbn [default from_option id truthy negb].
    destruct (String.eqb_spec z "") as [E|_]; [done|]. cbn [negb]. exact Hd.
Qed.

(** X7. A [<key>_meta] entry left by an earlier chunked save hides what
    [storageSet] stores in one entry: as long as [loadFromChunks] returns
    a truthy value for the key, [storageGet] returns that value, before and
    after the [storageSet]. *)
Theorem stale_chunks_hide_storageSet (key : string) (v old : value)
  (useLocal : bool) (z : string) (w : world) :
  faults w = [] ->
  Utils.compressData LZMA_compress v = Return z ->
  String.length z <= 8000 ->
  fst (Utils.loadFromChunks LZMA_decompress key useLocal w) = Return old ->
  truthy old = true ->
  fst (Utils.storageSet LZMA_compress key v useLocal w) = Return tt /\
  store_of (Utils.storage_area useLocal)
    (snd (Utils.storageSet LZMA_compress key v useLocal w)) !! key
  = Some (VStr z) /\
  fst (Utils.storageGet LZMA_decompress key useLocal
         (snd (Utils.storageSet LZMA_compress key v useLocal w)))
  = Return old.
Proof.
  intros Hf Hz Hsmall Hold Ht. rewrite (storageSet_unfold key v useLocal z w Hz).
  destruct (Nat.ltb_spec 8000 (String.length z)) as [Hbig|_]; [lia|].
  rewrite storage_set_fault_free by done. cbn [fst snd].
  split; [done|]. split.
  - rewrite after_writes_store. cbn [apply_writes foldl fst snd].
    by rewrite lookup_insert_eq.
  - rewrite storageGet_fst by done.
    rewrite (loadFromChunks_agree LZMA_decompress key useLocal _ w); try done.
    + rewrite Hold. cbn [obind]. by rewrite Ht.
    + rewrite after_writes_store. cbn [apply_writes foldl fst snd].
      by rewrite lookup_insert_ne
        by (intros E; symmetry in E; by apply utils_meta_ne_key in E).
    + intros i. rewrite after_writes_store. cbn [apply_writes foldl fst snd].
      by rewrite lookup_insert_ne
        by (intros E; symmetry in E; by apply utils_chunk_key_ne_key in E).
Qed.

(** X8. [storageGet] and [loadFromChunks] on a key of which the area has
    nothing return [null], after two reads and one read, and write
    nothing. *)
Theorem storageGet_of_missing_key (key : string) (useLocal : bool) (w : world) :
  faults w = [] ->
  store_of (Utils.storage_area useLocal) w !! Utils.meta_key key = None ->
  store_of (Utils.storage_area useLocal) w !! key = None ->
  Utils.loadFromChunks LZMA_decompress key useLocal w
  = (Return VNull,
     after_reads (Utils.storage_area useLocal) [Utils.meta_key key] w) /\
  Utils.storageGet LZMA_decompress key useLocal w
  = (Return VNull,
     after_reads (Utils.storage_area useLocal) [Utils.meta_key key; key] w).
Proof.
  intros Hf Hm Hk.
  assert (Utils.loadFromChunks LZMA_decompress key useLocal w
          = (Return VNull,
             after_reads (Utils.storage_area useLocal) [Utils.meta_key key] w))
    as Hl.
  { unfold Utils.loadFromChunks. unfold bind at 1.
    rewrite storage_get_fault_free by done. by rewrite Hm. }
  split; [done|].
  unfold Utils.storageGet. unfold bind at 1. rewrite Hl.
  cbn [truthy]. unfold bind. rewrite storage_get_fault_free by done.
  rewrite after_reads_store, Hk. cbn [default from_option id truthy negb].
  unfold ret. by rewrite after_reads_app.
Qed.

End storage_get_set.

Lemma storageSet_then_storageGet_witness :
  fst (Utils.storageSet Scenarios.stored_compress "k"
         (Json.VStr Scenarios.raw_bytes) false Scenarios.empty_world)
  = Json.Return tt /\
  fst (Utils.storageGet Scenarios.stored_decompress "k" false
         (snd (Utils.storageSet Scenarios.stored_compress "k"
                 (Json.VStr Scenarios.raw_bytes) false Scenarios.empty_world)))
  = Json.Return (Json.VStr Scenarios.raw_bytes).
Proof.
  eapply (storageSet_then_storageGet Scenarios.stored_compress
            Scenarios.stored_decompress "k" (Json.VStr Scenarios.raw_bytes)
            (Json.VStr Scenarios.raw_bytes) false _ Scenarios.empty_world).
  - reflexivity.
  - reflexivity.
  - intros E. vm_compute in E. discriminate.
  - vm_compute. reflexivity.
  - reflexivity.
  - intros _. reflexivity.
Defined.

Lemma stale_chunks_hide_storageSet_witness :
  fst (Utils.storageSet Scenarios.stored_compress "profile_work_example.com"
         (Json.VStr "x") false Scenarios.half_record_world)
  = Json.Return tt /\
  Storage.store_of Storage.Sync
    (snd (Utils.storageSet Scenarios.stored_compress "profile_work_example.com"
            (Json.VStr "x") false Scenarios.half_record_world))
    !! "profile_work_example.com"
  = Some (Json.VStr "Ingi") /\
  fst (Utils.storageGet Scenarios.stored_decompress "profile_work_example.com"
         false
         (snd (Utils.storageSet Scenarios.stored_compress
                 "profile_work_example.com" (Json.VStr "x") false
                 Scenarios.half_record_world)))
  = Json.Return (Json.VNum 12).
Proof.
  apply (stale_chunks_hide_storageSet Scenarios.stored_compress
           Scenarios.stored_decompress "profile_work_example.com"
           (Json.VStr "x") (Json.VNum 12) false "Ingi"
           Scenarios.half_record_world).
  - reflexivity.
  - vm_compute. reflexivity.
  - vm_compute. lia.
  - vm_compute. reflexivity.
  - reflexivity.
Defined.

Lemma storageGet_of_missing_key_witness :
  Utils.loadFromChunks Scenarios.stored_decompress "k" false Scenarios.empty_world
  = (Json.Return Json.VNull,
     Runs.after_reads Storage.Sync ["k_meta"] Scenarios.empty_world) /\
  Utils.storageGet Scenarios.stored_decompress "k" false Scenarios.empty_world
  = (Json.Return Json.VNull,
     Runs.after_reads Storage.Sync ["k_meta"; "k"] Scenarios.empty_world).
Proof.
  apply (storageGet_of_missing_key Scenarios.stored_decompress "k" false
           Scenarios.empty_world); reflexivity.
Defined.

(** ** What [cleanupStorage] never does *)

Section sweep_safety.
Import Json Storage Observations Background.

Local Opaque keys_to_remove as_keys.

Lemma cleanupStorage_effect w :
  (fst (cleanupStorage w) = Return tt \/ fst (cleanupStorage w) = Halt \/
   fst (cleanupStorage w) = Unmodelled) /\
  local (snd (cleanupStorage w)) = local w /\
  clock (snd (cleanupStorage w)) = clock w /\
  (sync (snd (cleanupStorage w)) = sync w \/
   exists keys, sync (snd (cleanupStorage w)) = remove_keys keys (sync w)) /\
  ((exists f, trace (snd (cleanupStorage w)) = trace w ++ [EvGetAll Sync f]) \/
   (exists keys f,
      trace (snd (cleanupStorage w))
      = trace w ++ [EvGetAll Sync NoFault; EvRemove Sync keys f])).
Proof.
  destruct (cleanupStorage w) as [r w'] eqn:Hrun. cbn [fst snd].
  destruct w as [sy lo fs c tr].
  unfold cleanupStorage, try_catch, bind, storage_get_all, Date_now, lift,
    ret, throw, storage_remove, next_fault, log in Hrun.
  cbn [sync clock local trace].
  destruct fs as [|[|e|] fs]; cbn in Hrun.
  - destruct (keys_to_remove sy c) as [[|x toRemove]| | |] eqn:Hk; cbn in Hrun;
      try (injection Hrun as <- <-; cbn; split_and!; eauto).
    destruct (as_keys (x :: toRemove)) as [keys|] eqn:Ha; cbn in Hrun;
      injection Hrun as <- <-; cbn; split_and!; eauto.
    right. exists keys, NoFault. by rewrite <- app_assoc.
  - destruct (keys_to_remove sy c) as [[|x toRemove]| | |] eqn:Hk; cbn in Hrun;
      try (injection Hrun as <- <-; cbn; split_and!; eauto).
    destruct (as_keys (x :: toRemove)) as [keys|] eqn:Ha; cbn in Hrun;
      [|injection Hrun as <- <-; cbn; split_and!; eauto].
    destruct fs as [|[|e|] fs]; cbn in Hrun; injection Hrun as <- <-; cbn;
      split_and!; eauto; right; eexists keys, _; by rewrite <- app_assoc.
  - injection Hrun as <- <-; cbn; split_and!; eauto.
  - injection Hrun as <- <-; cbn; split_and!; eauto.
Qed.

Local Transparent keys_to_remove as_keys.

(** X9. [cleanupStorage] never throws, never touches
    [chrome.storage.local], and never adds or changes an entry of
    [chrome.storage.sync]: every entry found after it was there before,
    with the same value. It makes one read of the whole area and at most
    one [remove]. *)
Theorem cleanupStorage_only_removes (w : world) :
  (forall e, fst (cleanupStorage w) <> Throw e) /\
  local (snd (cleanupStorage w)) = local w /\
  (forall k v, sync (snd (cleanupStorage w)) !! k = Some v ->
               sync w !! k = Some v) /\
  ((exists f, trace (snd (cleanupStorage w)) = trace w ++ [EvGetAll Sync f]) \/
   (exists keys f,
      trace (snd (cleanupStorage w))
      = trace w ++ [EvGetAll Sync NoFault; EvRemove Sync keys f])).
Proof.
  destruct (cleanupStorage_effect w) as (Hr & Hl & _ & Hs & Ht).
  split_and!; try done.
  - intros e He. destruct Hr as [Hr|[Hr|Hr]]; congruence.
  - intros k v Hk. destruct Hs as [Hs|[keys Hs]]; rewrite Hs in Hk; [done|].
    rewrite remove_keys_lookup in Hk. by destruct (decide (k ∈ keys)).
Qed.

End sweep_safety.

(** ** [verifySaveSuccess] *)

Section verify.
Import Json Storage Observations Background.

Lemma storage_get_any a k w :
  exists f,
    f = hd NoFault (faults w) /\
    snd (storage_get a k w)
    = World (sync w) (local w) (tail (faults w)) (clock w)
        (trace w ++ [EvGet a k f]) /\
    fst (storage_get a k w)
    = match f with
      | NoFault => Return (default VUndefined (store_of a w !! k))
      | Fails e => Throw (StorageError e)
      | Crash => Halt
      end.
Proof.
  destruct w as [sy lo [|[|e|] fs] c tr]; unfold storage_get; simpl;
    eexists; (split; [reflexivity|]); by destruct a.
Qed.

Lemma verifySaveSuccess_run profileName domain originalData w :
  snd (verifySaveSuccess profileName domain originalData w)
  = World (sync w) (local w) (tail (faults w)) (clock w)
      (trace w ++ [EvGet Sync (profile_key profileName (getMainDomain domain))
                     (hd NoFault (faults w))]) /\
  ((exists b, fst (verifySaveSuccess profileName domain originalData w) = Return b)
   \/ (fst (verifySaveSuccess profileName domain originalData w) = Halt /\
       hd NoFault (faults w) = Crash)).
Proof.
  destruct (verifySaveSuccess profileName domain originalData w) as [r w'] eqn:Hrun.
  cbn [fst snd]. unfold verifySaveSuccess, try_catch in Hrun.
  unfold bind at 1 in Hrun.
  destruct (storage_get_any Sync (profile_key profileName (getMainDomain domain)) w)
    as (f & -> & Hw & Hr).
  destruct (storage_get Sync _ w) as [r1 w1]. cbn [fst snd] in Hw, Hr. subst w1 r1.
  destruct (hd NoFault (faults w)) as [|e|];
    [|injection Hrun as <- <-; eauto|injection Hrun as <- <-; eauto].
  revert Hrun.
  generalize (default VUndefined
                (store_of Sync w !! profile_key profileName (getMainDomain domain))).
  intros saved.
  unfold bind, lift, ret, member, opt_member, length_of, or_else.
  repeat (cbn;
          match goal with
          | |- context [match ?x with _ => _ end] => is_var x; destruct x
          end).
  all: repeat (cbn;
          match goal with
          | |- context [match ?x with _ => _ end] =>
              match type of x with
              | value => destruct x
              | bool => destruct x
              | list _ => destruct x
              end
          end).
  all: cbn; intros [= <- <-]; eauto.
Qed.

(** X10. [verifySaveSuccess] never throws and changes neither storage
    area: it makes one read, of the profile key in
    [chrome.storage.sync], and returns a boolean, [false] when the read is
    refused or when nothing truthy is under the key. *)
Theorem verifySaveSuccess_reads_once (profileName domain : string)
  (originalData : value) (w : world) :
  let key := profile_key profileName (getMainDomain domain) in
  let run := verifySaveSuccess profileName domain originalData w in
  sync (snd run) = sync w /\
  local (snd run) = local w /\
  trace (snd run) = trace w ++ [EvGet Sync key (hd NoFault (faults w))] /\
  (forall e, fst run <> Throw e) /\
  (forall e, hd NoFault (faults w) = Fails e -> fst run = Return false) /\
  (hd NoFault (faults w) = NoFault ->
   truthy (default VUndefined (sync w !! key)) = false ->
   fst run = Return false).
Proof.
  intros key run. subst key run.
  destruct (verifySaveSuccess_run profileName domain originalData w) as [Hw Hr].
  rewrite Hw. cbn [sync local trace]. split_and!; try done.
  - intros e He. destruct Hr as [[b Hb]|[Hh _]]; congruence.
  - intros e He. unfold verifySaveSuccess, try_catch. unfold bind at 1.
    destruct (storage_get_any Sync (profile_key profileName (getMainDomain domain)) w)
      as (f & -> & Hw1 & Hr1).
    destruct (storage_get Sync _ w) as [r w1]. cbn [fst snd] in *.
    rewrite He in Hr1. by subst r.
  - intros Hf Hk. unfold verifySaveSuccess, try_catch. unfold bind at 1.
    rewrite storage_get_run by done. cbn [store_of]. by rewrite Hk.
Qed.

End verify.

(** ** [trySaveProfile] *)

Section try_save.
Import Json Storage Observations Background.

Lemma bind_returns {A B} (m : M A) (k : A -> M B) w v :
  fst (bind m k w) = Return v ->
  exists a w', m w = (Return a, w') /\ fst (k a w') = Return v.
Proof.
  unfold bind. destruct (m w) as [[a| | |] w']; try done.
  intros H. by exists a, w'.
Qed.


(** X11. [trySaveProfile] never reports a failure: it never throws, and
    what it returns is [true] or the object [{success: true, warning:
    'Saved to local storage only'}], both truthy, so the test [!success]
    of its caller never holds. *)
Theorem trySaveProfile_never_fails (profileName domain : string) (data : value)
  (w : world) :
  (forall e, fst (trySaveProfile profileName domain data w) <> Throw e) /\
  (forall v, fst (trySaveProfile profileName domain data w) = Return v ->
             (v = VBool true \/
              v = VObj [("success", VBool true);
                        ("warning", VStr "Saved to local storage only")]) /\
             truthy v = true).
Proof.
  destruct (trySaveProfile profileName domain data w) as [r w'] eqn:Hrun.
  unfold trySaveProfile, try_catch at 1 in Hrun. cbn [fst].
  match type of Hrun with
  | context [match ?body w with _ => _ end] => set (run := body w) in Hrun
  end.
  assert (forall v, fst run = Return v -> v = VBool true) as Hbody.
  { intros v H. subst run.
    repeat (apply bind_returns in H as (? & ? & _ & H)).
    cbn in H. congruence. }
  destruct run as [[v|e| |] w1]; cbn [fst ret] in *; injection Hrun as <- <-.
  - split; [done|]. intros v' [= <-]. rewrite (Hbody v eq_refl). by split; [left|].
  - split; [done|]. intros v' [= <-]. by split; [right|].
  - by split.
  - by split.
Qed.

(** X12. When the read of the sweep and the write to
    [chrome.storage.local] are both refused, [trySaveProfile] has saved
    nothing, in either area, and still returns an object whose [success]
    is [true]. *)
Theorem trySaveProfile_success_with_nothing_saved (profileName domain : string)
  (data : value) (e1 e2 : storage_error) (fs : list fault) (w : world) :
  faults w = Fails e1 :: Fails e2 :: fs ->
  fst (trySaveProfile profileName domain data w)
  = Return (VObj [("success", VBool true);
                  ("warning", VStr "Saved to local storage only")]) /\
  sync (snd (trySaveProfile profileName domain data w)) = sync w /\
  local (snd (trySaveProfile profileName domain data w)) = local w.
Proof.
  destruct w as [sy lo fs0 c tr]. cbn [faults sync local]. intros ->.
  destruct (trySaveProfile _ _ _ _) as [r w'] eqn:Hrun.
  unfold trySaveProfile, try_catch at 1 in Hrun. unfold bind at 1 in Hrun.
  unfold cleanupStorage, try_catch at 1, bind at 1, storage_get_all in Hrun.
  cbn [next_fault faults fst snd log] in Hrun.
  unfold ret at 1 in Hrun. unfold bind at 1, storage_set in Hrun.
  cbn in Hrun. by injection Hrun as <- <-.
Qed.

End try_save.

(** ** The sweep before a save *)

Section sweep_before_save.
Import Json Storage Observations Background Runs.

Lemma readable_as_keys storage now toRemove :
  readable storage = true ->
  keys_to_remove storage now = Return toRemove ->
  exists keys, as_keys toRemove = Some keys.
Proof.
  intros Hr Hk. apply as_keys_total.
  intros x Hx. apply (keys_to_remove_inv _ _ _ Hk) in Hx
    as [(q & v & l & Hq & Hp & _ & Hl & Hin)|(k' & -> & _)]; [|done].
  rewrite evicted_with_readable in Hl by (by apply (readable_spec _ Hr q)).
  injection Hl as <-. apply elem_of_cons in Hin as [-> |Hin]; [done|].
  destruct (is_chunked v); [|by apply elem_of_nil in Hin].
  by apply list_elem_of_fmap in Hin as (k' & -> & _).
Qed.

Local Opaque keys_to_remove as_keys.

(** The sweep on a readable store, when no call fails. *)
Lemma cleanupStorage_returns w :
  faults w = [] ->
  readable (sync w) = true ->
  exists w1,
    cleanupStorage w = (Return tt, w1) /\
    faults w1 = [] /\ local w1 = local w /\ clock w1 = clock w /\
    (forall k, sync w1 !! k
               = if swept (sync w) (clock w) k then None else sync w !! k).
Proof.
  intros Hf Hr.
  destruct (keys_to_remove_total (sync w) (clock w) Hr) as [toRemove Hk].
  destruct (readable_as_keys _ _ _ Hr Hk) as [keys Ha].
  assert (forall k, sync (snd (cleanupStorage w)) !! k
                    = if swept (sync w) (clock w) k then None else sync w !! k)
    as Hsync.
  { intros k.
    rewrite (cleanupStorage_fault_free w toRemove keys) by (done || by rewrite Hf).
    rewrite remove_keys_lookup.
    pose proof (marked_iff_swept (sync w) (clock w) toRemove k Hr Hk) as Hiff.
    rewrite <- (as_keys_elem_of _ _ Ha) in Hiff.
    destruct (decide (k ∈ keys)) as [Hin|Hnin].
    - by rewrite (proj1 Hiff Hin).
    - destruct (swept (sync w) (clock w) k); [|done].
      by destruct Hnin; apply Hiff. }
  destruct (cleanupStorage w) as [r w1] eqn:Hrun. cbn [snd] in Hsync.
  exists w1. destruct w as [sy lo fs c tr]. cbn [faults sync local clock] in *.
  subst fs.
  unfold cleanupStorage, try_catch, bind, storage_get_all, Date_now, lift,
    ret, throw, storage_remove, next_fault, log in Hrun.
  cbn in Hrun. rewrite Hk in Hrun. cbn in Hrun.
  destruct toRemove as [|x toRemove]; cbn in Hrun.
  - by injection Hrun as <- <-.
  - rewrite Ha in Hrun. cbn in Hrun. by injection Hrun as <- <-.
Qed.

Local Transparent keys_to_remove as_keys.

End sweep_before_save.

Section chunked_profile.
Import Json Storage Observations Background Runs.

Lemma domain_profiles_key_ne_profile_key mainDomain profileName mainDomain' :
  domain_profiles_key mainDomain <> profile_key profileName mainDomain'.
Proof. unfold domain_profiles_key, profile_key. discriminate. Qed.

(** A profile too large for one item, saved by [trySaveProfile] when no
    call fails: the entry under the profile key is the Metadata of
    [saveWithChunking]. *)
Lemma trySaveProfile_chunked_run profileName domain data stringified w :
  faults w = [] ->
  readable (sync w) = true ->
  JSON.stringify data = Some stringified ->
  CHROME_SYNC_QUOTA_BYTES_PER_ITEM < String.length stringified ->
  exists chunkCount chunkKeys,
    (exists v, fst (trySaveProfile profileName domain data w) = Return v /\
               truthy v = true) /\
    faults (snd (trySaveProfile profileName domain data w)) = [] /\
    sync (snd (trySaveProfile profileName domain data w))
      !! profile_key profileName (getMainDomain domain)
    = Some (metadata chunkCount chunkKeys (clock w)) /\
    local (snd (trySaveProfile profileName domain data w))
      !! profile_key profileName (getMainDomain domain)
    = Some data.
Proof.
  intros Hf Hr Hs Hbig.
  destruct (cleanupStorage_returns w Hf Hr) as (w1 & Hclean & Hf1 & Hl1 & Hc1 & _).
  destruct (split_total stringified CHUNK_SIZE) as [chunks Hc];
    [apply CHUNK_SIZE_pos|].
  set (pkey := profile_key profileName (getMainDomain domain)).
  exists (length chunks), (map (chunk_key pkey) (seq 0 (length chunks))).
  destruct (trySaveProfile profileName domain data w) as [r w'] eqn:Hrun.
  cbn [fst snd]. unfold trySaveProfile, try_catch at 1 in Hrun.
  unfold bind at 1 in Hrun. rewrite Hclean in Hrun.
  unfold bind at 1 in Hrun. rewrite storage_set_fault_free in Hrun by done.
  unfold bind at 1, try_catch at 1 in Hrun. rewrite Hs in Hrun.
  apply Nat.ltb_lt in Hbig. rewrite Hbig in Hrun.
  unfold bind at 1 in Hrun.
  rewrite (saveWithChunking_fault_free _ data stringified chunks) in Hrun
    by done.
  unfold ret at 1 in Hrun. fold pkey in Hrun.
  cbn [sync local clock trace after_writes apply_writes foldl fst snd] in Hrun.
  rewrite Hc1 in Hrun.
  set (w2 := World _ _ _ _ _) in Hrun.
  assert (faults w2 = []) as Hf2 by done.
  assert (sync w2 !! pkey
          = Some (metadata (length chunks)
                    (map (chunk_key pkey) (seq 0 (length chunks))) (clock w)))
    as Hs2 by (subst w2; cbn [sync]; by rewrite lookup_insert_eq).
  assert (local w2 !! pkey = Some data) as Hl2
    by (subst w2; cbn [local]; by rewrite lookup_insert_eq).
  clearbody w2.
  unfold bind at 1 in Hrun. rewrite storage_get_fault_free in Hrun by done.
  unfold bind at 1, lift at 1 in Hrun.
  set (domainProfiles := or_else _ _) in Hrun.
  destruct domainProfiles as [| | | |s|names|]; cbn [includes] in Hrun;
    try (injection Hrun as <- <-; rewrite ?after_reads_store;
         split_and!; by eauto).
  - destruct (JsString.str_includes profileName s); cbn [negb] in Hrun;
      unfold bind, throw, ret in Hrun; injection Hrun as <- <-;
      split_and!; by eauto.
  - destruct (existsb _ names); cbn [negb] in Hrun.
    + unfold bind, ret in Hrun. injection Hrun as <- <-. split_and!; by eauto.
    + unfold bind at 1 in Hrun. unfold bind at 1, Date_now in Hrun.
      rewrite storage_set_fault_free in Hrun by done.
      unfold bind, ret in Hrun. injection Hrun as <- <-.
      split_and!; try done; [by eauto|].
      cbn [sync after_writes apply_writes foldl fst snd after_reads].
      rewrite lookup_insert_ne by apply domain_profiles_key_ne_profile_key.
      done.
Qed.

(** X13. A profile whose JSON text is too long for one item and that has
    at least one cookie never passes the verification that follows its
    save: [trySaveProfile] leaves the Metadata of the fragments under the
    profile key, which has no [cookies], and [verifySaveSuccess] counts
    zero cookies against those of the profile and returns [false],
    although the save went through and the full profile is in
    [chrome.storage.local]. *)
Theorem chunked_profile_fails_verification (profileName domain : string)
  (data : value) (stringified : string) (cookie : value) (cookies : list value)
  (w : world) :
  faults w = [] ->
  readable (sync w) = true ->
  JSON.stringify data = Some stringified ->
  CHROME_SYNC_QUOTA_BYTES_PER_ITEM < String.length stringified ->
  member data "cookies" = Return (VArr (cookie :: cookies)) ->
  (exists v, fst (trySaveProfile profileName domain data w) = Return v /\
             truthy v = true) /\
  local (snd (trySaveProfile profileName domain data w))
    !! profile_key profileName (getMainDomain domain) = Some data /\
  fst (verifySaveSuccess profileName domain data
         (snd (trySaveProfile profileName domain data w)))
  = Return false.
Proof.
  intros Hf Hr Hs Hbig Hcookies.
  destruct (trySaveProfile_chunked_run profileName domain data stringified w
              Hf Hr Hs Hbig) as (n & keys & Hv & Hf' & Hs' & Hl').
  split_and!; try done.
  unfold verifySaveSuccess, try_catch. unfold bind at 1.
  rewrite storage_get_fault_free by done. cbn [store_of]. rewrite Hs'.
  cbn [default from_option id metadata truthy negb].
  unfold bind at 1, lift at 1. cbn [member assoc String.eqb Ascii.eqb Bool.eqb].
  unfold bind at 1, lift at 1. rewrite Hcookies.
  unfold bind at 1, lift at 1. cbn [or_else truthy length_of length].
  unfold bind at 1, lift at 1. cbn [length_of strict_eq negb].
  destruct (Z.eqb_spec (Z.of_nat 0) (Z.of_nat (length (cookie :: cookies))))
    as [E|_]; [simpl in E; lia|].
  done.
Qed.

End chunked_profile.

Lemma chunked_profile_fails_verification_witness :
  (exists v,
     fst (Background.trySaveProfile "work" "example.com" Cases.large_profile
            Scenarios.empty_world) = Json.Return v /\
     Json.truthy v = true) /\
  Storage.local
    (snd (Background.trySaveProfile "work" "example.com" Cases.large_profile
            Scenarios.empty_world))
    !! Background.profile_key "work" (Background.getMainDomain "example.com")
  = Some Cases.large_profile /\
  fst (Background.verifySaveSuccess "work" "example.com" Cases.large_profile
         (snd (Background.trySaveProfile "work" "example.com"
                 Cases.large_profile Scenarios.empty_world)))
  = Json.Return false.
Proof.
  eapply (chunked_profile_fails_verification "work" "example.com"
            Cases.large_profile _ _ _ Scenarios.empty_world).
  - reflexivity.
  - reflexivity.
  - reflexivity.
  - apply Nat.ltb_lt. vm_compute. reflexivity.
  - reflexivity.
Defined.

Lemma trySaveProfile_success_with_nothing_saved_witness :
  fst (Background.trySaveProfile "work" "example.com" Scenarios.collected
         Cases.refusing_world)
  = Json.Return
      (Json.VObj [("success", Json.VBool true);
                  ("warning", Json.VStr "Saved to local storage only")]) /\
  Storage.sync
    (snd (Background.trySaveProfile "work" "example.com" Scenarios.collected
            Cases.refusing_world))
  = Storage.sync Cases.refusing_world /\
  Storage.local
    (snd (Background.trySaveProfile "work" "example.com" Scenarios.collected
            Cases.refusing_world))
  = Storage.local Cases.refusing_world.
Proof.
  apply (trySaveProfile_success_with_nothing_saved "work" "example.com"
           Scenarios.collected Json.QuotaExceeded Json.QuotaExceeded []
           Cases.refusing_world).
  reflexivity.
Defined.

Section domain_list.
Import Json Storage Observations Background Runs.




End domain_list.


(** ** [reduceDataSize] *)

Section reduce.
Import Json Storage Observations Background.

Lemma assoc_set_field_eq k v fields : assoc k (JSON.set_field k v fields) = v.
Proof.
  induction fields as [|[k' v'] fields IH]; cbn.
  - by rewrite String.eqb_refl.
  - destruct (String.eqb k' k) eqn:E; cbn; by rewrite E.
Qed.

Lemma assoc_set_field_ne k k0 v fields :
  k0 <> k -> assoc k0 (JSON.set_field k v fields) = assoc k0 fields.
Proof.
  intros Hne. induction fields as [|[k' v'] fields IH]; cbn.
  - by destruct (String.eqb_spec k k0) as [->|_].
  - destruct (String.eqb_spec k' k) as [->|Hk]; cbn.
    + by destruct (String.eqb_spec k k0) as [->|_].
    + by rewrite IH.
Qed.

(** What the filter and the map of lines 703-716 keep. *)
Lemma reduce_cookies_spec cookies kept :
  reduce_cookies cookies = Return kept ->
  length kept <= length cookies /\
  (forall c, c ∈ kept ->
     exists fields name,
       VObj fields ∈ cookies /\
       assoc "name" fields = VStr name /\
       is_auth_name (VStr name) = Return true /\
       c = VObj [("name", VStr name); ("value", assoc "value" fields);
                 ("domain", assoc "domain" fields); ("path", assoc "path" fields);
                 ("secure", assoc "secure" fields);
                 ("httpOnly", assoc "httpOnly" fields)]) /\
  (forall fields name,
     VObj fields ∈ cookies -> assoc "name" fields = VStr name ->
     is_auth_name (VStr name) = Return true ->
     VObj [("name", VStr name); ("value", assoc "value" fields);
           ("domain", assoc "domain" fields); ("path", assoc "path" fields);
           ("secure", assoc "secure" fields);
           ("httpOnly", assoc "httpOnly" fields)] ∈ kept).
Proof.
  revert kept. induction cookies as [|cookie cookies IH]; intros kept H.
  - injection H as <-. split_and!; [done| |].
    + intros c Hc. by apply elem_of_nil in Hc.
    + intros f n Hin. by apply elem_of_nil in Hin.
  - cbn [reduce_cookies] in H.
    destruct (member cookie "name") as [name| | |] eqn:Hname; try done.
    cbn [obind] in H.
    destruct (is_auth_name name) as [keep| | |] eqn:Hkeep; try done.
    cbn [obind] in H.
    destruct (reduce_cookies cookies) as [rest'| | |]; try done.
    cbn [obind] in H. destruct (IH rest' eq_refl) as (Hlen & Hin & Hall).
    destruct name as [| | | |name| |]; try done.
    destruct cookie as [| | | | | |fields]; try done.
    cbn [member] in Hname. injection Hname as Hname.
    destruct keep.
    + cbn [member obind] in H. injection H as <-. split_and!.
      * simpl. lia.
      * intros c [-> |Hc]%elem_of_cons.
        -- exists fields, name. split_and!; try done. by left.
        -- destruct (Hin c Hc) as (f & n & Hf & Hn & Ha & ->).
           exists f, n. split_and!; try done. by right.
      * intros f n [E|Hf]%elem_of_cons Hn Ha.
        -- injection E as ->. rewrite Hname in Hn. injection Hn as <-. by left.
        -- right. by apply Hall.
    + injection H as <-. split_and!.
      * simpl. lia.
      * intros c Hc. destruct (Hin c Hc) as (f & n & Hf & Hn & Ha & ->).
        exists f, n. split_and!; try done. by right.
      * intros f n [E|Hf]%elem_of_cons Hn Ha.
        -- injection E as ->. rewrite Hname in Hn. injection Hn as <-.
           congruence.
        -- by apply Hall.
Qed.

(** X15. What [reduceDataSize] returns for a profile whose JSON text is
    longer than one item: the cookies of the result are the cookies of the
    profile whose name has [auth], [token] or [session] in it, each cut
    down to its six properties, none added and none of those dropped; and
    every property of the profile other than [cookies] and [storage] is
    as it was. *)
Theorem reduceDataSize_keeps_auth_cookies (fields : list (string * value))
  (cookies : list value) (stringified : string) (r : value) :
  JSON.stringify (VObj fields) = Some stringified ->
  CHROME_SYNC_QUOTA_BYTES_PER_ITEM < String.length stringified ->
  assoc "cookies" fields = VArr cookies ->
  reduceDataSize (VObj fields) = Return r ->
  exists rfields kept,
    r = VObj rfields /\
    assoc "cookies" rfields = VArr kept /\
    length kept <= length cookies /\
    (forall c, c ∈ kept ->
       exists cfields name,
         VObj cfields ∈ cookies /\
         assoc "name" cfields = VStr name /\
         is_auth_name (VStr name) = Return true /\
         c = VObj [("name", VStr name); ("value", assoc "value" cfields);
                   ("domain", assoc "domain" cfields);
                   ("path", assoc "path" cfields);
                   ("secure", assoc "secure" cfields);
                   ("httpOnly", assoc "httpOnly" cfields)]) /\
    (forall cfields name,
       VObj cfields ∈ cookies -> assoc "name" cfields = VStr name ->
       is_auth_name (VStr name) = Return true ->
       VObj [("name", VStr name); ("value", assoc "value" cfields);
             ("domain", assoc "domain" cfields); ("path", assoc "path" cfields);
             ("secure", assoc "secure" cfields);
             ("httpOnly", assoc "httpOnly" cfields)] ∈ kept) /\
    (forall k, k <> "cookies" -> k <> "storage" ->
               assoc k rfields = assoc k fields).
Proof.
  intros Hs Hbig Hc Hr. unfold reduceDataSize in Hr. rewrite Hs in Hr.
  destruct (Nat.leb_spec (String.length stringified)
              CHROME_SYNC_QUOTA_BYTES_PER_ITEM) as [Hle|_]; [lia|].
  rewrite Hc in Hr.
  destruct (reduce_cookies cookies) as [kept| | |] eqn:Hk; try done.
  cbn [obind] in Hr.
  destruct (reduce_cookies_spec cookies kept Hk) as (Hlen & Hin & Hall).
  destruct (JSON.stringify (VObj (JSON.set_field "cookies" (VArr kept) fields)))
    as [stringified'|]; [|done].
  destruct (CHROME_SYNC_QUOTA_BYTES_PER_ITEM <? String.length stringified').
  - destruct (opt_member (assoc "storage" fields) "page") as [page| | |];
      try done.
    cbn [obind] in Hr.
    destruct (opt_member page "localStorage") as [ls| | |]; try done.
    cbn [obind] in Hr.
    destruct (or_else ls (VObj [])) as [| | | | | |entries]; try done.
    + injection Hr as <-. eexists _, kept. split; [done|].
      split_and!; try done.
      * by rewrite assoc_set_field_ne, assoc_set_field_eq.
      * intros k Hk1 Hk2. by rewrite !assoc_set_field_ne.
    + injection Hr as <-. eexists _, kept. split; [done|].
      split_and!; try done.
      * by rewrite assoc_set_field_ne, assoc_set_field_eq.
      * intros k Hk1 Hk2. by rewrite !assoc_set_field_ne.
    + destruct (reduce_entries entries) as [kept'| | |]; try done.
      injection Hr as <-. eexists _, kept. split; [done|].
      split_and!; try done.
      * by rewrite assoc_set_field_ne, assoc_set_field_eq.
      * intros k Hk1 Hk2. by rewrite !assoc_set_field_ne.
  - injection Hr as <-. eexists _, kept. split; [done|].
    split_and!; try done.
    + by rewrite assoc_set_field_eq.
    + intros k Hk1 Hk2. by rewrite assoc_set_field_ne.
Qed.

End reduce.

Lemma reduceDataSize_keeps_auth_cookies_witness :
  exists r rfields kept,
    Background.reduceDataSize Cases.large_profile = Json.Return r /\
    r = Json.VObj rfields /\
    Json.assoc "cookies" rfields = Json.VArr kept /\
    length kept <= 1.
Proof.
  eexists.
  assert (Background.reduceDataSize Cases.large_profile = Json.Return _) as Hr
    by (vm_compute; reflexivity).
  edestruct (reduceDataSize_keeps_auth_cookies Cases.large_profile_fields
               [Cases.session_cookie]) as
    (rfields & kept & Hrf & Hk & Hlen & _);
    [reflexivity | apply Nat.ltb_lt; vm_compute; reflexivity | reflexivity
    | exact Hr |].
  exists rfields, kept. split_and!; [exact Hr | exact Hrf | exact Hk | exact Hlen].
Defined.

(** ** [cleanupOldSessions] *)

Section old_sessions.
Import Json Storage Observations Sessions.

Local Abbreviation not_older :=
  (fun x y : string * value =>
     (timestamp_or_zero y.2 <= timestamp_or_zero x.2)%Z).

Lemma insert_Permutation x l : insert x l ≡ₚ x :: l.
Proof.
  induction l as [|y l IH]; cbn [insert]; [done|].
  destruct (_ <? _)%Z; [done|]. rewrite IH. apply Permutation_swap.
Qed.

Lemma insert_sorted x l :
  StronglySorted not_older l -> StronglySorted not_older (insert x l).
Proof.
  induction 1 as [|y l Hl IH Hy]; cbn [insert].
  - by repeat constructor.
  - destruct (Z.ltb_spec (timestamp_or_zero y.2) (timestamp_or_zero x.2))
      as [Hlt|Hge].
    + constructor; [by constructor|].
      constructor; [simpl; lia|].
      eapply Forall_impl; [exact Hy|]. intros z Hz. simpl in *. lia.
    + constructor; [done|]. rewrite insert_Permutation.
      constructor; [simpl; lia | done].
Qed.

Lemma sort_newest_first_spec entries :
  sort_newest_first entries ≡ₚ entries /\
  StronglySorted not_older (sort_newest_first entries).
Proof.
  unfold sort_newest_first.
  assert (forall acc, StronglySorted not_older acc ->
            foldl (fun sorted x => insert x sorted) acc entries ≡ₚ acc ++ entries /\
            StronglySorted not_older
              (foldl (fun sorted x => insert x sorted) acc entries)) as H.
  { induction entries as [|x entries IH]; intros acc Hacc; cbn [foldl].
    - by rewrite app_nil_r.
    - destruct (IH (insert x acc) (insert_sorted x acc Hacc)) as [Hp Hs].
      split; [|done]. rewrite Hp, insert_Permutation.
      cbn. apply Permutation_middle. }
  destruct (H [] (SSorted_nil _)) as [Hp Hs]. by split.
Qed.

Lemma NoDup_fst_filter (f : string * value -> bool) l :
  NoDup l.*1 -> NoDup (List.filter f l).*1.
Proof.
  induction l as [|[k v] l IH]; cbn; [done|].
  intros [Hk Hl]%NoDup_cons. destruct (f (k, v)); cbn; [|by apply IH].
  apply NoDup_cons. split; [|by apply IH].
  intros Hin. apply Hk. apply list_elem_of_fmap in Hin as ([k' v'] & -> & Hin).
  apply list_elem_of_fmap. exists (k', v'). split; [done|].
  apply list_elem_of_In in Hin. apply filter_In in Hin as [Hin _].
  by apply list_elem_of_In.
Qed.

Lemma session_entries_spec storage k v :
  (k, v) ∈ session_entries storage <->
  storage !! k = Some v /\ JsString.startsWith "session_" k = true.
Proof.
  unfold session_entries. rewrite list_elem_of_In, filter_In, <- list_elem_of_In.
  by rewrite elem_of_map_to_list.
Qed.

Lemma session_entries_NoDup storage : NoDup (session_entries storage).*1.
Proof. apply NoDup_fst_filter, NoDup_fst_map_to_list. Qed.

(** X16. [cleanupOldSessions], when no call fails and the sessions have
    numeric timestamps: of the entries under [session_] keys it keeps
    fifty, or all of them when there are fewer, and removes the others;
    no session that is removed is newer than one that is kept; the
    entries under other keys and [chrome.storage.local] are left as they
    were. *)
Theorem cleanupOldSessions_keeps_newest (w : world) :
  faults w = [] ->
  forallb (fun kv => bool_decide (is_Some (timestamp kv.2)))
    (session_entries (sync w)) = true ->
  fst (cleanupOldSessions w) = Return tt /\
  local (snd (cleanupOldSessions w)) = local w /\
  (forall k, JsString.startsWith "session_" k = false ->
             sync (snd (cleanupOldSessions w)) !! k = sync w !! k) /\
  exists kept removed,
    kept ++ removed ≡ₚ session_entries (sync w) /\
    length kept = Nat.min MAX_SESSIONS (length (session_entries (sync w))) /\
    (forall k v, (k, v) ∈ kept ->
                 sync (snd (cleanupOldSessions w)) !! k = Some v) /\
    (forall k v, (k, v) ∈ removed ->
                 sync (snd (cleanupOldSessions w)) !! k = None) /\
    (forall x y, x ∈ kept -> y ∈ removed ->
                 (timestamp_or_zero y.2 <= timestamp_or_zero x.2)%Z).
Proof.
  intros Hf Hts.
  destruct (cleanupOldSessions w) as [r w'] eqn:Hrun. cbn [fst snd].
  destruct w as [sy lo fs c tr]. cbn [faults sync local] in *. subst fs.
  unfold cleanupOldSessions, bind, storage_get_all in Hrun.
  cbn [next_fault faults log store_of sync fst snd] in Hrun.
  set (entries := session_entries sy) in *.
  destruct (sort_newest_first_spec entries) as [Hperm Hsorted].
  destruct (Nat.leb_spec (length entries) 1) as [Hle|Hgt].
  - injection Hrun as <- <-. cbn [sync local]. split_and!; try done.
    exists entries, []. rewrite app_nil_r. split_and!; try done.
    + unfold MAX_SESSIONS. lia.
    + intros k v Hin. by apply session_entries_spec in Hin as [? _].
    + intros k v Hin. by apply elem_of_nil in Hin.
    + intros x y _ Hy. by apply elem_of_nil in Hy.
  - rewrite Hts in Hrun.
    assert (length (sort_newest_first entries) = length entries) as Hlen
      by (by rewrite Hperm).
    destruct (Nat.ltb_spec MAX_SESSIONS (length (sort_newest_first entries)))
      as [Hmany|Hfew].
    + unfold storage_remove in Hrun.
      cbn [next_fault faults log store_of sync with_store local clock trace]
        in Hrun.
      injection Hrun as <- <-. cbn [sync local].
      set (sorted := sort_newest_first entries) in *.
      assert (NoDup sorted.*1) as Hnd.
      { rewrite Hperm. apply session_entries_NoDup. }
      rewrite <- (take_drop MAX_SESSIONS sorted) in Hnd, Hperm, Hsorted.
      rewrite fmap_app in Hnd. apply NoDup_app in Hnd as (_ & Hdisj & _).
      split_and!; try done.
      * intros k Hk. rewrite remove_keys_lookup.
        destruct (decide (k ∈ map fst (drop MAX_SESSIONS sorted))) as [Hin|_];
          [|done].
        apply list_elem_of_fmap in Hin as ([k' v'] & -> & Hin).
        assert ((k', v') ∈ entries) as He.
        { rewrite <- Hperm. apply elem_of_app. by right. }
        apply session_entries_spec in He as [_ He]. simpl in Hk. congruence.
      * exists (take MAX_SESSIONS sorted), (drop MAX_SESSIONS sorted).
        split_and!; try done.
        -- rewrite length_take. lia.
        -- intros k v Hin. rewrite remove_keys_lookup.
           destruct (decide (k ∈ map fst (drop MAX_SESSIONS sorted))) as [Hr|_].
           ++ exfalso. apply (Hdisj k); [|done].
              apply list_elem_of_fmap. by exists (k, v).
           ++ assert ((k, v) ∈ entries) as He.
              { rewrite <- Hperm. apply elem_of_app. by left. }
              by apply session_entries_spec in He as [? _].
        -- intros k v Hin. rewrite remove_keys_lookup.
           destruct (decide (k ∈ map fst (drop MAX_SESSIONS sorted))) as [_|Hn];
             [done|].
           destruct Hn. apply list_elem_of_fmap. by exists (k, v).
        -- intros x y Hx Hy.
           by apply (StronglySorted_app_1_elem_of _ _ _ x y Hsorted).
    + injection Hrun as <- <-. cbn [sync local]. split_and!; try done.
      exists (sort_newest_first entries), []. rewrite app_nil_r.
      split_and!; try done.
      * rewrite Hlen in *. lia.
      * intros k v Hin. rewrite Hperm in Hin.
        by apply session_entries_spec in Hin as [? _].
      * intros k v Hin. by apply elem_of_nil in Hin.
      * intros x y _ Hy. by apply elem_of_nil in Hy.
Qed.

End old_sessions.

Lemma cleanupOldSessions_keeps_newest_witness :
  fst (Sessions.cleanupOldSessions Cases3.crowded_world) = Json.Return tt /\
  length (Sessions.session_entries (Storage.sync Cases3.crowded_world)) = 52 /\
  Storage.sync (snd (Sessions.cleanupOldSessions Cases3.crowded_world))
    !! "session_1700000000000" = None /\
  Storage.sync (snd (Sessions.cleanupOldSessions Cases3.crowded_world))
    !! "profile_work_example.com" = Some Scenarios.collected.
Proof.
  destruct (cleanupOldSessions_keeps_newest Cases3.crowded_world)
    as (Hr & _ & Hother & _); [reflexivity | vm_compute; reflexivity |].
  split_and!.
  - exact Hr.
  - vm_compute. reflexivity.
  - vm_compute. reflexivity.
  - rewrite Hother by reflexivity. vm_compute. reflexivity.
Defined.

(** ** [exportSession] and [importSession] *)

Section sharing.
Import Json Storage Observations Web Sharing Runs.

Lemma nat_of_ascii_bound c : nat_of_ascii c < 256.
Proof. destruct c as [[|] [|] [|] [|] [|] [|] [|] [|]]; vm_compute; lia. Qed.

Lemma has_char_of_list c l :
  Forall (fun a => Ascii.eqb a c = false) l ->
  Labels.has_char c (string_of_list_ascii l) = false.
Proof. induction 1 as [|a l Ha _ IH]; [done|]. cbn. by rewrite Ha, IH. Qed.

Lemma base64_char_not_comma n : n < 64 -> Ascii.eqb (base64_char n) "," = false.
Proof. intros H. do 64 (destruct n as [|n]; [reflexivity|]). lia. Qed.

Lemma base64_no_comma bytes :
  Forall (fun b => b < 256) bytes ->
  Labels.has_char "," (string_of_list_ascii (base64_encode bytes)) = false.
Proof.
  intros Hb. apply has_char_of_list. unfold base64_encode.
  apply Forall_app. split.
  - pose proof (base64_sextets_bound _ Hb) as Hsx.
    induction Hsx as [|v sx Hv _ IH]; constructor; [|done].
    by apply base64_char_not_comma.
  - destruct (base64_padding_cases (length bytes)) as [-> | [-> | ->]];
      repeat constructor.
Qed.

Lemma TextEncoder_bytes s :
  Forall (fun b => b < 256) (map Z.to_nat (TextEncoder_encode s)).
Proof.
  induction s as [|c s IH]; [constructor|].
  cbn [TextEncoder_encode]. pose proof (nat_of_ascii_bound c) as Hc.
  destruct (Z.ltb_spec (Z.of_nat (nat_of_ascii c)) 128) as [Hlt|Hge]; cbn [map].
  - constructor; [lia | done].
  - assert (0 <= Z.of_nat (nat_of_ascii c) / 64 < 4)%Z as Hq.
    { split; [apply Z.div_pos; lia | apply Z.div_lt_upper_bound; lia]. }
    pose proof (Z.mod_pos_bound (Z.of_nat (nat_of_ascii c)) 64) as Hm.
    constructor; [lia|]. constructor; [lia | done].
Qed.

(** What [atob] makes of the base64 form of the UTF-8 bytes of a text:
    one character per byte. *)
Lemma atob_base64_text text :
  atob (string_of_list_ascii
          (base64_encode (map Z.to_nat (TextEncoder_encode text))))
  = Return (string_of_list_ascii (map char_of (TextEncoder_encode text))).
Proof.
  unfold atob. rewrite atob_base64_encode by apply TextEncoder_bytes.
  cbn [obind]. do 2 f_equal. rewrite !map_map. apply map_ext_in.
  intros x Hx. unfold char_of. by rewrite Nat2Z.id.
Qed.

Lemma ascii_text_bytes text :
  is_ascii_text text = true ->
  string_of_list_ascii (map char_of (TextEncoder_encode text)) = text.
Proof.
  induction text as [|c s IH]; [done|]. cbn [is_ascii_text TextEncoder_encode].
  intros [Hc Hs]%andb_prop. apply Nat.ltb_lt in Hc.
  destruct (Z.ltb_spec (Z.of_nat (nat_of_ascii c)) 128) as [_|Hge]; [|lia].
  cbn [map string_of_list_ascii]. rewrite IH by done. f_equal.
  unfold char_of. by rewrite Nat2Z.id, ascii_nat_embedding.
Qed.

Lemma TextEncoder_length text :
  String.length text <= length (TextEncoder_encode text) /\
  (is_ascii_text text = false ->
   String.length text < length (TextEncoder_encode text)).
Proof.
  induction text as [|c s [IH1 IH2]]; [by split|].
  cbn [is_ascii_text TextEncoder_encode String.length].
  destruct (Z.ltb_spec (Z.of_nat (nat_of_ascii c)) 128) as [Hlt|Hge];
    cbn [length].
  - split; [lia|]. intros H.
    assert ((nat_of_ascii c <? 128) = true) as Hc by (apply Nat.ltb_lt; lia).
    rewrite Hc in H. cbn in H. apply IH2 in H. lia.
  - split; [lia|]. intros _. lia.
Qed.

Lemma string_of_list_length l : String.length (string_of_list_ascii l) = length l.
Proof. induction l as [|a l IH]; [done|]. cbn. by rewrite IH. Qed.

(** The [data:] URL cut at its comma. *)
Lemma readAsDataURL_split text :
  JsString.split "," (readAsDataURL "application/json" text) !! 1
  = Some (string_of_list_ascii
            (base64_encode (map Z.to_nat (TextEncoder_encode text)))).
Proof.
  set (b64 := string_of_list_ascii _).
  change (readAsDataURL "application/json" text)
    with (JsString.join "," ["data:application/json;base64"; b64]).
  rewrite split_join; [done | done |].
  constructor; [reflexivity|]. constructor; [|constructor].
  apply base64_no_comma, TextEncoder_bytes.
Qed.

Lemma exportSession_run sessionKey session text w :
  faults w = [] ->
  sync w !! sessionKey = Some session ->
  truthy session = true ->
  JSON.stringify (exportData (clock w) session) = Some text ->
  exportSession sessionKey w
  = (Return (VStr (string_of_list_ascii
                     (base64_encode (map Z.to_nat (TextEncoder_encode text))))),
     after_reads Sync [sessionKey] w).
Proof.
  intros Hf Hk Ht Hs. unfold exportSession. unfold bind at 1.
  rewrite storage_get_fault_free by done. cbn [store_of]. rewrite Hk.
  cbn [default from_option id]. rewrite Ht.
  unfold bind, Date_now. cbn [clock after_reads]. rewrite Hs.
  unfold ret. by rewrite readAsDataURL_split.
Qed.

(** X17. The text that [importSession] parses is the UTF-8 form of the
    text that [exportSession] wrote, read one character per byte: it is
    the exported text exactly when that text is ASCII. A session with any
    other character in a title or a URL is not imported as it was
    exported. *)
Theorem exported_text_read_per_byte (sessionKey : string) (session : value)
  (text : string) (w : world) :
  faults w = [] ->
  sync w !! sessionKey = Some session ->
  truthy session = true ->
  JSON.stringify (exportData (clock w) session) = Some text ->
  exists encoded,
    fst (exportSession sessionKey w) = Return (VStr encoded) /\
    atob encoded
    = Return (string_of_list_ascii (map char_of (TextEncoder_encode text))) /\
    (string_of_list_ascii (map char_of (TextEncoder_encode text)) = text
     <-> is_ascii_text text = true).
Proof.
  intros Hf Hk Ht Hs.
  rewrite (exportSession_run sessionKey session text w Hf Hk Ht Hs).
  eexists. split; [done|]. split; [apply atob_base64_text|].
  split; [|apply ascii_text_bytes].
  intros E. destruct (is_ascii_text text) eqn:Ha; [done|].
  apply (f_equal String.length) in E.
  rewrite string_of_list_length, length_map in E.
  destruct (TextEncoder_length text) as [_ Hlt]. specialize (Hlt Ha). lia.
Qed.

Lemma importSession_run encoded text v session w :
  faults w = [] ->
  atob encoded = Return text ->
  JSON.parse text = Return v ->
  member v "version" = Return (VStr "1.0") ->
  member v "session" = Return session ->
  truthy session = true ->
  importSession (VStr encoded) w
  = (Return (VStr ("session_" +:+ pretty (clock w))),
     after_writes Sync [("session_" +:+ pretty (clock w), session)] w).
Proof.
  intros Hf Ha Hp Hv Hs Ht.
  unfold importSession, try_catch. unfold bind at 1, lift at 1.
  cbn [to_string]. rewrite Ha.
  unfold bind at 1, lift at 1. rewrite Hp.
  unfold bind at 1, lift at 1. rewrite Hv.
  unfold bind at 1, lift at 1. rewrite Hs.
  cbn [strict_eq]. rewrite String.eqb_refl, Ht. cbn [andb].
  unfold bind at 1, Date_now.
  unfold bind. rewrite storage_set_fault_free by done.
  reflexivity.
Qed.

(** X18. A session exported by [exportSession] and given to
    [importSession] is stored again, as it was, under a new key
    [session_<now>], which [importSession] returns, when the exported text
    is ASCII and [JSON.parse] reads it back. *)
Theorem exportSession_then_importSession (sessionKey : string)
  (session : value) (text : string) (w : world) :
  faults w = [] ->
  sync w !! sessionKey = Some session ->
  truthy session = true ->
  JSON.stringify (exportData (clock w) session) = Some text ->
  is_ascii_text text = true ->
  JSON.parse text = Return (exportData (clock w) session) ->
  exists encoded,
    fst (exportSession sessionKey w) = Return (VStr encoded) /\
    sync (snd (exportSession sessionKey w)) = sync w /\
    fst (importSession (VStr encoded) (snd (exportSession sessionKey w)))
    = Return (VStr ("session_" +:+ pretty (clock w))) /\
    sync (snd (importSession (VStr encoded) (snd (exportSession sessionKey w))))
    = <["session_" +:+ pretty (clock w) := session]> (sync w).
Proof.
  intros Hf Hk Ht Hs Ha Hp.
  rewrite (exportSession_run sessionKey session text w Hf Hk Ht Hs).
  eexists. cbn [fst snd]. split; [done|]. split; [done|].
  rewrite (importSession_run _ text (exportData (clock w) session) session);
    try done.
  rewrite atob_base64_text. by rewrite (ascii_text_bytes text Ha).
Qed.

(** X19. [importSession] never throws, whatever it is given: a text that
    is not base64, that is not JSON, or a write that is refused, give
    [null]. It never touches [chrome.storage.local], and either leaves
    [chrome.storage.sync] as it was or adds one entry, under the key
    [session_<now>] that it returns. *)
Theorem importSession_writes_one_session (encodedData : value) (w : world) :
  (forall e, fst (importSession encodedData w) <> Throw e) /\
  local (snd (importSession encodedData w)) = local w /\
  (sync (snd (importSession encodedData w)) = sync w \/
   exists session,
     fst (importSession encodedData w)
     = Return (VStr ("session_" +:+ pretty (clock w))) /\
     sync (snd (importSession encodedData w))
     = <["session_" +:+ pretty (clock w) := session]> (sync w)).
Proof.
  destruct (importSession encodedData w) as [r w'] eqn:Hrun. cbn [fst snd].
  unfold importSession, try_catch in Hrun.
  unfold bind at 1, lift at 1 in Hrun.
  destruct (atob (to_string encodedData)) as [jsonStr| | |];
    try (injection Hrun as <- <-; split_and!; by eauto).
  unfold bind at 1, lift at 1 in Hrun.
  destruct (JSON.parse jsonStr) as [importData| | |];
    try (injection Hrun as <- <-; split_and!; by eauto).
  unfold bind at 1, lift at 1 in Hrun.
  destruct (member importData "version") as [version| | |];
    try (injection Hrun as <- <-; split_and!; by eauto).
  unfold bind at 1, lift at 1 in Hrun.
  destruct (member importData "session") as [session| | |];
    try (injection Hrun as <- <-; split_and!; by eauto).
  destruct (strict_eq version (VStr "1.0") && truthy session);
    [|injection Hrun as <- <-; split_and!; by eauto].
  unfold bind at 1, Date_now in Hrun. unfold bind, ret in Hrun.
  destruct (storage_set_run Sync ("session_" +:+ pretty (clock w)) session w)
    as (f & _ & _ & _ & _ & Hf).
  destruct (storage_set Sync _ session w) as [r1 w1]. cbn [fst snd] in Hf.
  destruct f as [|e|].
  - destruct Hf as (-> & Hs & Ho). injection Hrun as <- <-.
    split_and!; [done | by apply (Ho Local) |].
    right. exists session. split; [done|]. exact Hs.
  - destruct Hf as (-> & Ho). injection Hrun as <- <-.
    split_and!; [done | by apply (Ho Local) | left; by apply (Ho Sync)].
  - destruct Hf as (-> & Ho). injection Hrun as <- <-.
    split_and!; [done | by apply (Ho Local) | left; by apply (Ho Sync)].
Qed.

End sharing.

Lemma exportSession_then_importSession_witness :
  exists encoded,
    fst (Sharing.exportSession "session_1" Cases4.shared_world)
    = Json.Return (Json.VStr encoded) /\
    Storage.sync (snd (Sharing.exportSession "session_1" Cases4.shared_world))
    = Storage.sync Cases4.shared_world /\
    fst (Sharing.importSession (Json.VStr encoded)
           (snd (Sharing.exportSession "session_1" Cases4.shared_world)))
    = Json.Return (Json.VStr ("session_" +:+ pretty 1700000005000%Z)) /\
    Storage.sync
      (snd (Sharing.importSession (Json.VStr encoded)
              (snd (Sharing.exportSession "session_1" Cases4.shared_world))))
    = <["session_" +:+ pretty 1700000005000%Z
        := Cases4.session_with_title "Example"]>
        (Storage.sync Cases4.shared_world).
Proof.
  assert (Storage.sync Cases4.shared_world !! "session_1"
          = Some (Cases4.session_with_title "Example")) as Hk
    by (vm_compute; reflexivity).
  assert (exists text,
            JSON.stringify (Sharing.exportData 1700000005000
                              (Cases4.session_with_title "Example")) = Some text /\
            Sharing.is_ascii_text text = true /\
            JSON.parse text
            = Json.Return (Sharing.exportData 1700000005000
                             (Cases4.session_with_title "Example")))
    as (text & Hs & Ha & Hp).
  { eexists. split; [vm_compute; reflexivity|].
    split; vm_compute; reflexivity. }
  exact (exportSession_then_importSession "session_1"
           (Cases4.session_with_title "Example") text Cases4.shared_world
           eq_refl Hk eq_refl Hs Ha Hp).
Defined.

Lemma exported_text_read_per_byte_witness :
  exists encoded text,
    JSON.stringify (Sharing.exportData 1700000005000
                      (Cases4.session_with_title Cases4.cafe)) = Some text /\
    fst (Sharing.exportSession "session_2" Cases4.shared_world)
    = Json.Return (Json.VStr encoded) /\
    Sharing.atob encoded <> Json.Return text.
Proof.
  assert (Storage.sync Cases4.shared_world !! "session_2"
          = Some (Cases4.session_with_title Cases4.cafe)) as Hk
    by (vm_compute; reflexivity).
  assert (exists text,
            JSON.stringify (Sharing.exportData 1700000005000
                              (Cases4.session_with_title Cases4.cafe)) = Some text /\
            Sharing.is_ascii_text text = false)
    as (text & Hs & Hna).
  { eexists. split; vm_compute; reflexivity. }
  destruct (exported_text_read_per_byte "session_2"
              (Cases4.session_with_title Cases4.cafe) text Cases4.shared_world
              eq_refl Hk eq_refl Hs)
    as (encoded & He & Ha & Hiff).
  exists encoded, text. split; [exact Hs|]. split; [exact He|].
  rewrite Ha. intros E.
  assert (forall a b : string, Json.Return a = Json.Return b -> a = b) as Hinj
    by (intros a b [= ->]; reflexivity).
  apply Hinj, Hiff in E. rewrite Hna in E. discriminate E.
Defined.

(** ** What the storage utilities leave as it was *)

Section frame.
Import Json Storage Observations Frame.

Variable P : world -> Prop.
Variable may_write : area -> string -> Prop.

Hypothesis P_get : forall a k, preserves P (storage_get a k).
Hypothesis P_sleep : forall ms, preserves P (sleep ms).
Hypothesis P_set : forall a k v, may_write a k -> preserves P (storage_set a k v).

Lemma preserves_ret {A} (x : A) : preserves P (ret x).
Proof. by intros w. Qed.

Lemma preserves_lift {A} (o : outcome A) : preserves P (lift o).
Proof. by intros w. Qed.

Lemma preserves_throw {A} e : preserves P (@throw A e).
Proof. by intros w. Qed.

Lemma preserves_Date_now : preserves P Date_now.
Proof. by intros w. Qed.

Lemma preserves_bind {A B} (m : M A) (k : A -> M B) :
  preserves P m -> (forall x, preserves P (k x)) -> preserves P (bind m k).
Proof.
  intros Hm Hk w Hw. specialize (Hm w Hw). unfold bind.
  destruct (m w) as [[x| | |] w']; cbn [snd] in *; try done.
  by apply Hk.
Qed.

Lemma preserves_try_catch {A} (m : M A) (h : error -> M A) :
  preserves P m -> (forall e, preserves P (h e)) -> preserves P (try_catch m h).
Proof.
  intros Hm Hh w Hw. specialize (Hm w Hw). unfold try_catch.
  destruct (m w) as [[x|e| |] w']; cbn [snd] in *; try done.
  by apply Hh.
Qed.

Lemma preserves_set_with_retries fuel a k v retries :
  may_write a k ->
  preserves P (Utils.set_with_retries fuel a k v retries).
Proof.
  intros Hk. revert retries. induction fuel as [|fuel IH]; intros retries;
    cbn [Utils.set_with_retries]; destruct (retries <? Utils.maxRetries);
    try apply preserves_ret; try apply preserves_lift.
  apply preserves_try_catch; [by apply P_set|].
  intros e. destruct (S retries =? Utils.maxRetries); [apply preserves_throw|].
  apply preserves_bind; [apply P_sleep | intros _; apply IH].
Qed.

Lemma preserves_get_with_retries fuel a k retries :
  preserves P (Utils.get_with_retries fuel a k retries).
Proof.
  revert retries. induction fuel as [|fuel IH]; intros retries;
    cbn [Utils.get_with_retries]; destruct (retries <? Utils.maxRetries);
    try apply preserves_ret; try apply preserves_lift.
  apply preserves_try_catch; [apply P_get|].
  intros e. destruct (S retries =? Utils.maxRetries); [apply preserves_throw|].
  apply preserves_bind; [apply P_sleep | intros _; apply IH].
Qed.

Lemma preserves_save_chunks a key chunks i :
  (forall j, may_write a (Utils.chunk_key key j)) ->
  preserves P (Utils.save_chunks a key chunks i).
Proof.
  intros Hk. revert i. induction chunks as [|c chunks IH]; intros i;
    cbn [Utils.save_chunks]; [apply preserves_ret|].
  apply preserves_bind; [by apply preserves_set_with_retries | intros _; apply IH].
Qed.

Lemma preserves_load_chunks a key n i :
  preserves P (Utils.load_chunks a key n i).
Proof.
  revert i. induction n as [|n IH]; intros i; cbn [Utils.load_chunks];
    [apply preserves_ret|].
  apply preserves_bind; [apply preserves_get_with_retries|]. intros chunk.
  apply preserves_bind; [apply IH|]. intros chunks. apply preserves_ret.
Qed.

Lemma preserves_saveWithChunks compress key data useLocal :
  (forall j, may_write (Utils.storage_area useLocal) (Utils.chunk_key key j)) ->
  may_write (Utils.storage_area useLocal) (Utils.meta_key key) ->
  preserves P (Utils.saveWithChunks compress key data useLocal).
Proof.
  intros Hc Hm. unfold Utils.saveWithChunks.
  apply preserves_bind; [apply preserves_lift|]. intros compressed.
  destruct (ChunkCodec.split compressed Utils.chunkSize) as [chunks|];
    [|apply preserves_lift].
  apply preserves_bind; [by apply preserves_save_chunks|]. intros _.
  apply preserves_bind; [apply preserves_Date_now|]. intros now.
  by apply P_set.
Qed.

Lemma preserves_loadFromChunks decompress key useLocal :
  preserves P (Utils.loadFromChunks decompress key useLocal).
Proof.
  unfold Utils.loadFromChunks.
  apply preserves_bind; [apply P_get|]. intros meta.
  destruct (negb (truthy meta)); [apply preserves_ret|].
  apply preserves_bind; [apply preserves_lift|]. intros count.
  apply preserves_bind; [apply preserves_lift|]. intros bound.
  apply preserves_bind; [apply preserves_load_chunks|]. intros chunks.
  apply preserves_lift.
Qed.

Lemma preserves_storageGet decompress key useLocal :
  preserves P (Utils.storageGet decompress key useLocal).
Proof.
  unfold Utils.storageGet.
  apply preserves_bind; [apply preserves_loadFromChunks|]. intros chunkedData.
  destruct (truthy chunkedData); [apply preserves_ret|].
  apply preserves_bind; [apply P_get|]. intros result.
  destruct (negb (truthy result)); [apply preserves_ret | apply preserves_lift].
Qed.

Lemma preserves_storageSet compress key v useLocal :
  (forall j, may_write (Utils.storage_area useLocal) (Utils.chunk_key key j)) ->
  may_write (Utils.storage_area useLocal) (Utils.meta_key key) ->
  may_write (Utils.storage_area useLocal) key ->
  preserves P (Utils.storageSet compress key v useLocal).
Proof.
  intros Hc Hm Hk. unfold Utils.storageSet.
  apply preserves_bind; [apply preserves_lift|]. intros compressed.
  destruct (8000 <? String.length compressed);
    [by apply preserves_saveWithChunks | by apply P_set].
Qed.

(** The second [saveProfileState], which writes the profile and the list
    of the profiles of the domain. *)
Lemma preserves_saveProfileState collectProfileData compress decompress
  profileName domain :
  (forall d, preserves P (collectProfileData d)) ->
  let pkey := Background.profile_key profileName (Background.getMainDomain domain) in
  let dkey := Background.domain_profiles_key (Background.getMainDomain domain) in
  may_write Local pkey ->
  (forall j, may_write Sync (Utils.chunk_key pkey j)) ->
  may_write Sync (Utils.meta_key pkey) ->
  (forall j, may_write Sync (Utils.chunk_key dkey j)) ->
  may_write Sync (Utils.meta_key dkey) ->
  may_write Sync dkey ->
  preserves P (Background.saveProfileState collectProfileData compress decompress
                 profileName domain).
Proof.
  intros Hcollect pkey dkey Hl Hpc Hpm Hdc Hdm Hd.
  unfold Background.saveProfileState. fold pkey dkey.
  apply preserves_try_catch; [|intros e; apply preserves_ret].
  destruct (String.eqb profileName "" || String.eqb domain "");
    [apply preserves_throw|].
  apply preserves_bind; [apply Hcollect|]. intros originalData.
  apply preserves_bind; [apply preserves_lift|]. intros compressed.
  apply preserves_bind.
  { destruct (_ <? _); [by apply (preserves_saveWithChunks _ pkey _ false)|].
    by apply P_set. }
  intros _. apply preserves_bind; [apply preserves_storageGet|]. intros stored.
  destruct (or_else stored (VArr [])); try apply preserves_throw.
  apply preserves_bind; [apply preserves_lift|]. intros found.
  apply preserves_bind; [|intros _; apply preserves_ret].
  destruct (negb found); [|apply preserves_ret].
  apply preserves_bind; [apply preserves_Date_now|]. intros now.
  by apply (preserves_storageSet _ dkey _ false).
Qed.

End frame.

(** ** What a save leaves for the popup *)

Section popup_keys.
Import Json Storage Observations Frame Runs.

Lemma holds_get a k v a' k' : preserves (holds a k v) (storage_get a' k').
Proof.
  intros w Hw. destruct (storage_get_any a' k' w) as (f & _ & -> & _).
  unfold holds in *. by destruct a.
Qed.

Lemma holds_sleep a k v ms : preserves (holds a k v) (sleep ms).
Proof. intros w Hw. unfold holds in *. by destruct a. Qed.

Lemma holds_set a k v a' k' v' :
  a' <> a \/ k' <> k -> preserves (holds a k v) (storage_set a' k' v').
Proof.
  intros Hne w Hw. unfold holds in *.
  destruct (storage_set_run a' k' v' w) as (f & _ & _ & _ & _ & Hf).
  destruct f as [|e|].
  - destruct Hf as (_ & Hs & Ho).
    assert (a = a' \/ a <> a') as [<- |Ha] by (destruct a, a'; auto).
    + rewrite Hs. destruct Hne as [Hne|Hne]; [done|].
      by rewrite lookup_insert_ne.
    + by rewrite Ho.
  - destruct Hf as (_ & Ho). by rewrite Ho.
  - destruct Hf as (_ & Ho). by rewrite Ho.
Qed.

Lemma calm_get a k : preserves calm (storage_get a k).
Proof.
  intros w Hw. destruct (storage_get_any a k w) as (f & _ & -> & _).
  unfold calm in *. cbn. by rewrite Hw.
Qed.

Lemma calm_sleep ms : preserves calm (sleep ms).
Proof. by intros w Hw. Qed.

Lemma calm_set a k v : preserves calm (storage_set a k v).
Proof.
  intros w Hw. destruct (storage_set_run a k v w) as (f & _ & Hf & _).
  unfold calm in *. by rewrite Hf, Hw.
Qed.

Lemma startsWith_prefix p rest : JsString.startsWith p (p +:+ rest) = true.
Proof.
  unfold JsString.startsWith. induction p as [|a p IH]; [by destruct rest|].
  rewrite str_app_cons. cbn. by destruct (Ascii.ascii_dec a a).
Qed.

Lemma startsWith_app p k :
  JsString.startsWith p k = true -> exists rest, k = p +:+ rest.
Proof.
  unfold JsString.startsWith. revert k.
  induction p as [|a p IH]; intros k H; [by exists k|].
  destruct k as [|b k]; [done|]. cbn in H.
  destruct (Ascii.ascii_dec a b) as [<- |]; [|done].
  destruct (IH k H) as [rest ->]. by exists rest.
Qed.

Section one_save.
Variable collectProfileData : string -> M value.
Variable LZMA_compress : list Z -> Z -> outcome (list Z).
Variable LZMA_decompress : list Z -> outcome (list Z).
Hypothesis collect_reads : forall d w,
  sync (snd (collectProfileData d w)) = sync w /\
  (faults w = [] -> faults (snd (collectProfileData d w)) = []).

Lemma saveProfileState_keeps_key (profileName domain k : string) (w : world) :
  k = Background.profile_key profileName (Background.getMainDomain domain) \/
  JsString.startsWith "profiles_" k = true ->
  sync (snd (Background.saveProfileState collectProfileData LZMA_compress
               LZMA_decompress profileName domain w)) !! k
  = sync w !! k.
Proof.
  intros Hk.
  apply (preserves_saveProfileState (holds Sync k (sync w !! k))
           (fun a k' => a <> Sync \/ k' <> k)); try done.
  - intros a k'. apply holds_get.
  - intros ms. apply holds_sleep.
  - intros a k' v Hw. by apply holds_set.
  - intros d w0 Hw0. unfold holds in *. cbn [store_of] in *.
    by rewrite (proj1 (collect_reads d w0)).
  - by left.
  - intros j. right. destruct Hk as [-> |Hk].
    + apply utils_chunk_key_ne_key.
    + apply startsWith_app in Hk as [rest ->].
      unfold Utils.chunk_key, Background.profile_key. discriminate.
  - right. destruct Hk as [-> |Hk].
    + apply utils_meta_ne_key.
    + apply startsWith_app in Hk as [rest ->].
      unfold Utils.meta_key, Background.profile_key. discriminate.
  - intros j. right. destruct Hk as [-> |Hk].
    + unfold Utils.chunk_key, Background.domain_profiles_key,
        Background.profile_key. discriminate.
    + apply startsWith_app in Hk as [rest ->].
      unfold Utils.chunk_key, Background.domain_profiles_key. discriminate.
  - right. destruct Hk as [-> |Hk].
    + unfold Utils.meta_key, Background.domain_profiles_key,
        Background.profile_key. discriminate.
    + apply startsWith_app in Hk as [rest ->].
      unfold Utils.meta_key, Background.domain_profiles_key. discriminate.
  - right. destruct Hk as [-> |Hk].
    + apply domain_profiles_key_ne_profile_key.
    + apply startsWith_app in Hk as [rest ->].
      unfold Background.domain_profiles_key. discriminate.
Qed.

(** X20. The [saveProfileState] in force never writes an entry of
    [chrome.storage.sync] under the profile key
    [profile_<name>_<mainDomain>] nor under a key that begins with
    [profiles_], whatever the storage calls do: the entries that the popup
    reads to find a profile ([chrome.storage.sync.get(profileKey)]) and to
    list the profiles of a domain ([profiles_<domain>]) are after the save
    as they were before. *)
Theorem saveProfileState_spares_popup_keys (profileName domain k : string)
  (w : world) :
  k = Background.profile_key profileName (Background.getMainDomain domain) \/
  JsString.startsWith "profiles_" k = true ->
  sync (snd (Background.saveProfileState collectProfileData LZMA_compress
               LZMA_decompress profileName domain w)) !! k
  = sync w !! k.
Proof. apply saveProfileState_keeps_key. Qed.

Lemma saveProfileState_calm profileName domain w :
  faults w = [] ->
  faults (snd (Background.saveProfileState collectProfileData LZMA_compress
                 LZMA_decompress profileName domain w)) = [].
Proof.
  intros Hf.
  apply (preserves_saveProfileState calm (fun _ _ => True)); try done.
  - intros a k'. apply calm_get.
  - intros ms. apply calm_sleep.
  - intros a k' v _. apply calm_set.
  - intros d w0 Hw0. by apply (proj2 (collect_reads d w0)).
Qed.

(** What [loadDomainProfiles] returns when no call fails, from what
    [loadFromChunks] and [storageGet] return. *)
Lemma loadDomainProfiles_fst domain w :
  faults w = [] ->
  fst (Popup.loadDomainProfiles LZMA_decompress domain w)
  = match fst (Utils.loadFromChunks LZMA_decompress ("profiles_" +:+ domain)
                 false w) with
    | Return profiles =>
        if negb (truthy profiles) then
          match fst (Utils.storageGet LZMA_decompress ("profiles_" +:+ domain)
                       false w) with
          | Return stored =>
              match Popup.sort_newest_first (or_else stored (VArr [])) with
              | Throw _ => Return (VArr [])
              | r => r
              end
          | Throw _ => Return (VArr [])
          | Halt => Halt
          | Unmodelled => Unmodelled
          end
        else
          match Popup.sort_newest_first profiles with
          | Throw _ => Return (VArr [])
          | r => r
          end
    | Throw _ => Return (VArr [])
    | Halt => Halt
    | Unmodelled => Unmodelled
    end.
Proof.
  intros Hf. set (key := "profiles_" +:+ domain).
  destruct (Popup.loadDomainProfiles LZMA_decompress domain w) as [r wr] eqn:Hrun.
  cbn [fst]. unfold Popup.loadDomainProfiles, try_catch in Hrun. fold key in Hrun.
  unfold bind at 1 in Hrun.
  destruct (loadFromChunks_snd LZMA_decompress key false w Hf) as [keys Hw].
  destruct (Utils.loadFromChunks LZMA_decompress key false w)
    as [[profiles| | |] w'] eqn:Hload; cbn [fst snd] in *;
    try (by injection Hrun as <- <-).
  subst w'. destruct (negb (truthy profiles)).
  - assert (fst (Utils.storageGet LZMA_decompress key false
                   (after_reads (Utils.storage_area false) keys w))
            = fst (Utils.storageGet LZMA_decompress key false w)) as Hsame.
    { rewrite !storageGet_fst by done.
      rewrite (loadFromChunks_agree LZMA_decompress key false
                 (after_reads (Utils.storage_area false) keys w) w);
        [ by rewrite after_reads_store | done | done
        | by rewrite after_reads_store
        | intros i; by rewrite after_reads_store ]. }
    rewrite <- Hsame. unfold bind at 1 in Hrun. unfold bind at 1 in Hrun.
    destruct (Utils.storageGet LZMA_decompress key false
                (after_reads (Utils.storage_area false) keys w))
      as [[stored| | |] w']; cbn [fst snd] in *;
      try (by injection Hrun as <- <-).
    unfold ret, lift in Hrun.
    destruct (Popup.sort_newest_first (or_else stored (VArr [])));
      by injection Hrun as <- <-.
  - unfold bind, ret, lift in Hrun.
    destruct (Popup.sort_newest_first profiles); by injection Hrun as <- <-.
Qed.

(** What [loadDomainProfiles] returns depends on the entries of
    [chrome.storage.sync] whose keys begin with [profiles_] only. *)
Lemma loadDomainProfiles_agree domain w1 w2 :
  faults w1 = [] -> faults w2 = [] ->
  (forall k, JsString.startsWith "profiles_" k = true ->
             sync w1 !! k = sync w2 !! k) ->
  fst (Popup.loadDomainProfiles LZMA_decompress domain w1)
  = fst (Popup.loadDomainProfiles LZMA_decompress domain w2).
Proof.
  intros Hf1 Hf2 Hk.
  set (key := "profiles_" +:+ domain).
  assert (fst (Utils.loadFromChunks LZMA_decompress key false w1)
          = fst (Utils.loadFromChunks LZMA_decompress key false w2)) as Hload.
  { apply loadFromChunks_agree; try done.
    - cbn [Utils.storage_area store_of]. apply Hk.
      unfold Utils.meta_key, key. rewrite str_app_assoc.
      apply startsWith_prefix.
    - intros i. cbn [Utils.storage_area store_of]. apply Hk.
      unfold Utils.chunk_key, key. rewrite str_app_assoc.
      apply startsWith_prefix. }
  assert (fst (Utils.storageGet LZMA_decompress key false w1)
          = fst (Utils.storageGet LZMA_decompress key false w2)) as Hget.
  { rewrite !storageGet_fst by done. rewrite Hload.
    cbn [Utils.storage_area store_of].
    by rewrite (Hk key (startsWith_prefix "profiles_" domain)). }
  rewrite !loadDomainProfiles_fst by done. fold key. by rewrite Hload, Hget.
Qed.

(** X21. Saving a profile changes nothing of what the popup lists for a
    domain: [loadDomainProfiles] reads [profiles_<domain>], and the
    [saveProfileState] in force records the profile under
    [domain_profiles_<mainDomain>], so [loadDomainProfiles] returns after
    the save what it returned before, for every domain. *)
Theorem loadDomainProfiles_after_save (profileName domain listed : string)
  (w : world) :
  faults w = [] ->
  fst (Popup.loadDomainProfiles LZMA_decompress listed
         (snd (Background.saveProfileState collectProfileData LZMA_compress
                 LZMA_decompress profileName domain w)))
  = fst (Popup.loadDomainProfiles LZMA_decompress listed w).
Proof.
  intros Hf. apply loadDomainProfiles_agree; [|done|].
  - by apply saveProfileState_calm.
  - intros k Hk. apply saveProfileState_keeps_key. by right.
Qed.

End one_save.

End popup_keys.

Lemma saveProfileState_spares_popup_keys_witness :
  Storage.sync
    (snd (Background.saveProfileState (fun _ => Storage.ret Scenarios.collected)
            Scenarios.stored_compress Scenarios.stored_decompress
            "work" "example.com" Scenarios.empty_world))
    !! Background.profile_key "work" (Background.getMainDomain "example.com")
  = None.
Proof.
  rewrite (saveProfileState_spares_popup_keys
             (fun _ => Storage.ret Scenarios.collected)
             Scenarios.stored_compress Scenarios.stored_decompress
             (fun d w => conj eq_refl (fun H => H))
             "work" "example.com"
             (Background.profile_key "work" (Background.getMainDomain "example.com"))
             Scenarios.empty_world (or_introl eq_refl)).
  reflexivity.
Defined.

Lemma loadDomainProfiles_after_save_witness :
  fst (Popup.loadDomainProfiles Scenarios.stored_decompress "example.com"
         (snd (Background.saveProfileState
                 (fun _ => Storage.ret Scenarios.collected)
                 Scenarios.stored_compress Scenarios.stored_decompress
                 "work" "example.com" Scenarios.empty_world)))
  = Json.Return (Json.VArr []).
Proof.
  rewrite (loadDomainProfiles_after_save
             (fun _ => Storage.ret Scenarios.collected)
             Scenarios.stored_compress Scenarios.stored_decompress
             (fun d w => conj eq_refl (fun H => H))
             "work" "example.com" "example.com" Scenarios.empty_world eq_refl).
  vm_compute. reflexivity.
Defined.
